(** * PM Internship Recommender: the ranking and caching core

    A shallow embedding of [backend/recommender.py], of the endpoints of
    [backend/app.py] that rank or recompute, and of the two maintenance
    commands of [backend/compute_embeddings.py], with the properties of the
    ranking engine, the skill gate, the vector cache, the fallback ranker
    and the API around them.

    Conventions of the embedding.
    - Python [float] is IEEE binary64: scores are Rocq's primitive floats and
      every arithmetic step is written in the order the source performs it.
    - Python [str] is modelled by [string]; case folding and whitespace are
      the ASCII ones.
    - A posting is a [dict] with a fixed set of optional keys: a record of
      options.  Postings live in a store of objects and lists hold
      references, so that copying and in-place updates are visible.
    - The embedding provider and scikit-learn's [cosine_similarity] are
      external: they are parameters of the sections that use them, and a
      raised exception is [None].
    - A file is missing, or there and closed to [open], or stored; its
      bytes are a JSON document, text that is no JSON, or no text at all.
      The loaders return a value or raise, as their [except] clauses say.

    Part I holds the program and the vocabulary of its properties, Part II
    the properties and their proofs. *)

From Stdlib Require Import ZArith Lia List Bool Ascii String.
From Stdlib Require Import Floats Sorting.Permutation Sorting.Sorted.
From stdpp Require Import base option list sorting gmap strings pretty.

Local Open Scope Z_scope.
Set Warnings "-inexact-float".

(** * Part I: the program *)

(** ** Comparisons on binary64 *)

Module FloatOrder.

Definition is_nan (x : float) : bool := PrimFloat.is_nan x.

(** [x < y] of Python on two floats. *)
Definition lt (x y : float) : bool := PrimFloat.ltb x y.

(** The position of a number on the extended real line, as a triple compared
    lexicographically: class, then exponent, then mantissa. *)
Definition rank (f : spec_float) : option (Z * Z * Z) :=
  match f with
  | S754_nan => None
  | S754_zero _ => Some (0, 0, 0)
  | S754_infinity s => Some (if s then -2 else 2, 0, 0)
  | S754_finite s m e => Some (if s then (-1, - e, Z.neg m) else (1, e, Z.pos m))
  end.

Definition lex3 (a b : Z * Z * Z) : comparison :=
  let '(a1, a2, a3) := a in
  let '(b1, b2, b3) := b in
  match a1 ?= b1 with
  | Eq => match a2 ?= b2 with Eq => a3 ?= b3 | c => c end
  | c => c
  end.

Definition lex3_lt (a b : Z * Z * Z) : Prop :=
  let '(a1, a2, a3) := a in
  let '(b1, b2, b3) := b in
  a1 < b1 \/ (a1 = b1 /\ (a2 < b2 \/ (a2 = b2 /\ a3 < b3))).

End FloatOrder.

(** ** Stable sorting

    [list.sort] of Python is stable, also with [reverse=True]; it only asks
    whether one key is [<] another.  The model is the stable insertion sort
    over a strict comparison [before x y] ("[x] has to come strictly before
    [y]"): on keys that form a strict weak order every stable sort returns
    the same list. *)

Section StableSortModel.

Context {A : Type}.
Variable before : A -> A -> bool.

Fixpoint insert_stable (a : A) (l : list A) : list A :=
  match l with
  | [] => [a]
  | y :: l' => if before y a then y :: insert_stable a l' else a :: y :: l'
  end.

Definition sort_stable (l : list A) : list A := foldr insert_stable [] l.

(** Neither element has to precede the other. *)
Definition tied (x y : A) : bool := negb (before x y) && negb (before y x).

(** No element of the output has to precede an element found before it. *)
Definition in_order (l : list A) : Prop :=
  StronglySorted (fun x y => before y x = false) l.

End StableSortModel.

(** ** Python string operations

    The methods of [str] the program calls, on ASCII text. *)

Module Py.

Local Open Scope nat_scope.

(** [c.isspace()]: tab, line feed, vertical tab, form feed, carriage return,
    the four separators 28 to 31, and the space. *)
Definition is_space (c : ascii) : bool :=
  let n := nat_of_ascii c in
  ((9 <=? n) && (n <=? 13)) || ((28 <=? n) && (n <=? 32)).

Definition lower_char (c : ascii) : ascii :=
  let n := nat_of_ascii c in
  if (65 <=? n) && (n <=? 90) then ascii_of_nat (n + 32) else c.

(** [s.lower()] *)
Fixpoint lower (s : string) : string :=
  match s with
  | EmptyString => EmptyString
  | String c s' => String (lower_char c) (lower s')
  end.

Fixpoint lstrip (s : string) : string :=
  match s with
  | EmptyString => EmptyString
  | String c s' => if is_space c then lstrip s' else s
  end.

Definition rstrip (s : string) : string := String.rev (lstrip (String.rev s)).

(** [s.strip()] *)
Definition strip (s : string) : string := rstrip (lstrip s).

(** [s.replace(a, b)] for single characters. *)
Fixpoint replace_char (a b : ascii) (s : string) : string :=
  match s with
  | EmptyString => EmptyString
  | String c s' => String (if Ascii.eqb c a then b else c) (replace_char a b s')
  end.

(** [s.split(sep)] for a single character: never an empty list. *)
Fixpoint split_go (sep : ascii) (cur : string) (s : string) : list string :=
  match s with
  | EmptyString => [String.rev cur]
  | String c s' =>
      if Ascii.eqb c sep then String.rev cur :: split_go sep EmptyString s'
      else split_go sep (String c cur) s'
  end.

Definition split (sep : ascii) (s : string) : list string := split_go sep EmptyString s.

(** [s.split()]: the maximal runs of characters that are not whitespace. *)
Fixpoint split_ws_go (cur : string) (s : string) : list string :=
  match s with
  | EmptyString => match cur with EmptyString => [] | _ => [String.rev cur] end
  | String c s' =>
      if is_space c
      then match cur with
           | EmptyString => split_ws_go EmptyString s'
           | _ => String.rev cur :: split_ws_go EmptyString s'
           end
      else split_ws_go (String c cur) s'
  end.

Definition split_ws (s : string) : list string := split_ws_go EmptyString s.

(** [sub in s] *)
Fixpoint contains (sub s : string) : bool :=
  String.prefix sub s
  || match s with
     | EmptyString => false
     | String _ s' => contains sub s'
     end.

(** [s[:n]] for [n >= 0] *)
Fixpoint take (n : nat) (s : string) : string :=
  match n, s with
  | S n', String c s' => String c (take n' s')
  | _, _ => EmptyString
  end.

(** Truth value of a string: non-empty. *)
Definition truthy (s : string) : bool :=
  match s with EmptyString => false | _ => true end.

Definition len (s : string) : nat := String.length s.

(** [float(n)] for a count [n]; Python multiplies or divides an [int] with a
    [float] after this conversion.  Counts are lengths of lists in memory:
    they stay below [2^63]. *)
Definition float_of_nat (n : nat) : float :=
  PrimFloat.of_uint63 (Uint63.of_Z (Z.of_nat n)).

(** [l[:k]] *)
Definition slice_to {A} (k : Z) (l : list A) : list A :=
  if (0 <=? k)%Z then List.firstn (Z.to_nat k) l
  else List.firstn (length l - Z.to_nat (- k)) l.

(** [l[start:]] *)
Definition slice_from {A} (start : Z) (l : list A) : list A :=
  if (0 <=? start)%Z then List.skipn (Z.to_nat start) l
  else List.skipn (length l - Z.to_nat (- start)) l.

End Py.

(** ** Data model *)

(** An embedding vector. *)
Abbreviation vec := (list float).

(** The value under the key ['id']: JSON catalogues carry strings or
    integers there. *)
Inductive pyid :=
  | IdStr (s : string)
  | IdInt (n : Z).

(** The value under ['sector']: one string or a list of strings. *)
Inductive sector_value :=
  | SectorStr (s : string)
  | SectorList (l : list string).

(** The dict stored under ['match_details'] of a result.  The key
    ['fallback_recommendation'] exists in fallback results only. *)
Record match_details := {
  exact_skill_matches : nat;
  partial_skill_matches : nat;
  skill_relevance_score : float;
  education_match : bool;
  location_match : bool;
  semantic_similarity : float;
  fallback_recommendation : option bool
}.

(** A posting dict: each key is present ([Some]) or absent ([None]).  The
    last three keys are the ones the program itself adds or removes. *)
Record posting := {
  p_id : option pyid;
  p_title : option string;
  p_org : option string;
  p_required_education : option string;
  p_skills : option string;
  p_location : option string;
  p_sector : option sector_value;
  p_description : option string;
  p_embedding : option vec;
  p_score : option float;
  p_match_details : option match_details
}.

(** [d.get(key, '')] on a key that holds a string. *)
Definition get_str (v : option string) : string := default EmptyString v.

(** Objects live in a store; a Python list holds references into it. *)
Abbreviation loc := nat.

Inductive pyobj :=
  | Dict (p : posting)
  | NotDict.

Abbreviation store := (list pyobj).

(** The dict a reference points to; [None] for anything that fails
    [isinstance(internship, dict)].  (The references a list holds are live;
    a location outside the store counts as no dict.) *)
Definition dict_at (s : store) (l : loc) : option posting :=
  match s !! l with
  | Some (Dict p) => Some p
  | _ => None
  end.

(** A fresh object: its reference is the next free location. *)
Definition alloc (s : store) (o : pyobj) : store * loc := (s ++ [o], length s).

(** The calls made to the embedding provider, in order. *)
Inductive provider_call :=
  | EmbedQuery (text : string)
  | EmbedDocuments (texts : list string).

(** ** TextNormalizer *)

(** Truth value of [internship.get('id')]. *)
Definition id_truthy (i : option pyid) : bool :=
  match i with
  | Some (IdStr s) => Py.truthy s
  | Some (IdInt n) => negb (n =? 0)
  | None => false
  end.

(** [str(internship['id'])] *)
Definition str_of_id (i : pyid) : string :=
  match i with
  | IdStr s => s
  | IdInt n => pretty n
  end.

(** [f"{title}_{org}".replace(' ', '_').lower()] *)
Definition generated_id (internship : posting) : string :=
  Py.lower (Py.replace_char " " "_"
    (get_str (p_title internship) +:+ "_" +:+ get_str (p_org internship))).

Definition get_internship_id (internship : posting) : string :=
  match p_id internship with
  | Some i => if id_truthy (Some i) then str_of_id i else generated_id internship
  | None => generated_id internship
  end.

(** [', '.join(l)] *)
Fixpoint join_comma (l : list string) : string :=
  match l with
  | [] => EmptyString
  | [x] => x
  | x :: rest => x +:+ ", " +:+ join_comma rest
  end.

Definition get_internship_text (internship : posting) : string :=
  let sectors :=
    match p_sector internship with
    | None => EmptyString
    | Some (SectorStr x) => x
    | Some (SectorList l) => join_comma l
    end in
  Py.strip
    ("Position: " +:+ get_str (p_title internship) +:+ " "
     +:+ "Company: " +:+ get_str (p_org internship) +:+ " "
     +:+ "Education Required: " +:+ get_str (p_required_education internship) +:+ " "
     +:+ "Required Skills: " +:+ get_str (p_skills internship) +:+ " "
     +:+ "Industry Sector: " +:+ sectors +:+ " "
     +:+ "Work Location: " +:+ get_str (p_location internship) +:+ " "
     +:+ "Description: " +:+ Py.take 200 (get_str (p_description internship))).

(** ** SkillRelevanceScorer *)

(** [set([s.strip().lower() for s in skills.split(",") if s.strip()])] *)
Definition skill_tokens (skills : string) : gset string :=
  list_to_set
    ((fun x => Py.lower (Py.strip x))
       <$> List.filter (fun x => Py.truthy (Py.strip x)) (Py.split "," skills)).

(** The inner loop of the partial matching: [true] when it reaches its
    [break]. *)
Fixpoint partial_hit (exact_matches : gset string) (user_skill : string)
    (intern_skill_tokens : list string) : bool :=
  match intern_skill_tokens with
  | [] => false
  | intern_skill :: rest =>
      if (2 <? Py.len user_skill)%nat && (2 <? Py.len intern_skill)%nat
      then
        if (Py.contains user_skill intern_skill || Py.contains intern_skill user_skill)
           && negb (bool_decide (user_skill ∈ exact_matches))
        then true
        else partial_hit exact_matches user_skill rest
      else partial_hit exact_matches user_skill rest
  end.

(** The outer loop: one more partial match for each user token whose inner
    loop breaks. *)
Fixpoint count_partial (exact_matches : gset string) (user_skill_tokens : list string)
    (intern_skill_tokens : list string) (partial_matches : nat) : nat :=
  match user_skill_tokens with
  | [] => partial_matches
  | user_skill :: rest =>
      count_partial exact_matches rest intern_skill_tokens
        (if partial_hit exact_matches user_skill intern_skill_tokens
         then (partial_matches + 1)%nat else partial_matches)
  end.

Definition calculate_skill_relevance (user_skills internship_skills : string)
  : nat * nat * float :=
  let user_skill_tokens := skill_tokens user_skills in
  let intern_skill_tokens := skill_tokens internship_skills in
  if bool_decide (user_skill_tokens = ∅) || bool_decide (intern_skill_tokens = ∅)
  then (0%nat, 0%nat, 0%float)
  else
    let exact_matches := user_skill_tokens ∩ intern_skill_tokens in
    let partial_matches :=
      count_partial exact_matches (elements user_skill_tokens)
        (elements intern_skill_tokens) 0 in
    let exact_weight := (Py.float_of_nat (size exact_matches) * 1.0)%float in
    let partial_weight := (Py.float_of_nat partial_matches * 0.6)%float in
    let total_user_skills := size user_skill_tokens in
    let relevance_score :=
      if (0 <? total_user_skills)%nat
      then ((exact_weight + partial_weight) / Py.float_of_nat total_user_skills)%float
      else 0%float in
    (size exact_matches, partial_matches, relevance_score).

(** ** VectorCache *)

Inductive exn :=
  | ProviderFailure      (* the embedding provider raised *)
  | IndexError           (* the provider answered with more vectors than texts *)
  | OSError              (* a file that exists cannot be opened *)
  | UnicodeDecodeError.  (* the bytes of a file are no UTF-8 text *)

Inductive py_result (A : Type) :=
  | Returned (a : A)
  | Raised (e : exn).
Arguments Returned {A} a.
Arguments Raised {A} e.

(** What a call of the cache fill leaves behind: the provider calls it
    made, the state of the dict it worked on (the caller's dict, updated in
    place), and what it returned or raised. *)
Record fill_outcome := {
  fill_calls : list provider_call;
  fill_dict : gmap string vec;
  fill_ret : py_result (gmap string vec)
}.

(** The first loop of the fill: the texts and the ids of the postings that
    have no vector yet (two lists filled in step). *)
Fixpoint find_missing (internships : list pyobj) (existing_embeddings : gmap string vec)
  : list string * list string :=
  match internships with
  | [] => ([], [])
  | NotDict :: rest => find_missing rest existing_embeddings
  | Dict internship :: rest =>
      let internship_id := get_internship_id internship in
      if bool_decide (is_Some (existing_embeddings !! internship_id))
      then find_missing rest existing_embeddings
      else
        let text := get_internship_text internship in
        if Py.truthy text
        then
          let '(docs_to_compute, ids_to_compute) := find_missing rest existing_embeddings in
          (text :: docs_to_compute, internship_id :: ids_to_compute)
        else find_missing rest existing_embeddings
  end.

(** [for i, v in enumerate(new_embeddings): existing[ids_to_compute[i]] = v] *)
Fixpoint merge_new (ids_to_compute : list string) (i : nat) (new_embeddings : list vec)
    (existing_embeddings : gmap string vec) : gmap string vec * option exn :=
  match new_embeddings with
  | [] => (existing_embeddings, None)
  | embedding_vector :: rest =>
      match ids_to_compute !! i with
      | Some k => merge_new ids_to_compute (S i) rest (<[k := embedding_vector]> existing_embeddings)
      | None => (existing_embeddings, Some IndexError)
      end
  end.

(** What is behind a path. *)
Inductive on_disk (A : Type) :=
  | Absent       (* no such file: [open] raises [FileNotFoundError] *)
  | Locked       (* the file is there and [open] raises another [OSError] *)
  | Stored (a : A).
Arguments Absent {A}.
Arguments Locked {A}.
Arguments Stored {A} a.

(** What the bytes of a file are to [json.load] on a UTF-8 text stream. *)
Inductive decoded (A : Type) :=
  | Json (a : A)  (* a JSON document *)
  | NotJson       (* text that [json.load] refuses with [JSONDecodeError] *)
  | NotText.      (* bytes that are no UTF-8: reading raises [UnicodeDecodeError] *)
Arguments Json {A} a.
Arguments NotJson {A}.
Arguments NotText {A}.

(** The catalogue file: the MD5 of its bytes and what [json.load] makes of
    them (a JSON document of the catalogue is a list). *)
Record catalog_file := {
  content_hash : string;
  content_json : decoded (list pyobj)
}.

(** The document of the vector-cache file: [metadata.source_file_hash] and
    the dict under ['embeddings'] (empty when the key is missing). *)
Record emb_file := {
  source_file_hash : option string;
  file_embeddings : gmap string vec
}.

(** The two files as a call finds them. *)
Record files := {
  internships_file : on_disk catalog_file;
  embeddings_file : on_disk (decoded emb_file)
}.

(** [get_file_hash]: the file is read as bytes, and every exception gives
    [None]. *)
Definition get_file_hash (fs : files) : option string :=
  match internships_file fs with
  | Stored f => Some (content_hash f)
  | _ => None
  end.

(** [load_internships] catches [FileNotFoundError] and [JSONDecodeError]
    only. *)
Definition load_internships (fs : files) : py_result (list pyobj) :=
  match internships_file fs with
  | Absent => Returned []
  | Locked => Raised OSError
  | Stored f =>
      match content_json f with
      | Json internships => Returned internships
      | NotJson => Returned []
      | NotText => Raised UnicodeDecodeError
      end
  end.

(** [load_embeddings] catches the same two exceptions. *)
Definition load_embeddings (fs : files) : py_result (gmap string vec) :=
  match embeddings_file fs with
  | Absent => Returned ∅
  | Locked => Raised OSError
  | Stored (Json data) => Returned (file_embeddings data)
  | Stored NotJson => Returned ∅
  | Stored NotText => Raised UnicodeDecodeError
  end.

(** [embeddings_metadata.get("source_file_hash")]: the metadata are read
    inside a [try] that swallows every exception. *)
Definition last_processed_hash (fs : files) : option string :=
  match embeddings_file fs with
  | Stored (Json data) => source_file_hash data
  | _ => None
  end.

(** What [check_and_update_embeddings] leaves behind: the provider calls,
    the document it tried to write to the cache file (the write itself is
    best effort), and the returned triple. *)
Record update_outcome := {
  upd_calls : list provider_call;
  upd_saved : option emb_file;
  upd_ret : py_result (list pyobj * gmap string vec * bool)
}.

Section VectorCache.

(** [embeddings.embed_documents]; [None] when it raises. *)
Variable embed_documents : list string -> option (list vec).

Definition precompute_doc_embeddings_new (internships : list pyobj)
    (existing_embeddings : option (gmap string vec)) : fill_outcome :=
  match internships with
  | [] =>
      {| fill_calls := [];
         fill_dict := default ∅ existing_embeddings;
         fill_ret := Returned (default ∅ existing_embeddings) |}
  | _ =>
      let existing_embeddings := default ∅ existing_embeddings in
      let '(docs_to_compute, ids_to_compute) := find_missing internships existing_embeddings in
      match docs_to_compute with
      | [] =>
          {| fill_calls := [];
             fill_dict := existing_embeddings;
             fill_ret := Returned existing_embeddings |}
      | _ =>
          match embed_documents docs_to_compute with
          | None =>
              {| fill_calls := [EmbedDocuments docs_to_compute];
                 fill_dict := existing_embeddings;
                 fill_ret := Raised ProviderFailure |}
          | Some new_embeddings =>
              match merge_new ids_to_compute 0 new_embeddings existing_embeddings with
              | (merged, None) =>
                  {| fill_calls := [EmbedDocuments docs_to_compute];
                     fill_dict := merged;
                     fill_ret := Returned merged |}
              | (merged, Some e) =>
                  {| fill_calls := [EmbedDocuments docs_to_compute];
                     fill_dict := merged;
                     fill_ret := Raised e |}
              end
          end
      end
  end.

(** The second half of [check_and_update_embeddings]: "file has changed or
    no cache - reload and recompute". *)
Definition reload_and_recompute (fs : files) (current_hash : option string)
  : update_outcome :=
  match load_internships fs with
  | Raised e => {| upd_calls := []; upd_saved := None; upd_ret := Raised e |}
  | Returned [] =>
      {| upd_calls := []; upd_saved := None; upd_ret := Returned ([], ∅, false) |}
  | Returned internships =>
      match load_embeddings fs with
      | Raised e => {| upd_calls := []; upd_saved := None; upd_ret := Raised e |}
      | Returned existing_embeddings =>
          let filled :=
            precompute_doc_embeddings_new internships (Some existing_embeddings) in
          match fill_ret filled with
          | Raised e =>
              {| upd_calls := fill_calls filled; upd_saved := None; upd_ret := Raised e |}
          | Returned updated_embeddings =>
              {| upd_calls := fill_calls filled;
                 upd_saved := Some {| source_file_hash := current_hash;
                                      file_embeddings := updated_embeddings |};
                 upd_ret := Returned (internships, updated_embeddings, true) |}
          end
      end
  end.

Definition check_and_update_embeddings (fs : files)
    (cached_internships : option (list pyobj))
    (cached_embeddings : option (gmap string vec)) : update_outcome :=
  let current_hash := get_file_hash fs in
  let last_processed_hash := last_processed_hash fs in
  match cached_internships, cached_embeddings with
  | Some ci, Some ce =>
      if bool_decide (current_hash = last_processed_hash)
      then {| upd_calls := []; upd_saved := None; upd_ret := Returned (ci, ce, false) |}
      else reload_and_recompute fs current_hash
  | _, _ => reload_and_recompute fs current_hash
  end.

End VectorCache.

(** ** RelevanceRanker and FallbackRanker *)

(** One entry of [skill_relevance_data]. *)
Record relevance_data := {
  original_index : nat;
  exact_matches : nat;
  partial_matches : nat;
  relevance_score : float
}.

(** A posting admitted by the skill gate: the reference appended to
    [skill_relevant_internships], the dict it points to, and the entry
    appended to [skill_relevance_data] in the same step. *)
Record relevant := {
  rel_ref : loc;
  rel_dict : posting;
  rel_data : relevance_data
}.

(** One entry of [final_scores]. *)
Record scored := {
  sc_score : float;
  sc_internship : loc;
  sc_match_details : match_details
}.

(** What a ranking call leaves behind: the store, the provider calls, and
    the returned list of references. *)
Record outcome := {
  out_store : store;
  out_calls : list provider_call;
  out_result : list loc
}.

(** [top_k = max(3, min(7, top_k))] *)
Definition clamp_top_k (top_k : Z) : Z := Z.max 3 (Z.min 7 top_k).

(** [str(x).strip() if x else ""] *)
Definition normalize (x : string) : string :=
  if Py.truthy x then Py.strip x else EmptyString.

(** The admission test of the gate. *)
Definition gate_admits (exact_matches partial_matches : nat) (relevance_score : float) : bool :=
  (0 <? exact_matches)%nat || (2 <=? partial_matches)%nat
  || FloatOrder.lt 0.2 relevance_score.

(** Step 1: filter the postings by skill relevance. *)
Fixpoint skill_gate (s : store) (skills : string) (i : nat) (internships : list loc)
  : list relevant :=
  match internships with
  | [] => []
  | l :: rest =>
      match dict_at s l with
      | None => skill_gate s skills (S i) rest
      | Some internship =>
          let internship_skills := get_str (p_skills internship) in
          let '(exact_matches, partial_matches, relevance_score) :=
            calculate_skill_relevance skills internship_skills in
          if gate_admits exact_matches partial_matches relevance_score
          then {| rel_ref := l; rel_dict := internship;
                  rel_data := {| original_index := i;
                                 exact_matches := exact_matches;
                                 partial_matches := partial_matches;
                                 relevance_score := relevance_score |} |}
               :: skill_gate s skills (S i) rest
          else skill_gate s skills (S i) rest
      end
  end.

Definition primary_query (education skills location : string) : string :=
  "Skills: " +:+ skills +:+ " " +:+ skills +:+ " " +:+ skills
  +:+ ", Education: " +:+ education +:+ " " +:+ education
  +:+ ", Position: " +:+ location.

Definition fallback_query (education skills : string) : string :=
  "Skills: " +:+ skills +:+ " " +:+ skills +:+ " " +:+ skills +:+ " " +:+ skills
  +:+ ", Education: " +:+ education +:+ " " +:+ education.

(** The education test of step 3, on the lowercased strings. *)
Definition edu_matches (req_edu user_edu : string) : bool :=
  Py.truthy req_edu && Py.truthy user_edu
  && (String.eqb req_edu user_edu || Py.contains req_edu user_edu
      || Py.contains user_edu req_edu).

(** The location test of step 3, on the lowercased strings. *)
Definition loc_matches (user_loc intern_loc : string) : bool :=
  Py.truthy user_loc && Py.truthy intern_loc
  && (String.eqb user_loc intern_loc
      || Py.contains "remote" intern_loc
      || String.eqb user_loc "remote"
      || existsb (fun x => Py.contains x intern_loc) (Py.split_ws user_loc)
      || existsb (fun x => Py.contains x user_loc) (Py.split_ws intern_loc)).

(** The boost of step 3, accumulated in the order of the source. *)
Definition boost_of (edu_match : bool) (exact_matches partial_matches : nat)
    (location_match : bool) : float :=
  let boost := 0%float in
  let boost := if edu_match then (boost + 0.25)%float else boost in
  let boost := (boost + 0.30 * Py.float_of_nat exact_matches)%float in
  let boost := (boost + 0.15 * Py.float_of_nat (Nat.min partial_matches 3))%float in
  let boost := if location_match then (boost + 0.08)%float else boost in
  boost.

Definition with_score (x : float) (p : posting) : posting :=
  {| p_id := p_id p; p_title := p_title p; p_org := p_org p;
     p_required_education := p_required_education p; p_skills := p_skills p;
     p_location := p_location p; p_sector := p_sector p;
     p_description := p_description p; p_embedding := p_embedding p;
     p_score := Some x; p_match_details := p_match_details p |}.

Definition with_match_details (m : match_details) (p : posting) : posting :=
  {| p_id := p_id p; p_title := p_title p; p_org := p_org p;
     p_required_education := p_required_education p; p_skills := p_skills p;
     p_location := p_location p; p_sector := p_sector p;
     p_description := p_description p; p_embedding := p_embedding p;
     p_score := p_score p; p_match_details := Some m |}.

(** [if 'embedding' in d: del d['embedding']] *)
Definition del_embedding (p : posting) : posting :=
  {| p_id := p_id p; p_title := p_title p; p_org := p_org p;
     p_required_education := p_required_education p; p_skills := p_skills p;
     p_location := p_location p; p_sector := p_sector p;
     p_description := p_description p; p_embedding := None;
     p_score := p_score p; p_match_details := p_match_details p |}.

(** An assignment to keys of the dict at [l], in place. *)
Definition update_dict (s : store) (l : loc) (f : posting -> posting) : store :=
  alter (fun o => match o with Dict p => Dict (f p) | NotDict => NotDict end) l s.

(** One round of the loop that builds the results: copy the dict, then set
    ['score'] and ['match_details'] on the copy and delete its
    ['embedding']. *)
Definition emit_result (s : store) (l : loc) (score : float) (m : match_details)
  : store * list loc :=
  match dict_at s l with
  | Some internship =>
      let '(s, internship_copy) := alloc s (Dict internship) in
      let s := update_dict s internship_copy (with_score score) in
      let s := update_dict s internship_copy (with_match_details m) in
      let s := update_dict s internship_copy del_embedding in
      (s, [internship_copy])
  | None => (s, [])
  end.

(** [for item in final_scores[:top_k]: ...] *)
Fixpoint build_results (s : store) (items : list scored) : store * list loc :=
  match items with
  | [] => (s, [])
  | item :: rest =>
      let '(s, r) := emit_result s (sc_internship item) (sc_score item)
                       (sc_match_details item) in
      let '(s, results) := build_results s rest in
      (s, r ++ results)
  end.

(** [np.argsort(xs)]: the indices in ascending order of their values (ties
    in the order of the indices). *)
Definition argsort (xs : list float) : list nat :=
  fst <$> sort_stable (fun a b : nat * float => FloatOrder.lt (snd a) (snd b))
            (zip (seq 0 (length xs)) xs).

Definition fallback_details (sim : float) : match_details :=
  {| exact_skill_matches := 0; partial_skill_matches := 0;
     skill_relevance_score := 0%float; education_match := false;
     location_match := false; semantic_similarity := sim;
     fallback_recommendation := Some true |}.

(** [for idx in idx_sorted: ...] of the fallback. *)
Fixpoint fallback_results (s : store) (valid_internships : list loc)
    (semantic_scores : list float) (idx_sorted : list nat) : store * list loc :=
  match idx_sorted with
  | [] => (s, [])
  | idx :: rest =>
      match valid_internships !! idx, semantic_scores !! idx with
      | Some l, Some sim =>
          let '(s, r) := emit_result s l sim (fallback_details sim) in
          let '(s, results) := fallback_results s valid_internships semantic_scores rest in
          (s, r ++ results)
      | _, _ => fallback_results s valid_internships semantic_scores rest
      end
  end.

Section Ranker.

(** [embeddings.embed_query]; [None] when it raises. *)
Variable embed_query : string -> option vec.
(** [cosine_similarity(q_vec, doc_emb.reshape(1, -1))[0][0]] on the query
    vector and a document vector that is not empty; [None] when it raises. *)
Variable cosine_similarity : vec -> vec -> option float.

(** The [try] around the query embedding: only the provider can raise in
    it, [np.array(q_emb).reshape(1, -1)] accepts every list of numbers,
    the empty one too. *)
Definition query_vector (query : string) : option vec := embed_query query.

(** Step 2, for one admitted posting. *)
Definition semantic_score (q_vec : vec) (internship : posting) : float :=
  match default [] (p_embedding internship) with
  | [] => 0%float
  | doc_emb => default 0%float (cosine_similarity q_vec doc_emb)
  end.

(** Step 3, for one admitted posting. *)
Definition final_score (user_edu user_loc : string) (q_vec : vec) (r : relevant) : scored :=
  let internship := rel_dict r in
  let base_score := semantic_score q_vec internship in
  let relevance_data := rel_data r in
  let req_edu := Py.lower (get_str (p_required_education internship)) in
  let edu_match := edu_matches req_edu user_edu in
  let intern_loc := Py.lower (get_str (p_location internship)) in
  let location_match := loc_matches user_loc intern_loc in
  let boost := boost_of edu_match (exact_matches relevance_data)
                 (partial_matches relevance_data) location_match in
  {| sc_score := (base_score + boost)%float;
     sc_internship := rel_ref r;
     sc_match_details :=
       {| exact_skill_matches := exact_matches relevance_data;
          partial_skill_matches := partial_matches relevance_data;
          skill_relevance_score := relevance_score relevance_data;
          education_match := edu_match;
          location_match := location_match;
          semantic_similarity := base_score;
          fallback_recommendation := None |} |}.

(** [final_scores.sort(key=lambda x: x['score'], reverse=True)] *)
Definition sort_by_score (final_scores : list scored) : list scored :=
  sort_stable (fun a b => FloatOrder.lt (sc_score b) (sc_score a)) final_scores.

(** The scan of the fallback: the similarities above 0.4 and the postings
    they belong to (two lists filled in step). *)
Fixpoint fallback_scan (s : store) (q_vec : vec) (internships : list loc)
  : list float * list loc :=
  match internships with
  | [] => ([], [])
  | l :: rest =>
      let '(semantic_scores, valid_internships) := fallback_scan s q_vec rest in
      match dict_at s l with
      | None => (semantic_scores, valid_internships)
      | Some internship =>
          match default [] (p_embedding internship) with
          | [] => (semantic_scores, valid_internships)
          | doc_emb =>
              match cosine_similarity q_vec doc_emb with
              | Some sim =>
                  if FloatOrder.lt 0.4 sim
                  then (sim :: semantic_scores, l :: valid_internships)
                  else (semantic_scores, valid_internships)
              | None => (semantic_scores, valid_internships)
              end
          end
      end
  end.

Definition semantic_fallback_recommendation (s : store) (internships : list loc)
    (education skills location : string) (top_k : Z) : outcome :=
  let query := fallback_query education skills in
  match query_vector query with
  | None => {| out_store := s; out_calls := [EmbedQuery query]; out_result := [] |}
  | Some q_vec =>
      let '(semantic_scores, valid_internships) := fallback_scan s q_vec internships in
      match valid_internships with
      | [] => {| out_store := s; out_calls := [EmbedQuery query]; out_result := [] |}
      | _ =>
          let top_k := Z.min top_k (Z.of_nat (length valid_internships)) in
          let idx_sorted := reverse (Py.slice_from (- top_k) (argsort semantic_scores)) in
          let '(s', results) :=
            fallback_results s valid_internships semantic_scores idx_sorted in
          {| out_store := s'; out_calls := [EmbedQuery query]; out_result := results |}
      end
  end.

Definition recommend (s : store) (internships : list loc)
    (education skills location : string) (top_k : Z) : outcome :=
  match internships with
  | [] => {| out_store := s; out_calls := []; out_result := [] |}
  | _ =>
      let education := normalize education in
      let skills := normalize skills in
      let location := normalize location in
      let top_k := clamp_top_k top_k in
      let skill_relevant_internships := skill_gate s skills 0 internships in
      match skill_relevant_internships with
      | [] => semantic_fallback_recommendation s internships education skills location top_k
      | _ =>
          let top_k := Z.min top_k (Z.of_nat (length skill_relevant_internships)) in
          let query := primary_query education skills location in
          match query_vector query with
          | None => {| out_store := s; out_calls := [EmbedQuery query]; out_result := [] |}
          | Some q_vec =>
              let user_edu := Py.lower education in
              let user_loc := Py.lower location in
              let final_scores :=
                final_score user_edu user_loc q_vec <$> skill_relevant_internships in
              let final_scores := sort_by_score final_scores in
              let '(s', results) := build_results s (Py.slice_to top_k final_scores) in
              {| out_store := s'; out_calls := [EmbedQuery query]; out_result := results |}
          end
      end
  end.

End Ranker.

(** ** The merge at the API boundary ([api_recommend]) *)

(** [internship.get('id') or internship.get('title', '') + internship.get('org', '')]:
    the id itself when it is truthy, else the two strings glued together. *)
Definition api_merge_key (internship : posting) : pyid :=
  match p_id internship with
  | Some i =>
      if id_truthy (Some i) then i
      else IdStr (get_str (p_title internship) +:+ get_str (p_org internship))
  | None => IdStr (get_str (p_title internship) +:+ get_str (p_org internship))
  end.

(** [key in embeddings] and [embeddings[key]] on a dict whose keys are
    strings: an [int] is equal to no string. *)
Definition lookup_key (key : pyid) (embeddings : gmap string vec) : option vec :=
  match key with
  | IdStr k => embeddings !! k
  | IdInt _ => None
  end.

Definition with_embedding (v : vec) (p : posting) : posting :=
  {| p_id := p_id p; p_title := p_title p; p_org := p_org p;
     p_required_education := p_required_education p; p_skills := p_skills p;
     p_location := p_location p; p_sector := p_sector p;
     p_description := p_description p; p_embedding := Some v;
     p_score := p_score p; p_match_details := p_match_details p |}.

(** The loop that builds [internships_with_embeddings]. *)
Fixpoint merge_embeddings (internships : list posting) (embeddings : gmap string vec)
  : list posting :=
  match internships with
  | [] => []
  | internship :: rest =>
      match lookup_key (api_merge_key internship) embeddings with
      | Some v => with_embedding v internship :: merge_embeddings rest embeddings
      | None => merge_embeddings rest embeddings
      end
  end.

(** ** Vocabulary of the properties *)

(** *** The store under the ranking calls *)

(** What the result loop makes of a copied posting. *)
Definition decorate (score : float) (m : match_details) (p : posting) : posting :=
  del_embedding (with_match_details m (with_score score p)).

(** A result record: no ['embedding'], a ['score'] and a ['match_details']. *)
Definition is_result (o : pyobj) : Prop :=
  exists p, o = Dict p /\ p_embedding p = None
            /\ is_Some (p_score p) /\ is_Some (p_match_details p).

(** The result loop in closed form, when every item refers to a dict. *)
Definition result_of (s : store) (item : scored) : option pyobj :=
  (fun p => Dict (decorate (sc_score item) (sc_match_details item) p))
    <$> dict_at s (sc_internship item).

(** The result at [r] is the copy made for [item]: the dict [item] refers
    to, with the score and the details of [item] and without embedding. *)
Definition copy_of (s s' : store) (r : loc) (item : scored) : Prop :=
  exists p, dict_at s (sc_internship item) = Some p
            /\ dict_at s' r = Some (decorate (sc_score item) (sc_match_details item) p).

(** *** The gate *)

(** The gate on one reference: a dict whose skills pass the admission test. *)
Definition admits (s : store) (skills : string) (l : loc) : bool :=
  match dict_at s l with
  | Some internship =>
      let '(exact_matches, partial_matches, relevance_score) :=
        calculate_skill_relevance skills (get_str (p_skills internship)) in
      gate_admits exact_matches partial_matches relevance_score
  | None => false
  end.

(** Every admitted entry holds the dict its reference points to and the
    numbers the scorer returned for it. *)
Definition well_admitted (s : store) (skills : string) (a : relevant) : Prop :=
  dict_at s (rel_ref a) = Some (rel_dict a)
  /\ admits s skills (rel_ref a) = true
  /\ calculate_skill_relevance skills (get_str (p_skills (rel_dict a)))
     = (exact_matches (rel_data a), partial_matches (rel_data a),
        relevance_score (rel_data a)).

(** *** The index sort of the fallback *)

(** The indices paired with their values, in ascending order of the values. *)
Definition ranked_pairs (xs : list float) : list (nat * float) :=
  sort_stable (fun a b : nat * float => FloatOrder.lt (snd a) (snd b))
    (zip (seq 0 (length xs)) xs).

(** *** The fallback as a result loop over picked survivors *)

(** The item the fallback emits for index [idx]. *)
Definition fallback_item (valid_internships : list loc) (semantic_scores : list float)
    (idx : nat) : option scored :=
  match valid_internships !! idx, semantic_scores !! idx with
  | Some l, Some sim =>
      Some {| sc_score := sim; sc_internship := l;
              sc_match_details := fallback_details sim |}
  | _, _ => None
  end.

(** The survivor behind a ranked pair. *)
Definition item_of_pair (valid_internships : list loc) (ix : nat * float) : scored :=
  {| sc_score := snd ix;
     sc_internship := default 0%nat (valid_internships !! fst ix);
     sc_match_details := fallback_details (snd ix) |}.

(** A ranked pair with its index replaced by the posting at that index. *)
Definition relabel (valid_internships : list loc) (ix : nat * float) : loc * float :=
  (default 0%nat (valid_internships !! fst ix), snd ix).

(** *** The scan of the fallback *)

Section SurvivorVocabulary.

Variable embed_query : string -> option vec.
Variable cosine_similarity : vec -> vec -> option float.

(** The similarity the fallback computes for a reference: none for a
    non-dict, a posting without vector, or a failed computation. *)
Definition similarity_of (s : store) (q_vec : vec) (l : loc) : option float :=
  match dict_at s l with
  | Some internship =>
      match default [] (p_embedding internship) with
      | [] => None
      | doc_emb => cosine_similarity q_vec doc_emb
      end
  | None => None
  end.

(** The posting at [l] is kept by the fallback: its similarity exists and
    is above 0.4. *)
Definition survives (s : store) (q_vec : vec) (l : loc) : bool :=
  match similarity_of s q_vec l with
  | Some sim => FloatOrder.lt 0.4 sim
  | None => false
  end.

(** *** The fallback picks the best survivors *)

(** The survivors the fallback returns, best first: the last [top_k]
    ranked pairs, reversed. *)
Definition fallback_picked (valid_internships : list loc) (semantic_scores : list float)
    (top_k : Z) : list scored :=
  item_of_pair valid_internships
    <$> reverse (drop (length semantic_scores - Z.to_nat top_k)
                   (ranked_pairs semantic_scores)).

(** The survivors it leaves out. *)
Definition fallback_left_out (valid_internships : list loc) (semantic_scores : list float)
    (top_k : Z) : list (loc * float) :=
  relabel valid_internships
    <$> take (length semantic_scores - Z.to_nat top_k) (ranked_pairs semantic_scores).

End SurvivorVocabulary.

(** *** What the fallback picks *)

Definition key_of (item : scored) : loc * float := (sc_internship item, sc_score item).

(** *** The paths of [recommend] *)

Section PathVocabulary.

Variable embed_query : string -> option vec.
Variable cosine_similarity : vec -> vec -> option float.

(** The gate of a call, on the normalized skills. *)
Definition admitted (s : store) (internships : list loc) (skills : string)
  : list relevant :=
  skill_gate s (normalize skills) 0 internships.

(** The query of the primary path of a call. *)
Definition query_of (education skills location : string) : string :=
  primary_query (normalize education) (normalize skills) (normalize location).

(** [final_scores] of a call, before the sort. *)
Definition scored_admitted (s : store) (internships : list loc)
    (education skills location : string) (q_vec : vec) : list scored :=
  final_score cosine_similarity (Py.lower (normalize education))
    (Py.lower (normalize location)) q_vec
  <$> admitted s internships skills.

(** [final_scores[:top_k]] of a call, after the sort. *)
Definition primary_items (s : store) (internships : list loc)
    (education skills location : string) (top_k : Z) (q_vec : vec) : list scored :=
  Py.slice_to
    (Z.min (clamp_top_k top_k) (Z.of_nat (length (admitted s internships skills))))
    (sort_by_score (scored_admitted s internships education skills location q_vec)).

End PathVocabulary.

(** ** Frame: the ranking calls leave their inputs alone *)

(** The call behind [o] left every object of the store [s] as it was, and
    each reference it returned is a fresh object: a copy of a dict of
    [internships] with a score and match details set and the embedding
    removed. *)
Definition frame_ok (s : store) (internships : list loc) (o : outcome) : Prop :=
  (forall l x, s !! l = Some x -> out_store o !! l = Some x)
  /\ (forall r, r ∈ out_result o ->
        (length s <= r)%nat
        /\ exists l p score m,
             l ∈ internships /\ dict_at s l = Some p
             /\ dict_at (out_store o) r = Some (decorate score m p)).

(** ** Scores and order of the primary path *)

(** Descending by score: [a] has to come strictly before [b]. *)
Definition higher (a b : scored) : bool := FloatOrder.lt (sc_score b) (sc_score a).

(** Two entries whose scores compare neither way. *)
Definition same_score (a b : scored) : bool := tied higher a b.

Section ScoreVocabulary.

Variable embed_query : string -> option vec.
Variable cosine_similarity : vec -> vec -> option float.

(** The similarity of step 2 in the words of the specification: 0.0 for a
    missing or empty embedding and for a failed computation. *)
Definition similarity_or_zero (q_vec : vec) (internship : posting) : float :=
  match p_embedding internship with
  | None => 0%float
  | Some [] => 0%float
  | Some doc_emb =>
      match cosine_similarity q_vec doc_emb with
      | Some sim => sim
      | None => 0%float
      end
  end.

(** What C5 says of one call of the primary path. *)
Definition primary_spec (s : store) (internships : list loc)
    (education skills location : string) (top_k : Z) (q_vec : vec) : Prop :=
  let adm := admitted s internships skills in
  let user_edu := Py.lower (normalize education) in
  let user_loc := Py.lower (normalize location) in
  let fs := scored_admitted cosine_similarity s internships education skills location q_vec in
  let ranked := sort_by_score fs in
  let o := recommend embed_query cosine_similarity s internships
             education skills location top_k in
  (* the score of each admitted posting *)
  Forall2
    (fun item a =>
       let p := rel_dict a in
       let m := sc_match_details item in
       sc_internship item = rel_ref a
       /\ semantic_similarity m = similarity_or_zero q_vec p
       /\ (exact_skill_matches m, partial_skill_matches m, skill_relevance_score m)
          = calculate_skill_relevance (normalize skills) (get_str (p_skills p))
       /\ (education_match m = true
           <-> let req_edu := Py.lower (get_str (p_required_education p)) in
               req_edu <> EmptyString /\ user_edu <> EmptyString
               /\ (req_edu = user_edu \/ Py.contains req_edu user_edu = true
                   \/ Py.contains user_edu req_edu = true))
       /\ (location_match m = true
           <-> let intern_loc := Py.lower (get_str (p_location p)) in
               user_loc <> EmptyString /\ intern_loc <> EmptyString
               /\ (user_loc = intern_loc
                   \/ Py.contains "remote" intern_loc = true
                   \/ user_loc = "remote"%string
                   \/ (exists word, word ∈ Py.split_ws user_loc
                                    /\ Py.contains word intern_loc = true)
                   \/ (exists word, word ∈ Py.split_ws intern_loc
                                    /\ Py.contains word user_loc = true)))
       /\ sc_score item
          = (let boost := 0 in
             let boost := if education_match m then boost + 0.25 else boost in
             let boost := boost + 0.30 * Py.float_of_nat (exact_skill_matches m) in
             let boost := boost + 0.15 * Py.float_of_nat
                                          (Nat.min (partial_skill_matches m) 3) in
             let boost := if location_match m then boost + 0.08 else boost in
             semantic_similarity m + boost)%float)
    fs adm
  (* the order: a rearrangement, descending and stable when the scores are
     numbers *)
  /\ ranked ≡ₚ fs
  /\ (Forall (fun item => FloatOrder.is_nan (sc_score item) = false) fs ->
      StronglySorted
        (fun a b => FloatOrder.lt (sc_score a) (sc_score b) = false) ranked
      /\ forall x, x ∈ fs ->
           filter (fun y => same_score x y = true) ranked
           = filter (fun y => same_score x y = true) fs)
  (* the answer *)
  /\ Forall2 (copy_of s (out_store o)) (out_result o)
       (Py.slice_to (Z.min (clamp_top_k top_k) (Z.of_nat (length adm))) ranked).

End ScoreVocabulary.

(** ** The fallback ranker *)

Section FallbackVocabulary.

Variable embed_query : string -> option vec.
Variable cosine_similarity : vec -> vec -> option float.


End FallbackVocabulary.

(** ** The vector cache *)

(** The cache has a vector for every posting the fill would embed. *)
Definition complete (internships : list pyobj) (cache : gmap string vec) : Prop :=
  forall p, Dict p ∈ internships ->
    Py.truthy (get_internship_text p) = true ->
    is_Some (cache !! get_internship_id p).

(** ** The skill scorer *)

(** A user token counts as a partial match: longer than two characters,
    not an exact match, and inside, or around, some posting token longer
    than two characters. *)
Definition partially_matches (exact_matches : gset string)
    (intern_skill_tokens : list string) (user_skill : string) : bool :=
  (2 <? Py.len user_skill)%nat
  && negb (bool_decide (user_skill ∈ exact_matches))
  && existsb (fun intern_skill =>
                (2 <? Py.len intern_skill)%nat
                && (Py.contains user_skill intern_skill
                    || Py.contains intern_skill user_skill))
       intern_skill_tokens.

(** ** A concrete catalogue *)

Module Demo.

Definition dot (u v : vec) : float :=
  foldr (fun ab acc => (fst ab * snd ab + acc)%float) 0%float (zip u v).

(** The cosine of the angle of two vectors of one length; an exception for
    vectors of different lengths. *)
Definition cosine (u v : vec) : option float :=
  if (length u =? length v)%nat
  then Some (dot u v / (PrimFloat.sqrt (dot u u) * PrimFloat.sqrt (dot v v)))%float
  else None.

(** A provider that embeds every query on the first axis. *)
Definition embed_query (query : string) : option vec := Some [1; 0]%float.

(** A provider that embeds every document at the same point. *)
Definition embed_documents (docs : list string) : option (list vec) :=
  Some ((fun _ => [0.6; 0.8]%float) <$> docs).

(** Providers that are down. *)
Definition no_query (query : string) : option vec := None.

Definition no_documents (docs : list string) : option (list vec) := None.

Definition posting_of (i : option pyid) (title org education skills location : string)
    (embedding : option vec) : posting :=
  {| p_id := i; p_title := Some title; p_org := Some org;
     p_required_education := Some education; p_skills := Some skills;
     p_location := Some location; p_sector := None; p_description := None;
     p_embedding := embedding; p_score := None; p_match_details := None |}.

(** A posting without an ['id']. *)
Definition analyst : posting :=
  posting_of None "Data Analyst" "Acme" "B.Tech" "python, sql" "Delhi"
    (Some [0.6; 0.8]%float).

Definition developer : posting :=
  posting_of (Some (IdStr "dev-1")) "Developer" "Beta" "B.Sc" "java" "Remote"
    (Some [0.8; 0.6]%float).

Definition designer : posting :=
  posting_of (Some (IdInt 7)) "Designer" "Gamma" "B.Des" "figma, javascript" "Mumbai" None.

Definition catalogue : store := [Dict analyst; Dict developer; NotDict; Dict designer].

Definition everything : list loc := [0; 1; 2; 3]%nat.

End Demo.

(** ** The rest of the program and of the vocabulary *)

(** *** Strings *)

(** Every character of the string is whitespace. *)
Fixpoint all_space (s : string) : bool :=
  match s with
  | EmptyString => true
  | String c s' => Py.is_space c && all_space s'
  end.

(** The string is empty or starts with a character that is no whitespace. *)
Definition starts_clean (s : string) : bool :=
  match s with
  | EmptyString => true
  | String c _ => negb (Py.is_space c)
  end.

(** *** The vector cache *)

(** The dicts of a list, in the order of the list. *)
Definition dicts (internships : list pyobj) : list posting :=
  omap (fun o => match o with Dict p => Some p | NotDict => None end) internships.

(** The dict postings whose id is no key of the cache. *)
Definition uncached (internships : list pyobj) (cache : gmap string vec) : list posting :=
  List.filter (fun p => bool_decide (cache !! get_internship_id p = None))
    (dicts internships).

(** Assignments [cache[k] = v], one after the other. *)
Definition write_pairs (pairs : list (string * vec)) (cache : gmap string vec)
  : gmap string vec :=
  foldl (fun m kv => <[kv.1 := kv.2]> m) cache pairs.

(** The document [save_embeddings] writes: its metadata has a date, a
    count and the model name, and no [source_file_hash]. *)
Definition save_embeddings (embeddings_dict : gmap string vec) : emb_file :=
  {| source_file_hash := None; file_embeddings := embeddings_dict |}.

(** The files after a write of the cache file that went through. *)
Definition write_embeddings (fs : files) (doc : emb_file) : files :=
  {| internships_file := internships_file fs; embeddings_file := Stored (Json doc) |}.

(** The files after the best-effort write of [check_and_update_embeddings],
    when the write went through. *)
Definition after_update (fs : files) (o : update_outcome) : files :=
  match upd_saved o with
  | Some doc => write_embeddings fs doc
  | None => fs
  end.

(** ** The API ([backend/app.py]) *)

(** The module globals [cached_internships] and [cached_embeddings]. *)
Record app_state := {
  cached_internships : option (list pyobj);
  cached_embeddings : option (gmap string vec)
}.

(** The globals when the module is loaded: both [None]. *)
Definition initial_state : app_state :=
  {| cached_internships := None; cached_embeddings := None |}.

(** What a call into the API leaves behind: the provider calls, the
    documents written to the cache file (in order), the globals, and what
    the call returned or raised. *)
Record app_outcome (A : Type) := {
  app_calls : list provider_call;
  app_writes : list emb_file;
  app_globals : app_state;
  app_ret : A
}.
Arguments app_calls {A} _.
Arguments app_writes {A} _.
Arguments app_globals {A} _.
Arguments app_ret {A} _.

(** The files after the writes of a call, when they all went through. *)
Definition files_after (fs : files) (writes : list emb_file) : files :=
  foldl write_embeddings fs writes.

(** What the body of an endpoint raises. *)
Inductive api_exn :=
  | HTTPException (status_code : Z)
  | AttributeError          (* [.get] on an entry that is no dict *)
  | TypeError               (* an operation on [None] *)
  | CacheError (e : exn).   (* raised by the vector cache *)

Inductive api_result (A : Type) :=
  | ApiReturned (a : A)
  | ApiRaised (e : api_exn).
Arguments ApiReturned {A} a.
Arguments ApiRaised {A} e.

(** What the client gets: the body, or the status of the [HTTPException]
    that leaves the endpoint. *)
Inductive http_response (A : Type) :=
  | Ok (body : A)
  | HttpError (status_code : Z).
Arguments Ok {A} body.
Arguments HttpError {A} status_code.

(** [try: ... except Exception as e: raise HTTPException(status_code=500)]:
    the handler catches an [HTTPException] of the body as well. *)
Definition except_exception {A} (r : api_result A) : http_response A :=
  match r with
  | ApiReturned a => Ok a
  | ApiRaised _ => HttpError 500
  end.

(** Truth value of a list or [None]. *)
Definition list_truthy {A} (l : option (list A)) : bool :=
  match l with
  | Some (_ :: _) => true
  | _ => false
  end.

(** Truth value of a dict or [None]. *)
Definition dict_truthy (d : option (gmap string vec)) : bool :=
  match d with
  | Some m => negb (bool_decide (m = ∅))
  | None => false
  end.

(** The entries of the list as dicts; [None] when [.get] fails on one of
    them. *)
Definition all_dicts (internships : list pyobj) : option (list posting) :=
  mapM (fun o => match o with Dict p => Some p | NotDict => None end) internships.

(** The merge loop of [api_recommend] on the cached list. *)
Definition merge_cached (internships : list pyobj) (embeddings : gmap string vec)
  : option (list posting) :=
  (fun postings => merge_embeddings postings embeddings) <$> all_dicts internships.

(** The body of the answer of [api_recommend]. *)
Record recommend_response := {
  recommendations : list posting;
  total_internships : nat;
  internships_with_embeddings : nat;
  returned_recommendations : nat
}.

(** The body of the answer of [api_recompute_embeddings]. *)
Record recompute_response := {
  recomputed_internships : nat;   (* ["total_internships"] *)
  total_embeddings : nat
}.

(** The body of the answer of [api_recommend_with_validation]: the
    recommendations and the echo of the flag. *)
Record validated_response := {
  validated_recommendations : list posting;
  validation_used : option bool
}.

(** The three counts in the answer of [api_embeddings_status]. *)
Record status_response := {
  status_total_internships : nat;
  status_total_embeddings : nat;
  status_internships_with_embeddings : nat
}.

(** The counting loop of [api_embeddings_status]; [None] when [.get]
    fails on an entry that is no dict. *)
Fixpoint count_with_embeddings (internships : list pyobj) (embeddings : gmap string vec)
    (internships_with_embeddings : nat) : option nat :=
  match internships with
  | [] => Some internships_with_embeddings
  | NotDict :: _ => None
  | Dict internship :: rest =>
      count_with_embeddings rest embeddings
        (match lookup_key (api_merge_key internship) embeddings with
         | Some _ => (internships_with_embeddings + 1)%nat
         | None => internships_with_embeddings
         end)
  end.

Section Api.

Variable embed_documents : list string -> option (list vec).
Variable embed_query : string -> option vec.
Variable cosine_similarity : vec -> vec -> option float.

Definition get_current_data (fs : files) (st : app_state)
  : app_outcome (py_result (option (list pyobj) * option (gmap string vec))) :=
  let o := check_and_update_embeddings embed_documents fs
             (cached_internships st) (cached_embeddings st) in
  match upd_ret o with
  | Raised e =>
      {| app_calls := upd_calls o; app_writes := []; app_globals := st;
         app_ret := Raised e |}
  | Returned (internships, embeddings, updated) =>
      let st' :=
        if updated || bool_decide (cached_internships st = None)
        then {| cached_internships := Some internships;
                cached_embeddings := Some embeddings |}
        else st in
      {| app_calls := upd_calls o;
         app_writes := match upd_saved o with Some doc => [doc] | None => [] end;
         app_globals := st';
         app_ret := Returned (cached_internships st', cached_embeddings st') |}
  end.

(** The body of [api_recommend], inside its [try]. *)
Definition api_recommend_body (fs : files) (st : app_state)
    (education skills location : string) (top_k : Z)
  : app_outcome (api_result recommend_response) :=
  let g := get_current_data fs st in
  let leave calls r :=
    {| app_calls := calls; app_writes := app_writes g;
       app_globals := app_globals g; app_ret := r |} in
  match app_ret g with
  | Raised e => leave (app_calls g) (ApiRaised (CacheError e))
  | Returned (internships, embeddings) =>
      if negb (list_truthy internships)
      then leave (app_calls g) (ApiRaised (HTTPException 404))
      else if negb (dict_truthy embeddings)
      then leave (app_calls g) (ApiRaised (HTTPException 500))
      else
        match merge_cached (default [] internships) (default ∅ embeddings) with
        | None => leave (app_calls g) (ApiRaised AttributeError)
        | Some merged =>
            (* the copies are fresh dicts, known to this call only *)
            let s := Dict <$> merged in
            let o := recommend embed_query cosine_similarity s (seq 0 (length s))
                       education skills location top_k in
            leave (app_calls g ++ out_calls o)
              (ApiReturned
                 {| recommendations := omap (dict_at (out_store o)) (out_result o);
                    total_internships := length (default [] internships);
                    internships_with_embeddings := length merged;
                    returned_recommendations := length (out_result o) |})
        end
  end.

Definition api_recommend (fs : files) (st : app_state)
    (education skills location : string) (top_k : Z)
  : app_outcome (http_response recommend_response) :=
  let b := api_recommend_body fs st education skills location top_k in
  {| app_calls := app_calls b; app_writes := app_writes b;
     app_globals := app_globals b; app_ret := except_exception (app_ret b) |}.

(** The body of [api_recompute_embeddings], inside its [try]. *)
Definition api_recompute_embeddings_body (fs : files) (st : app_state)
  : app_outcome (api_result recompute_response) :=
  let g := get_current_data fs st in
  match app_ret g with
  | Raised e =>
      {| app_calls := app_calls g; app_writes := app_writes g;
         app_globals := app_globals g; app_ret := ApiRaised (CacheError e) |}
  | Returned (internships, _) =>
      if negb (list_truthy internships)
      then {| app_calls := app_calls g; app_writes := app_writes g;
              app_globals := app_globals g;
              app_ret := ApiRaised (HTTPException 404) |}
      else
        let internships := default [] internships in
        let filled := precompute_doc_embeddings_new embed_documents internships (Some ∅) in
        match fill_ret filled with
        | Raised e =>
            {| app_calls := app_calls g ++ fill_calls filled;
               app_writes := app_writes g;
               app_globals := app_globals g;
               app_ret := ApiRaised (CacheError e) |}
        | Returned new_embeddings =>
            {| app_calls := app_calls g ++ fill_calls filled;
               app_writes := app_writes g ++ [save_embeddings new_embeddings];
               app_globals :=
                 {| cached_internships := cached_internships (app_globals g);
                    cached_embeddings := Some new_embeddings |};
               app_ret :=
                 ApiReturned {| recomputed_internships := length internships;
                                total_embeddings := size new_embeddings |} |}
        end
  end.

Definition api_recompute_embeddings (fs : files) (st : app_state)
  : app_outcome (http_response recompute_response) :=
  let b := api_recompute_embeddings_body fs st in
  {| app_calls := app_calls b; app_writes := app_writes b;
     app_globals := app_globals b; app_ret := except_exception (app_ret b) |}.

(** The two wrappers of [recommend] kept for backward compatibility. *)
Definition get_recommendations (s : store) (internships : list loc)
    (education skills location : string) (num_recommendations : Z) : outcome :=
  recommend embed_query cosine_similarity s internships
    education skills location num_recommendations.

Definition recommend_with_validation (s : store) (internships : list loc)
    (education skills location : string) (top_k : Z) : outcome :=
  recommend embed_query cosine_similarity s internships education skills location top_k.

(** A ranking call with a [top_k] that may be [None]: on a list that is
    not empty the clamp [max(3, min(7, None))] raises a [TypeError]. *)
Definition rank_with (rank : store -> list loc -> string -> string -> string -> Z -> outcome)
    (s : store) (internships : list loc) (education skills location : string)
    (top_k : option Z) : option outcome :=
  match top_k with
  | Some k => Some (rank s internships education skills location k)
  | None =>
      match internships with
      | [] => Some {| out_store := s; out_calls := []; out_result := [] |}
      | _ => None
      end
  end.

(** The merge loop of [api_recommend_with_validation], which does not
    test its two inputs before. *)
Definition merge_unchecked (internships : option (list pyobj))
    (embeddings : option (gmap string vec)) : api_result (list posting) :=
  match internships with
  | None => ApiRaised TypeError
  | Some internships =>
      match embeddings with
      | Some embeddings =>
          match merge_cached internships embeddings with
          | Some merged => ApiReturned merged
          | None => ApiRaised AttributeError
          end
      | None =>
          match internships with
          | [] => ApiReturned []
          | Dict _ :: _ => ApiRaised TypeError
          | NotDict :: _ => ApiRaised AttributeError
          end
      end
  end.

(** The body of [api_recommend_with_validation], inside its [try]. *)
Definition api_recommend_with_validation_body (fs : files) (st : app_state)
    (education skills location : string) (top_k : option Z) (use_validation : option bool)
  : app_outcome (api_result validated_response) :=
  let g := get_current_data fs st in
  let leave calls r :=
    {| app_calls := calls; app_writes := app_writes g;
       app_globals := app_globals g; app_ret := r |} in
  match app_ret g with
  | Raised e => leave (app_calls g) (ApiRaised (CacheError e))
  | Returned (internships, embeddings) =>
      match merge_unchecked internships embeddings with
      | ApiRaised e => leave (app_calls g) (ApiRaised e)
      | ApiReturned merged =>
          let s := Dict <$> merged in
          let ranked :=
            if default false use_validation
            then rank_with recommend_with_validation s (seq 0 (length s))
                   education skills location top_k
            else rank_with (recommend embed_query cosine_similarity) s (seq 0 (length s))
                   education skills location top_k in
          match ranked with
          | None => leave (app_calls g) (ApiRaised TypeError)
          | Some o =>
              leave (app_calls g ++ out_calls o)
                (ApiReturned
                   {| validated_recommendations :=
                        omap (dict_at (out_store o)) (out_result o);
                      validation_used := use_validation |})
          end
      end
  end.

Definition api_recommend_with_validation (fs : files) (st : app_state)
    (education skills location : string) (top_k : option Z) (use_validation : option bool)
  : app_outcome (http_response validated_response) :=
  let b := api_recommend_with_validation_body fs st education skills location
             top_k use_validation in
  {| app_calls := app_calls b; app_writes := app_writes b;
     app_globals := app_globals b; app_ret := except_exception (app_ret b) |}.

(** The body of [api_embeddings_status], inside its [try]. *)
Definition api_embeddings_status_body (fs : files) (st : app_state)
  : app_outcome (api_result status_response) :=
  let g := get_current_data fs st in
  let leave r :=
    {| app_calls := app_calls g; app_writes := app_writes g;
       app_globals := app_globals g; app_ret := r |} in
  match app_ret g with
  | Raised e => leave (ApiRaised (CacheError e))
  | Returned (internships, embeddings) =>
      let total_internships :=
        if list_truthy internships then length (default [] internships) else 0%nat in
      let total_embeddings :=
        if dict_truthy embeddings then size (default ∅ embeddings) else 0%nat in
      let counted :=
        if list_truthy internships && dict_truthy embeddings
        then count_with_embeddings (default [] internships) (default ∅ embeddings) 0
        else Some 0%nat in
      match counted with
      | None => leave (ApiRaised AttributeError)
      | Some internships_with_embeddings =>
          leave (ApiReturned
                   {| status_total_internships := total_internships;
                      status_total_embeddings := total_embeddings;
                      status_internships_with_embeddings := internships_with_embeddings |})
      end
  end.

Definition api_embeddings_status (fs : files) (st : app_state)
  : app_outcome (http_response status_response) :=
  let b := api_embeddings_status_body fs st in
  {| app_calls := app_calls b; app_writes := app_writes b;
     app_globals := app_globals b; app_ret := except_exception (app_ret b) |}.

(** The globals the server can be in: every endpoint starts with
    [get_current_data], and only [api_recompute_embeddings] assigns to a
    global after it.  The files may change between two requests. *)
Inductive reachable : app_state -> Prop :=
  | reachable_start : reachable initial_state
  | reachable_get fs st :
      reachable st -> reachable (app_globals (get_current_data fs st))
  | reachable_recompute fs st :
      reachable st -> reachable (app_globals (api_recompute_embeddings fs st)).

End Api.

(** The globals are both set and the vectors cover the postings. *)
Definition loaded (st : app_state) : Prop :=
  exists internships embeddings,
    cached_internships st = Some internships
    /\ cached_embeddings st = Some embeddings
    /\ complete internships embeddings.

(** ** The maintenance script ([backend/compute_embeddings.py]) *)

(** [isinstance(emb, list) and len(emb) > 0 and all(isinstance(x, (int,
    float)) for x in emb)] on a vector of the cache, a list of numbers. *)
Definition valid_embedding (emb : vec) : bool :=
  match emb with
  | [] => false
  | _ => true
  end.

(** The loop of [validate_embeddings] with its three counters; [None] when
    [get_internship_id] fails on an entry that is no dict. *)
Fixpoint validate_loop (internships : list pyobj) (embeddings : gmap string vec)
    (valid_embeddings invalid_embeddings missing_embeddings : nat)
  : option (nat * nat * nat) :=
  match internships with
  | [] => Some (valid_embeddings, invalid_embeddings, missing_embeddings)
  | NotDict :: _ => None
  | Dict internship :: rest =>
      let internship_id := get_internship_id internship in
      match embeddings !! internship_id with
      | None =>
          validate_loop rest embeddings
            valid_embeddings invalid_embeddings (missing_embeddings + 1)
      | Some emb =>
          if valid_embedding emb
          then validate_loop rest embeddings
                 (valid_embeddings + 1) invalid_embeddings missing_embeddings
          else validate_loop rest embeddings
                 valid_embeddings (invalid_embeddings + 1) missing_embeddings
      end
  end.

(** [validate_embeddings()]: [None] when it raises, in one of the two
    loads or in the loop. *)
Definition validate_embeddings (fs : files) : option bool :=
  match load_internships fs, load_embeddings fs with
  | Returned internships, Returned embeddings =>
      match internships with
      | [] => Some false
      | _ =>
          if bool_decide (embeddings = ∅) then Some false
          else
            match validate_loop internships embeddings 0 0 0 with
            | None => None
            | Some (valid_embeddings, invalid_embeddings, missing_embeddings) =>
                if (0 <? invalid_embeddings)%nat then Some false
                else if (0 <? missing_embeddings)%nat then Some false
                else Some true
            end
      end
  | _, _ => None
  end.

(** The loop that fills [valid_ids]; [None] when [get_internship_id] fails
    on an entry that is no dict. *)
Fixpoint collect_ids (internships : list pyobj) (valid_ids : gset string)
  : option (gset string) :=
  match internships with
  | [] => Some valid_ids
  | NotDict :: _ => None
  | Dict internship :: rest =>
      collect_ids rest (valid_ids ∪ {[ get_internship_id internship ]})
  end.

(** [for orphaned_id in orphaned_ids: del embeddings[orphaned_id]] *)
Definition delete_all (orphaned_ids : list string) (embeddings : gmap string vec)
  : gmap string vec :=
  foldl (fun m k => delete k m) embeddings orphaned_ids.

(** [clean_orphaned_embeddings()]: [None] when it raises, in one of the
    two loads or in the loop; else the document it writes to the cache
    file, if it writes one.  (The backup goes to a file of its own.) *)
Definition clean_orphaned_embeddings (fs : files) : option (option emb_file) :=
  match load_internships fs, load_embeddings fs with
  | Returned internships, Returned embeddings =>
      match internships with
      | [] => Some None
      | _ =>
          if bool_decide (embeddings = ∅) then Some None
          else
            match collect_ids internships ∅ with
            | None => None
            | Some valid_ids =>
                let orphaned_ids := dom embeddings ∖ valid_ids in
                if bool_decide (orphaned_ids = ∅) then Some None
                else Some (Some (save_embeddings
                                   (delete_all (elements orphaned_ids) embeddings)))
            end
      end
  | _, _ => None
  end.

(** ** The legacy fill ([precompute_doc_embeddings]) *)

(** The objects a list of references points to. *)
Definition objects_at (s : store) (internships : list loc) : list pyobj :=
  (fun l => default NotDict (s !! l)) <$> internships.

(** The second loop of the legacy fill: [internship["embedding"] =
    embeddings_dict[internship_id]] on every dict whose id is a key. *)
Fixpoint attach_embeddings (s : store) (internships : list loc)
    (embeddings_dict : gmap string vec) : store :=
  match internships with
  | [] => s
  | l :: rest =>
      match dict_at s l with
      | Some internship =>
          match embeddings_dict !! get_internship_id internship with
          | Some v =>
              attach_embeddings (update_dict s l (with_embedding v)) rest embeddings_dict
          | None => attach_embeddings s rest embeddings_dict
          end
      | None => attach_embeddings s rest embeddings_dict
      end
  end.

(** What the legacy fill leaves behind: the store, the provider calls, and
    the returned list. *)
Record legacy_outcome := {
  leg_store : store;
  leg_calls : list provider_call;
  leg_ret : py_result (list loc)
}.

(** An object after the second loop went over it. *)
Definition attached (embeddings_dict : gmap string vec) (o : pyobj) : pyobj :=
  match o with
  | Dict p =>
      match embeddings_dict !! get_internship_id p with
      | Some v => Dict (with_embedding v p)
      | None => Dict p
      end
  | NotDict => NotDict
  end.

Section Legacy.

Variable embed_documents : list string -> option (list vec).

Definition precompute_doc_embeddings (s : store) (internships : list loc)
  : legacy_outcome :=
  match internships with
  | [] => {| leg_store := s; leg_calls := []; leg_ret := Returned [] |}
  | _ =>
      let filled :=
        precompute_doc_embeddings_new embed_documents (objects_at s internships) (Some ∅) in
      match fill_ret filled with
      | Raised e =>
          {| leg_store := s; leg_calls := fill_calls filled; leg_ret := Raised e |}
      | Returned embeddings_dict =>
          {| leg_store := attach_embeddings s internships embeddings_dict;
             leg_calls := fill_calls filled;
             leg_ret := Returned internships |}
      end
  end.

End Legacy.

(** ** More of the concrete catalogue *)

Module DemoFiles.

(** A catalogue file with the one posting [Demo.developer]. *)
Definition catalogue_file : catalog_file :=
  {| content_hash := "h2"; content_json := Json [Dict Demo.developer] |}.

(** The vectors the demo provider gives for it. *)
Definition vectors : gmap string vec := {[ "dev-1"%string := [0.6; 0.8]%float ]}.

(** A cache file written for an older catalogue, with no vector. *)
Definition stale : files :=
  {| internships_file := Stored catalogue_file;
     embeddings_file := Stored (Json {| source_file_hash := Some "h1"%string;
                                        file_embeddings := ∅ |}) |}.

(** A cache file that holds a vector nobody asks for any more. *)
Definition with_orphan : files :=
  {| internships_file := Stored catalogue_file;
     embeddings_file :=
       Stored (Json {| source_file_hash := Some "h2"%string;
                       file_embeddings := <[ "gone"%string := [1; 0]%float ]> vectors |}) |}.

(** No files at all. *)
Definition nothing : files := {| internships_file := Absent; embeddings_file := Absent |}.


(** A catalogue whose bytes are no UTF-8 text. *)
Definition garbled : files :=
  {| internships_file := Stored {| content_hash := "h3"; content_json := NotText |};
     embeddings_file := Absent |}.



End DemoFiles.

Module DemoRanking.

(** Five postings that the gate admits for the skills "Python, SQL".  The
    two analysts differ in their names only; the tester, first in the
    list, scores below them. *)
Definition tester : posting :=
  Demo.posting_of (Some (IdStr "t-1")) "Tester" "Delta" "B.Sc" "sql, selenium" "Pune"
    (Some [0.6; 0.8]%float).

Definition analyst_a : posting :=
  Demo.posting_of (Some (IdStr "a-1")) "Data Analyst" "Acme" "B.Tech" "python, sql" "Delhi"
    (Some [0.6; 0.8]%float).

Definition analyst_b : posting :=
  Demo.posting_of (Some (IdStr "a-2")) "Data Analyst" "Apex" "B.Tech" "python, sql" "Delhi"
    (Some [0.6; 0.8]%float).

Definition engineer : posting :=
  Demo.posting_of (Some (IdStr "e-1")) "Engineer" "Beta" "M.Tech" "python" "Remote"
    (Some [0.8; 0.6]%float).

Definition trainee : posting :=
  Demo.posting_of (Some (IdStr "i-1")) "Trainee" "Gamma" "B.Tech" "sql" "Mumbai" None.

Definition catalogue : store :=
  [Dict tester; Dict analyst_a; Dict analyst_b; Dict engineer; Dict trainee].

Definition everything : list loc := [0; 1; 2; 3; 4]%nat.

(** A provider that answers with the same vectors whatever it is asked. *)
Definition answer (vectors : list vec) (docs : list string) : option (list vec) :=
  Some vectors.

(** A second posting under the id of [Demo.developer]. *)
Definition developer_again : posting :=
  Demo.posting_of (Some (IdStr "dev-1")) "Developer II" "Beta" "B.Sc" "java" "Remote" None.

End DemoRanking.

(** * Part II: properties *)

(** ** Order facts on binary64 *)

Module FloatOrderFacts.

Import FloatOrder.

Lemma lex3_Lt a b : lex3 a b = Lt <-> lex3_lt a b.
Proof.
  destruct a as [[a1 a2] a3], b as [[b1 b2] b3]; simpl.
  destruct (Z.compare_spec a1 b1), (Z.compare_spec a2 b2);
    rewrite ?Z.compare_lt_iff; split; intros; try discriminate; try lia; auto.
Qed.

Lemma SFcompare_rank x y :
  SFcompare x y =
    match rank x, rank y with
    | Some a, Some b => Some (lex3 a b)
    | _, _ => None
    end.
Proof.
  destruct x as [[]|[]| |[] m1 e1], y as [[]|[]| |[] m2 e2]; try reflexivity; simpl.
  rewrite Z.compare_opp, (Z.compare_antisym e1 e2).
  destruct (e1 ?= e2); reflexivity.
Qed.

Lemma lt_rank x y :
  lt x y = true <->
  exists a b, rank (Prim2SF x) = Some a /\ rank (Prim2SF y) = Some b /\ lex3_lt a b.
Proof.
  unfold lt. rewrite FloatAxioms.ltb_spec. unfold SFltb. rewrite SFcompare_rank.
  destruct (rank (Prim2SF x)) as [a|], (rank (Prim2SF y)) as [b|].
  - split.
    + intros H. exists a, b. repeat split. apply lex3_Lt.
      destruct (lex3 a b); try discriminate. reflexivity.
    + intros (a' & b' & [= <-] & [= <-] & H). apply lex3_Lt in H. rewrite H. reflexivity.
  - split; [discriminate | intros (a' & b' & _ & [=] & _)].
  - split; [discriminate | intros (a' & b' & [=] & _)].
  - split; [discriminate | intros (a' & b' & [=] & _)].
Qed.

Lemma is_nan_rank x : is_nan x = false <-> exists a, rank (Prim2SF x) = Some a.
Proof.
  unfold is_nan, PrimFloat.is_nan. rewrite FloatAxioms.eqb_spec. unfold SFeqb.
  rewrite SFcompare_rank. destruct (rank (Prim2SF x)) as [a|].
  - split; [eauto | intros _].
    assert (lex3 a a = Eq) as ->; [| reflexivity].
    destruct a as [[a1 a2] a3]. simpl. rewrite !Z.compare_refl. reflexivity.
  - split; [discriminate | intros [a [=]]].
Qed.

Lemma lt_irrefl x : lt x x = false.
Proof.
  destruct (lt x x) eqn:E; [| reflexivity].
  apply lt_rank in E as (a & b & Ha & Hb & Hlt). rewrite Ha in Hb.
  injection Hb as <-. destruct a as [[a1 a2] a3]. simpl in Hlt. lia.
Qed.

Lemma lt_asym x y : lt x y = true -> lt y x = false.
Proof.
  intros H. destruct (lt y x) eqn:E; [| reflexivity].
  apply lt_rank in H as (a & b & Ha & Hb & Hlt).
  apply lt_rank in E as (b' & a' & Hb' & Ha' & Hlt').
  rewrite Ha in Ha'. rewrite Hb in Hb'. injection Ha' as <-. injection Hb' as <-.
  destruct a as [[a1 a2] a3], b as [[b1 b2] b3]. simpl in *. lia.
Qed.

Lemma lt_trans x y z : lt x y = true -> lt y z = true -> lt x z = true.
Proof.
  intros H1 H2.
  apply lt_rank in H1 as (a & b & Ha & Hb & Hab).
  apply lt_rank in H2 as (b' & c & Hb' & Hc & Hbc).
  rewrite Hb in Hb'. injection Hb' as <-.
  apply lt_rank. exists a, c. repeat split; try assumption.
  destruct a as [[a1 a2] a3], b as [[b1 b2] b3], c as [[c1 c2] c3]. simpl in *. lia.
Qed.

(** A number that is not a NaN falls on one side of every strict inequality. *)
Lemma lt_cotrans x y z :
  is_nan z = false -> lt x y = true -> lt x z = true \/ lt z y = true.
Proof.
  intros Hz H. apply is_nan_rank in Hz as [c Hc].
  apply lt_rank in H as (a & b & Ha & Hb & Hab).
  assert (lex3_lt a c \/ lex3_lt c b) as [Hac | Hcb].
  { destruct a as [[a1 a2] a3], b as [[b1 b2] b3], c as [[c1 c2] c3]. simpl in *. lia. }
  - left. apply lt_rank. eauto 6.
  - right. apply lt_rank. eauto 6.
Qed.

Lemma lt_not_nan_l x y : lt x y = true -> is_nan x = false.
Proof. intros H. apply lt_rank in H as (a & b & Ha & _). apply is_nan_rank. eauto. Qed.


End FloatOrderFacts.

(** ** Stable sorting

    [list.sort] of Python is stable, also with [reverse=True]; it only asks
    whether one key is [<] another.  The model is the stable insertion sort
    over a strict comparison [before x y] ("[x] has to come strictly before
    [y]"): on keys that form a strict weak order every stable sort returns
    the same list. *)

Section StableSort.

Context {A : Type}.
Variable before : A -> A -> bool.

(** [ok] singles out the elements on which [before] is a strict weak
    order (for floats: the keys that are numbers). *)
Variable ok : A -> Prop.
Hypothesis before_asym : forall x y, before x y = true -> before y x = false.
Hypothesis before_cotrans :
  forall x y z, ok z -> before x y = true -> before x z = true \/ before z y = true.

Lemma insert_stable_perm a l : insert_stable before a l ≡ₚ a :: l.
Proof.
  induction l as [|y l IH]; simpl; [reflexivity|].
  destruct (before y a); [|reflexivity].
  rewrite IH. apply perm_swap.
Qed.

Lemma sort_stable_perm l : sort_stable before l ≡ₚ l.
Proof.
  induction l as [|a l IH]; simpl; [reflexivity|].
  rewrite insert_stable_perm. by rewrite IH.
Qed.

Lemma sort_stable_length l : length (sort_stable before l) = length l.
Proof. by rewrite sort_stable_perm. Qed.

Lemma insert_stable_in_order a l :
  Forall ok l -> in_order before l -> in_order before (insert_stable before a l).
Proof.
  intros Hok Hs. induction Hs as [|y l Hs IH Hy]; simpl.
  - repeat constructor.
  - apply Forall_cons in Hok as [Hoky Hok].
    destruct (before y a) eqn:E.
    + constructor; [by apply IH|].
      rewrite insert_stable_perm. constructor; [by apply before_asym | done].
    + constructor; [by constructor|].
      constructor; [done|].
      eapply Forall_impl; [exact Hy|]. intros z Hz. simpl in Hz.
      destruct (before z a) eqn:E'; [|done].
      destruct (before_cotrans z a y Hoky E'); congruence.
Qed.

Lemma sort_stable_in_order l : Forall ok l -> in_order before (sort_stable before l).
Proof.
  induction l as [|a l IH]; simpl; intros Hok; [constructor|].
  apply Forall_cons in Hok as [Ha Hok].
  apply insert_stable_in_order; [|by apply IH].
  by rewrite sort_stable_perm.
Qed.

(** Stability: the elements tied with [x] keep the order they came in. *)
Lemma insert_stable_filter_tied x a l :
  ok x -> filter (fun y => tied before x y = true) (insert_stable before a l)
          = filter (fun y => tied before x y = true) (a :: l).
Proof.
  intros Hx. induction l as [|y l IH]; simpl; [done|].
  destruct (before y a) eqn:E; [|done].
  rewrite filter_cons, IH, !filter_cons.
  destruct (decide (tied before x a = true)) as [Ha|Ha];
    destruct (decide (tied before x y = true)) as [Hy|Hy]; try done.
  exfalso. unfold tied in Ha, Hy.
  apply andb_true_iff in Ha as [Ha1 Ha2], Hy as [Hy1 Hy2].
  apply negb_true_iff in Ha1, Ha2, Hy1, Hy2.
  destruct (before_cotrans y a x Hx E); congruence.
Qed.

Lemma sort_stable_filter_tied x l :
  ok x -> filter (fun y => tied before x y = true) (sort_stable before l)
          = filter (fun y => tied before x y = true) l.
Proof.
  intros Hx. induction l as [|a l IH]; simpl; [done|].
  rewrite insert_stable_filter_tied by done.
  by rewrite !filter_cons, IH.
Qed.

End StableSort.

(** ** Python string operations

    The methods of [str] the program calls, on ASCII text. *)

Module PyFacts.

Import Py.

Local Open Scope nat_scope.

Example strip_ex : strip "  Data Science 	" = "Data Science"%string.
Proof. reflexivity. Qed.

Example split_ex : split "," "a,,b," = ["a"; ""; "b"; ""]%string.
Proof. reflexivity. Qed.

Example split_empty : split "," "" = [""%string].
Proof. reflexivity. Qed.

Example split_ws_ex : split_ws "  New   Delhi " = ["New"; "Delhi"]%string.
Proof. reflexivity. Qed.

Example contains_ex :
  contains "sql" "mysql" = true /\ contains "" "x" = true /\ contains "ab" "ba" = false.
Proof. repeat split. Qed.

Example lower_ex : lower "PyThon 3_[Z]" = "python 3_[z]"%string.
Proof. reflexivity. Qed.

Example slice_from_ex :
  slice_from (-2) [1; 2; 3] = [2; 3] /\ slice_from 0 [1; 2; 3] = [1; 2; 3]
  /\ slice_from (-5) [1; 2; 3] = [1; 2; 3] /\ slice_from 2 [1; 2; 3] = [3].
Proof. repeat split. Qed.

Lemma lower_length s : String.length (lower s) = String.length s.
Proof. induction s; simpl; congruence. Qed.

Lemma replace_char_length a b s : String.length (replace_char a b s) = String.length s.
Proof. induction s; simpl; congruence. Qed.

Lemma append_length (s t : string) :
  String.length (String.append s t) = String.length s + String.length t.
Proof. induction s as [|c s IH]; simpl; [done | by rewrite IH]. Qed.

End PyFacts.

(** ** SkillRelevanceScorer *)

Example relevance_python_sql :
  calculate_skill_relevance "python, sql" "python, excel" = (1%nat, 0%nat, 0.5%float).
Proof. vm_compute. reflexivity. Qed.

Example relevance_partial :
  calculate_skill_relevance "sql, Java " "MySQL,javascript, sql"
  = (1%nat, 1%nat, 0.8%float).
Proof. vm_compute. reflexivity. Qed.

Example relevance_empty : calculate_skill_relevance " , " "python" = (0%nat, 0%nat, 0%float).
Proof. vm_compute. reflexivity. Qed.

(** ** The store under the ranking calls *)

Lemma dict_at_app_l (s fresh : store) l p :
  dict_at s l = Some p -> dict_at (s ++ fresh) l = Some p.
Proof.
  unfold dict_at. destruct (s !! l) as [o|] eqn:E; [|done].
  intros H. by rewrite (lookup_app_l_Some _ _ _ _ E).
Qed.

Lemma dict_at_fresh (s : store) p : dict_at (s ++ [Dict p]) (length s) = Some p.
Proof. unfold dict_at. by rewrite list_lookup_middle. Qed.

Lemma update_dict_fresh (s : store) p f :
  update_dict (s ++ [Dict p]) (length s) f = s ++ [Dict (f p)].
Proof.
  unfold update_dict. rewrite alter_app_r_alt by lia.
  by replace (length s - length s)%nat with 0%nat by lia.
Qed.

Lemma emit_result_some s l score m p :
  dict_at s l = Some p ->
  emit_result s l score m = (s ++ [Dict (decorate score m p)], [length s]).
Proof.
  intros H. unfold emit_result, alloc. rewrite H.
  by rewrite !update_dict_fresh.
Qed.

Lemma emit_result_none s l score m :
  dict_at s l = None -> emit_result s l score m = (s, []).
Proof. intros H. unfold emit_result. by rewrite H. Qed.

Lemma decorate_is_result score m p : is_result (Dict (decorate score m p)).
Proof. exists (decorate score m p). simpl. eauto. Qed.

(** A round of the result loop only appends to the store. *)
Lemma emit_result_frame s l score m :
  exists fresh,
    emit_result s l score m = (s ++ fresh, seq (length s) (length fresh))
    /\ Forall is_result fresh.
Proof.
  destruct (dict_at s l) as [p|] eqn:E.
  - exists [Dict (decorate score m p)]. rewrite (emit_result_some _ _ _ _ _ E).
    split; [done|]. repeat constructor. apply decorate_is_result.
  - exists []. rewrite (emit_result_none _ _ _ _ E), app_nil_r. by split.
Qed.

Lemma seq_app_length (a n k : nat) : seq a n ++ seq (a + n) k = seq a (n + k).
Proof. by rewrite seq_app. Qed.

Lemma build_results_frame s items :
  exists fresh,
    build_results s items = (s ++ fresh, seq (length s) (length fresh))
    /\ Forall is_result fresh.
Proof.
  revert s. induction items as [|item rest IH]; intros s; simpl.
  - exists []. by rewrite app_nil_r.
  - destruct (emit_result_frame s (sc_internship item) (sc_score item)
                (sc_match_details item)) as (f1 & -> & H1).
    destruct (IH (s ++ f1)) as (f2 & -> & H2).
    exists (f1 ++ f2). rewrite length_app, <- app_assoc, (length_app f1 f2).
    rewrite <- seq_app_length. split; [done|]. by apply Forall_app.
Qed.

Lemma fallback_results_frame s valid_internships semantic_scores idx_sorted :
  exists fresh,
    fallback_results s valid_internships semantic_scores idx_sorted
      = (s ++ fresh, seq (length s) (length fresh))
    /\ Forall is_result fresh.
Proof.
  revert s. induction idx_sorted as [|idx rest IH]; intros s; simpl.
  - exists []. by rewrite app_nil_r.
  - destruct (valid_internships !! idx) as [l|]; [|apply IH].
    destruct (semantic_scores !! idx) as [sim|]; [|apply IH].
    destruct (emit_result_frame s l sim (fallback_details sim)) as (f1 & -> & H1).
    destruct (IH (s ++ f1)) as (f2 & -> & H2).
    exists (f1 ++ f2). rewrite length_app, <- app_assoc, (length_app f1 f2).
    rewrite <- seq_app_length. split; [done|]. by apply Forall_app.
Qed.

Lemma build_results_closed_app s done_ items :
  Forall (fun item => is_Some (dict_at s (sc_internship item))) items ->
  build_results (s ++ done_) items
  = (s ++ done_ ++ omap (result_of s) items,
     seq (length (s ++ done_)) (length items)).
Proof.
  intros H. revert done_.
  induction H as [|item rest [p Hp] Hrest IH]; intros done_; simpl.
  - by rewrite app_nil_r.
  - rewrite (emit_result_some _ _ _ _ p) by by apply dict_at_app_l.
    rewrite <- app_assoc, IH. unfold result_of at 2. rewrite Hp. simpl.
    rewrite <- !app_assoc. simpl. f_equal. f_equal.
    rewrite !length_app. simpl. f_equal. lia.
Qed.

Lemma build_results_closed s items :
  Forall (fun item => is_Some (dict_at s (sc_internship item))) items ->
  build_results s items
  = (s ++ omap (result_of s) items, seq (length s) (length items)).
Proof.
  intros H. pose proof (build_results_closed_app s [] items H) as E.
  by rewrite app_nil_r in E.
Qed.

Lemma omap_Forall2 {A B} (f : A -> option B) (l : list A) :
  Forall (fun x => is_Some (f x)) l ->
  Forall2 (fun y x => f x = Some y) (omap f l) l.
Proof.
  induction 1 as [|x l [y Hy] _ IH]; simpl; [constructor|].
  rewrite Hy. by constructor.
Qed.

Lemma Forall2_seq_app {A B} (P : A -> B -> Prop) (s fresh : list A) (l : list B) :
  Forall2 P fresh l ->
  Forall2 (fun r x => exists o, (s ++ fresh) !! r = Some o /\ P o x)
    (seq (length s) (length l)) l.
Proof.
  intros H. revert s. induction H as [|o x fresh l Hox _ IH]; intros s; simpl.
  - constructor.
  - constructor.
    + exists o. by rewrite list_lookup_middle.
    + specialize (IH (s ++ [o])). rewrite <- app_assoc in IH. simpl in IH.
      rewrite length_app in IH. simpl in IH.
      by replace (length s + 1)%nat with (S (length s)) in IH by lia.
Qed.

Lemma build_results_copies s items :
  Forall (fun item => is_Some (dict_at s (sc_internship item))) items ->
  Forall2 (copy_of s (build_results s items).1) (build_results s items).2 items.
Proof.
  intros H. rewrite (build_results_closed _ _ H). simpl.
  assert (H' : Forall (fun item => is_Some (result_of s item)) items).
  { eapply Forall_impl; [exact H|]. intros item [p Hp]. unfold result_of.
    rewrite Hp. by eexists. }
  pose proof (Forall2_seq_app _ s _ _ (omap_Forall2 _ _ H')) as F.
  eapply Forall2_impl; [exact F|]. simpl.
  intros r item (o & Hr & Ho). unfold result_of in Ho.
  destruct (dict_at s (sc_internship item)) as [p|] eqn:E; [|done].
  exists p. split; [done|]. unfold dict_at. rewrite Hr.
  by injection Ho as <-.
Qed.

(** *** The gate *)

Lemma skill_gate_refs s skills i internships :
  (rel_ref <$> skill_gate s skills i internships)
  = List.filter (admits s skills) internships.
Proof.
  revert i. induction internships as [|l rest IH]; intros i; simpl; [done|].
  unfold admits at 1. destruct (dict_at s l) as [p|]; [|apply IH].
  destruct (calculate_skill_relevance skills (get_str (p_skills p))) as [[e pm] r].
  destruct (gate_admits e pm r); simpl; by rewrite IH.
Qed.

Lemma skill_gate_well_admitted s skills i internships :
  Forall (well_admitted s skills) (skill_gate s skills i internships).
Proof.
  revert i. induction internships as [|l rest IH]; intros i; simpl; [constructor|].
  destruct (dict_at s l) as [p|] eqn:E; [|apply IH].
  destruct (calculate_skill_relevance skills (get_str (p_skills p)))
    as [[e pm] r] eqn:Er.
  destruct (gate_admits e pm r) eqn:Eg; [|apply IH].
  constructor; [|apply IH]. unfold well_admitted, admits. simpl.
  by rewrite E, Er.
Qed.

Lemma gate_admits_iff e pm r :
  gate_admits e pm r = true
  <-> (0 < e)%nat \/ (2 <= pm)%nat \/ FloatOrder.lt 0.2 r = true.
Proof.
  unfold gate_admits. rewrite !orb_true_iff, Nat.ltb_lt, Nat.leb_le. tauto.
Qed.

(** *** The index sort of the fallback *)

Lemma argsort_ranked_pairs xs : argsort xs = fst <$> ranked_pairs xs.
Proof. reflexivity. Qed.

Lemma ranked_pairs_perm xs : ranked_pairs xs ≡ₚ zip (seq 0 (length xs)) xs.
Proof. apply sort_stable_perm. Qed.

Lemma ranked_pairs_length xs : length (ranked_pairs xs) = length xs.
Proof.
  rewrite ranked_pairs_perm, length_zip_with, length_seq. lia.
Qed.

Lemma zip_seq_lookup (xs : list float) a i x :
  (i, x) ∈ zip (seq a (length xs)) xs -> (a <= i)%nat /\ xs !! (i - a)%nat = Some x.
Proof.
  revert a. induction xs as [|y xs IH]; intros a; simpl.
  - by intros ?%elem_of_nil.
  - intros [[= -> ->]|H]%elem_of_cons.
    + split; [lia|]. by replace (a - a)%nat with 0%nat by lia.
    + apply IH in H as [Hle H]. split; [lia|].
      by replace (i - a)%nat with (S (i - S a)) by lia.
Qed.

Lemma ranked_pairs_lookup xs i x : (i, x) ∈ ranked_pairs xs -> xs !! i = Some x.
Proof.
  rewrite ranked_pairs_perm. intros [_ H]%zip_seq_lookup.
  by rewrite Nat.sub_0_r in H.
Qed.


(** *** The fallback as a result loop over picked survivors *)

Lemma fallback_results_build s valid_internships semantic_scores idx_sorted :
  fallback_results s valid_internships semantic_scores idx_sorted
  = build_results s (omap (fallback_item valid_internships semantic_scores) idx_sorted).
Proof.
  revert s. induction idx_sorted as [|idx rest IH]; intros s; simpl; [done|].
  unfold fallback_item at 1.
  destruct (valid_internships !! idx) as [l|]; [|apply IH].
  destruct (semantic_scores !! idx) as [sim|]; [|apply IH].
  simpl. destruct (emit_result s l sim (fallback_details sim)) as [s1 r].
  by rewrite IH.
Qed.

Lemma fallback_items_pairs valid_internships semantic_scores (T : list (nat * float)) :
  length valid_internships = length semantic_scores ->
  Forall (fun ix => semantic_scores !! fst ix = Some (snd ix)) T ->
  omap (fallback_item valid_internships semantic_scores) (fst <$> T)
  = item_of_pair valid_internships <$> T.
Proof.
  intros Hlen. induction 1 as [|[i x] T Hix _ IH]; simpl; [done|].
  simpl in Hix. unfold fallback_item at 1. rewrite Hix.
  destruct (valid_internships !! i) as [l|] eqn:El.
  - f_equal; [|exact IH]. unfold item_of_pair. simpl. by rewrite El.
  - apply lookup_ge_None in El. apply lookup_lt_Some in Hix. lia.
Qed.

Lemma relabel_zip_app (pre valid_internships : list loc) (semantic_scores : list float) :
  length valid_internships = length semantic_scores ->
  relabel (pre ++ valid_internships)
    <$> zip (seq (length pre) (length semantic_scores)) semantic_scores
  = zip valid_internships semantic_scores.
Proof.
  revert pre semantic_scores.
  induction valid_internships as [|l valid IH]; intros pre [|x scores] Hlen;
    simpl in *; try done.
  f_equal.
  - unfold relabel. simpl. by rewrite list_lookup_middle.
  - specialize (IH (pre ++ [l]) scores). rewrite <- app_assoc in IH. simpl in IH.
    rewrite length_app in IH. simpl in IH.
    replace (length pre + 1)%nat with (S (length pre)) in IH by lia.
    apply IH. lia.
Qed.

Lemma relabel_zip (valid_internships : list loc) (semantic_scores : list float) :
  length valid_internships = length semantic_scores ->
  relabel valid_internships
    <$> zip (seq 0 (length semantic_scores)) semantic_scores
  = zip valid_internships semantic_scores.
Proof. apply (relabel_zip_app []). Qed.

(** *** Slices *)

Lemma slice_to_elem_of {A} (k : Z) (l : list A) x : x ∈ Py.slice_to k l -> x ∈ l.
Proof.
  unfold Py.slice_to. destruct (0 <=? k); intros H;
    exact (subseteq_take _ _ _ H).
Qed.

Lemma slice_to_length {A} (k : Z) (l : list A) :
  0 <= k -> Z.of_nat (length (Py.slice_to k l)) = Z.min k (Z.of_nat (length l)).
Proof.
  intros H. unfold Py.slice_to.
  destruct (Z.leb_spec 0 k); [|lia]. rewrite length_take. lia.
Qed.

Lemma slice_from_last {A} (k : Z) (l : list A) :
  1 <= k -> Py.slice_from (- k) l = drop (length l - Z.to_nat k) l.
Proof.
  intros H. unfold Py.slice_from.
  destruct (Z.leb_spec 0 (- k)); [lia|]. by rewrite Z.opp_involutive.
Qed.

(** *** The scan of the fallback *)

Section RankerFacts.

Variable embed_query : string -> option vec.
Variable cosine_similarity : vec -> vec -> option float.

Lemma fallback_scan_valid s q_vec internships :
  (fallback_scan cosine_similarity s q_vec internships).2
  = List.filter (survives cosine_similarity s q_vec) internships.
Proof.
  induction internships as [|l rest IH]; simpl; [done|].
  destruct (fallback_scan cosine_similarity s q_vec rest) as [scores valid].
  simpl in IH. unfold survives, similarity_of.
  destruct (dict_at s l) as [p|]; [|done].
  destruct (default [] (p_embedding p)) as [|x doc]; [done|].
  destruct (cosine_similarity q_vec (x :: doc)) as [sim|]; [|done].
  destruct (FloatOrder.lt 0.4 sim); simpl; by rewrite IH.
Qed.

Lemma fallback_scan_scores s q_vec internships :
  Forall2 (fun sim l => similarity_of cosine_similarity s q_vec l = Some sim
                        /\ FloatOrder.lt 0.4 sim = true)
    (fallback_scan cosine_similarity s q_vec internships).1
    (fallback_scan cosine_similarity s q_vec internships).2.
Proof.
  induction internships as [|l rest IH]; simpl; [constructor|].
  destruct (fallback_scan cosine_similarity s q_vec rest) as [scores valid].
  simpl in IH.
  destruct (dict_at s l) as [p|] eqn:Ep; [|done].
  destruct (default [] (p_embedding p)) as [|x doc] eqn:Ed; [done|].
  destruct (cosine_similarity q_vec (x :: doc)) as [sim|] eqn:Ec; [|done].
  destruct (FloatOrder.lt 0.4 sim) eqn:El; [|done].
  simpl. constructor; [|done]. unfold similarity_of. by rewrite Ep, Ed.
Qed.

Lemma similarity_of_dict s q_vec l sim :
  similarity_of cosine_similarity s q_vec l = Some sim -> is_Some (dict_at s l).
Proof. unfold similarity_of. destruct (dict_at s l); [eauto|done]. Qed.

(** *** The fallback picks the best survivors *)

Lemma fallback_run s internships education skills location top_k q_vec scores valid :
  1 <= top_k ->
  query_vector embed_query (fallback_query education skills) = Some q_vec ->
  fallback_scan cosine_similarity s q_vec internships = (scores, valid) ->
  valid <> [] ->
  let k := Z.min top_k (Z.of_nat (length valid)) in
  semantic_fallback_recommendation embed_query cosine_similarity s internships
    education skills location top_k
  = {| out_store := (build_results s (fallback_picked valid scores k)).1;
       out_calls := [EmbedQuery (fallback_query education skills)];
       out_result := (build_results s (fallback_picked valid scores k)).2 |}.
Proof.
  intros Hk Hq Es Hne k. unfold semantic_fallback_recommendation.
  rewrite Hq, Es. pose proof (fallback_scan_scores s q_vec internships) as HF.
  rewrite Es in HF. simpl in HF.
  assert (Hlen : length valid = length scores).
  { symmetry. by eapply Forall2_length. }
  assert (Hk' : 1 <= k).
  { subst k. destruct valid; [done|]. simpl. lia. }
  destruct valid as [|l0 valid0]; [done|]. cbv beta iota zeta.
  set (valid := l0 :: valid0) in *.
  change (Z.min top_k (Z.of_nat (length valid))) with k.
  rewrite fallback_results_build, argsort_ranked_pairs, (slice_from_last _ _ Hk').
  rewrite length_fmap, ranked_pairs_length, <- fmap_drop, <- fmap_reverse.
  rewrite (fallback_items_pairs _ _ _ Hlen).
  - unfold fallback_picked.
    by destruct (build_results s _) as [s' results].
  - apply Forall_forall. intros [i x] Hix. simpl.
    apply ranked_pairs_lookup. rewrite elem_of_reverse in Hix.
    exact (subseteq_drop _ _ _ Hix).
Qed.

End RankerFacts.

(** *** What the fallback picks *)

Lemma key_of_item_of_pair valid_internships ix :
  key_of (item_of_pair valid_internships ix) = relabel valid_internships ix.
Proof. reflexivity. Qed.

Lemma fallback_picked_length valid_internships semantic_scores k :
  0 <= k <= Z.of_nat (length semantic_scores) ->
  Z.of_nat (length (fallback_picked valid_internships semantic_scores k)) = k.
Proof.
  intros H. unfold fallback_picked.
  rewrite length_fmap, length_reverse, length_drop, ranked_pairs_length. lia.
Qed.


(** Picked and left out together are the survivors. *)
Lemma fallback_picked_perm valid_internships semantic_scores k :
  length valid_internships = length semantic_scores ->
  (key_of <$> fallback_picked valid_internships semantic_scores k)
    ++ fallback_left_out valid_internships semantic_scores k
  ≡ₚ zip valid_internships semantic_scores.
Proof.
  intros Hlen. unfold fallback_picked, fallback_left_out.
  rewrite <- list_fmap_compose.
  rewrite (list_fmap_ext (key_of ∘ item_of_pair valid_internships)
             (relabel valid_internships) _ (fun _ _ _ => eq_refl)).
  rewrite <- fmap_app, reverse_Permutation, (Permutation_app_comm (drop _ _)).
  rewrite take_drop, ranked_pairs_perm. by rewrite relabel_zip.
Qed.




Lemma fallback_picked_refs valid_internships semantic_scores k item :
  length valid_internships = length semantic_scores ->
  item ∈ fallback_picked valid_internships semantic_scores k ->
  key_of item ∈ zip valid_internships semantic_scores.
Proof.
  intros Hlen Hi. rewrite <- (fallback_picked_perm _ _ k Hlen).
  apply elem_of_app. left. by apply list_elem_of_fmap_2.
Qed.

(** *** The paths of [recommend] *)

Section Paths.

Variable embed_query : string -> option vec.
Variable cosine_similarity : vec -> vec -> option float.

Lemma recommend_empty s education skills location top_k :
  recommend embed_query cosine_similarity s [] education skills location top_k
  = {| out_store := s; out_calls := []; out_result := [] |}.
Proof. reflexivity. Qed.

Lemma admitted_nonempty s internships skills :
  admitted s internships skills <> [] -> internships <> [].
Proof. by intros H ->. Qed.

Lemma recommend_fallback s internships education skills location top_k :
  internships <> [] ->
  admitted s internships skills = [] ->
  recommend embed_query cosine_similarity s internships education skills location top_k
  = semantic_fallback_recommendation embed_query cosine_similarity s internships
      (normalize education) (normalize skills) (normalize location)
      (clamp_top_k top_k).
Proof.
  intros Hne Ha. unfold recommend. destruct internships as [|l rest]; [done|].
  unfold admitted in Ha. by rewrite Ha.
Qed.

Lemma recommend_primary_failed s internships education skills location top_k :
  admitted s internships skills <> [] ->
  query_vector embed_query (query_of education skills location) = None ->
  recommend embed_query cosine_similarity s internships education skills location top_k
  = {| out_store := s;
       out_calls := [EmbedQuery (query_of education skills location)];
       out_result := [] |}.
Proof.
  intros Ha Hq. unfold recommend.
  destruct internships as [|l rest]; [done|].
  unfold admitted in Ha. unfold query_of in Hq.
  destruct (skill_gate s (normalize skills) 0 (l :: rest)); [done|].
  by rewrite Hq.
Qed.

Lemma recommend_primary s internships education skills location top_k q_vec :
  admitted s internships skills <> [] ->
  query_vector embed_query (query_of education skills location) = Some q_vec ->
  let items := primary_items cosine_similarity s internships education skills location top_k q_vec in
  recommend embed_query cosine_similarity s internships education skills location top_k
  = {| out_store := (build_results s items).1;
       out_calls := [EmbedQuery (query_of education skills location)];
       out_result := (build_results s items).2 |}.
Proof.
  intros Ha Hq items. subst items.
  unfold recommend, primary_items, scored_admitted.
  destruct internships as [|l rest]; [done|].
  unfold admitted in *. unfold query_of in Hq.
  destruct (skill_gate s (normalize skills) 0 (l :: rest)) as [|a adm]; [done|].
  cbv beta iota zeta. rewrite Hq.
  by destruct (build_results s _) as [s' results].
Qed.

Lemma scored_admitted_dicts s internships education skills location q_vec :
  Forall (fun item => is_Some (dict_at s (sc_internship item)))
    (scored_admitted cosine_similarity s internships education skills location q_vec).
Proof.
  unfold scored_admitted. apply Forall_fmap.
  eapply Forall_impl; [apply skill_gate_well_admitted|].
  intros a (Hd & _). simpl. by rewrite Hd.
Qed.

Lemma sort_by_score_perm l : sort_by_score l ≡ₚ l.
Proof. apply sort_stable_perm. Qed.

Lemma primary_items_dicts s internships education skills location top_k q_vec :
  Forall (fun item => is_Some (dict_at s (sc_internship item)))
    (primary_items cosine_similarity s internships education skills location top_k q_vec).
Proof.
  apply Forall_forall. intros item Hi. unfold primary_items in Hi.
  apply slice_to_elem_of in Hi. rewrite sort_by_score_perm in Hi.
  pose proof (scored_admitted_dicts s internships education skills location q_vec) as HF.
  rewrite Forall_forall in HF. by apply HF.
Qed.

Lemma clamp_top_k_range top_k : 3 <= clamp_top_k top_k <= 7.
Proof. unfold clamp_top_k. lia. Qed.

Lemma primary_items_length s internships education skills location top_k q_vec :
  Z.of_nat (length (primary_items cosine_similarity s internships education skills location top_k q_vec))
  = Z.min (clamp_top_k top_k) (Z.of_nat (length (admitted s internships skills))).
Proof.
  unfold primary_items. pose proof (clamp_top_k_range top_k).
  rewrite slice_to_length by lia.
  unfold sort_by_score. rewrite sort_stable_length.
  unfold scored_admitted. rewrite length_fmap. lia.
Qed.

(** The results of a successful primary path, one copy per ranked item. *)
Lemma recommend_primary_copies s internships education skills location top_k q_vec :
  admitted s internships skills <> [] ->
  query_vector embed_query (query_of education skills location) = Some q_vec ->
  let o := recommend embed_query cosine_similarity s internships
             education skills location top_k in
  Forall2 (copy_of s (out_store o)) (out_result o)
    (primary_items cosine_similarity s internships education skills location top_k q_vec).
Proof.
  intros Ha Hq o. subst o. rewrite (recommend_primary _ _ _ _ _ _ _ Ha Hq). simpl.
  apply build_results_copies, primary_items_dicts.
Qed.

(** The two queries of a call never coincide: what the provider was asked
    tells the paths apart. *)
Lemma queries_differ education skills location education' :
  primary_query education skills location <> fallback_query education' skills.
Proof.
  unfold primary_query, fallback_query. intros H.
  repeat apply (inj (String.app _)) in H.
  discriminate H.
Qed.

End Paths.

(** ** Frame: the ranking calls leave their inputs alone *)

Lemma frame_ok_noop s internships calls :
  frame_ok s internships {| out_store := s; out_calls := calls; out_result := [] |}.
Proof. split; simpl; [done|]. by intros r ?%elem_of_nil. Qed.

Lemma frame_ok_built s internships calls items :
  Forall (fun item => sc_internship item ∈ internships
                      /\ is_Some (dict_at s (sc_internship item))) items ->
  frame_ok s internships
    {| out_store := (build_results s items).1;
       out_calls := calls;
       out_result := (build_results s items).2 |}.
Proof.
  intros H.
  assert (Hd : Forall (fun item => is_Some (dict_at s (sc_internship item))) items).
  { eapply Forall_impl; [exact H|]. by intros item [_ ?]. }
  pose proof (build_results_copies s items Hd) as Hc.
  rewrite (build_results_closed s items Hd) in *. simpl in *. split.
  - intros l x Hl. by apply lookup_app_l_Some.
  - intros r Hr. split.
    + apply elem_of_seq in Hr. lia.
    + apply list_elem_of_lookup in Hr as [i Hi].
      destruct (Forall2_lookup_l _ _ _ _ _ Hc Hi) as (item & Hitem & p & Hp & Hr).
      exists (sc_internship item), p, (sc_score item), (sc_match_details item).
      split; [|done].
      apply list_elem_of_lookup_2 in Hitem. rewrite Forall_forall in H.
      by apply H.
Qed.

Lemma skill_gate_ref_elem_of s skills i internships a :
  a ∈ skill_gate s skills i internships -> rel_ref a ∈ internships.
Proof.
  intros Ha. apply (list_elem_of_fmap_2 rel_ref) in Ha.
  rewrite skill_gate_refs in Ha. apply list_elem_of_In, filter_In in Ha as [Ha _].
  by apply list_elem_of_In.
Qed.

Section Frame.

Variable embed_query : string -> option vec.
Variable cosine_similarity : vec -> vec -> option float.

Lemma fallback_scan_valid_dicts s q_vec internships :
  Forall (fun l => l ∈ internships /\ is_Some (dict_at s l))
    (fallback_scan cosine_similarity s q_vec internships).2.
Proof.
  pose proof (fallback_scan_scores cosine_similarity s q_vec internships) as HF.
  pose proof (fallback_scan_valid cosine_similarity s q_vec internships) as HV.
  apply Forall_forall. intros l Hl. split.
  - rewrite HV in Hl. apply list_elem_of_In, filter_In in Hl as [Hl _].
    by apply list_elem_of_In.
  - apply list_elem_of_lookup in Hl as [i Hi].
    destruct (Forall2_lookup_r _ _ _ _ _ HF Hi) as (sim & _ & Hsim & _).
    by eapply similarity_of_dict.
Qed.

Lemma fallback_item_elem_of valid_internships semantic_scores (idx_sorted : list nat) item :
  item ∈ omap (fallback_item valid_internships semantic_scores) idx_sorted ->
  sc_internship item ∈ valid_internships.
Proof.
  intros (idx & _ & Hitem)%list_elem_of_omap. unfold fallback_item in Hitem.
  destruct (valid_internships !! idx) as [l|] eqn:El; [|done].
  destruct (semantic_scores !! idx); [|done]. injection Hitem as <-. simpl.
  by eapply list_elem_of_lookup_2.
Qed.

Lemma fallback_frame_ok s internships education skills location top_k :
  frame_ok s internships
    (semantic_fallback_recommendation embed_query cosine_similarity s internships
       education skills location top_k).
Proof.
  unfold semantic_fallback_recommendation.
  destruct (query_vector embed_query (fallback_query education skills)) as [q_vec|];
    [|apply frame_ok_noop].
  pose proof (fallback_scan_valid_dicts s q_vec internships) as HV.
  destruct (fallback_scan cosine_similarity s q_vec internships) as [scores valid].
  simpl in HV. destruct valid as [|l0 valid0]; [apply frame_ok_noop|].
  set (valid := l0 :: valid0) in *. cbv beta iota zeta.
  rewrite fallback_results_build.
  match goal with |- context [build_results s ?items] =>
    pose proof (frame_ok_built s internships
                  [EmbedQuery (fallback_query education skills)] items) as HB;
    destruct (build_results s items) as [s' results]
  end.
  apply HB. apply Forall_forall. intros item Hitem.
  apply fallback_item_elem_of in Hitem. rewrite Forall_forall in HV. by apply HV.
Qed.

Lemma recommend_frame_ok s internships education skills location top_k :
  frame_ok s internships
    (recommend embed_query cosine_similarity s internships
       education skills location top_k).
Proof.
  destruct internships as [|l0 rest] eqn:Ei; [apply frame_ok_noop|]. rewrite <- Ei.
  assert (Hne : internships <> []) by by rewrite Ei.
  clear Ei. destruct (admitted s internships skills) as [|a adm] eqn:Ea.
  { rewrite (recommend_fallback _ _ _ _ _ _ _ _ Hne Ea). apply fallback_frame_ok. }
  assert (Ha : admitted s internships skills <> []) by by rewrite Ea.
  destruct (query_vector embed_query (query_of education skills location))
    as [q_vec|] eqn:Eq.
  - rewrite (recommend_primary _ _ _ _ _ _ _ _ _ Ha Eq). cbv zeta.
    apply frame_ok_built, Forall_forall. intros item Hitem. split.
    + unfold primary_items in Hitem. apply slice_to_elem_of in Hitem.
      rewrite sort_by_score_perm in Hitem.
      apply list_elem_of_fmap in Hitem as (r & -> & Hr). simpl.
      by eapply skill_gate_ref_elem_of.
    + pose proof (primary_items_dicts cosine_similarity s internships education skills
                    location top_k q_vec) as HF.
      rewrite Forall_forall in HF. by apply HF.
  - rewrite (recommend_primary_failed _ _ _ _ _ _ _ _ Ha Eq). apply frame_ok_noop.
Qed.

(** C10. [recommend] and [semantic_fallback_recommendation] leave every
    object of their input store unchanged (so each input dict keeps its
    ['embedding'] and gains neither ['score'] nor ['match_details']); each
    returned reference is a fresh object, a copy of an input dict that
    carries the score and the match details and has no embedding. *)
Theorem ranking_leaves_inputs_unchanged s internships education skills location top_k :
  frame_ok s internships
    (recommend embed_query cosine_similarity s internships
       education skills location top_k)
  /\ frame_ok s internships
       (semantic_fallback_recommendation embed_query cosine_similarity s internships
          education skills location top_k).
Proof. split; [apply recommend_frame_ok | apply fallback_frame_ok]. Qed.

End Frame.

(** ** The size of the answer *)

Lemma build_results_length s items :
  Forall (fun item => is_Some (dict_at s (sc_internship item))) items ->
  length (build_results s items).2 = length items.
Proof. intros H. rewrite (build_results_closed _ _ H). simpl. apply length_seq. Qed.

Section Size.

Variable embed_query : string -> option vec.
Variable cosine_similarity : vec -> vec -> option float.

Lemma fallback_picked_dicts s q_vec internships k :
  let scan := fallback_scan cosine_similarity s q_vec internships in
  Forall (fun item => is_Some (dict_at s (sc_internship item)))
    (fallback_picked scan.2 scan.1 k).
Proof.
  intros scan. apply Forall_forall. intros item Hitem.
  pose proof (fallback_scan_scores cosine_similarity s q_vec internships) as HF.
  pose proof (fallback_scan_valid_dicts cosine_similarity s q_vec internships) as HV.
  fold scan in HF, HV. apply fallback_picked_refs in Hitem.
  - apply elem_of_zip_l in Hitem. rewrite Forall_forall in HV.
    by apply HV in Hitem as [_ ?].
  - symmetry. by eapply Forall2_length.
Qed.

(** The fallback returns as many postings as [top_k] allows, for a
    [top_k] of at least 1. *)
Lemma fallback_count s internships education skills location top_k q_vec :
  1 <= top_k ->
  query_vector embed_query (fallback_query education skills) = Some q_vec ->
  Z.of_nat (length (out_result
    (semantic_fallback_recommendation embed_query cosine_similarity s internships
       education skills location top_k)))
  = Z.min top_k (Z.of_nat (length (List.filter (survives cosine_similarity s q_vec) internships))).
Proof.
  intros Hk Hq.
  rewrite <- (fallback_scan_valid cosine_similarity s q_vec internships).
  pose proof (fallback_picked_dicts s q_vec internships) as HD.
  pose proof (fallback_scan_scores cosine_similarity s q_vec internships) as HF.
  apply Forall2_length in HF.
  destruct (fallback_scan cosine_similarity s q_vec internships) as [scores valid] eqn:Es.
  simpl in *. destruct (decide (valid = [])) as [->|Hne].
  - unfold semantic_fallback_recommendation. rewrite Hq, Es. simpl. lia.
  - rewrite (fallback_run _ _ _ _ _ _ _ _ _ _ _ Hk Hq Es Hne). simpl.
    rewrite build_results_length by apply HD.
    apply fallback_picked_length. lia.
Qed.

(** C2 (amended). [recommend] clamps [top_k] to [3..7]: a value below 3
    becomes 3, a value above 7 becomes 7, a value in between is kept.  It
    returns nothing when the provider fails on the query; otherwise it
    returns exactly [min(clamped top_k, eligible)] postings, where the
    eligible postings are the ones the gate admits or, when it admits none,
    the survivors of the fallback.  So the answer never has more than 7
    entries, and it has fewer than 3 whenever fewer than 3 postings are
    eligible. *)
Theorem recommend_count_bounds s internships education skills location top_k :
  let k := clamp_top_k top_k in
  let adm := admitted s internships skills in
  let n := Z.of_nat (length (out_result
             (recommend embed_query cosine_similarity s internships
                education skills location top_k))) in
  3 <= k <= 7
  /\ (top_k <= 3 -> k = 3) /\ (3 <= top_k <= 7 -> k = top_k) /\ (7 <= top_k -> k = 7)
  /\ n <= k
  /\ (adm <> [] ->
      (query_vector embed_query (query_of education skills location) = None -> n = 0)
      /\ (forall q_vec,
            query_vector embed_query (query_of education skills location) = Some q_vec ->
            n = Z.min k (Z.of_nat (length adm))))
  /\ (adm = [] ->
      (query_vector embed_query
         (fallback_query (normalize education) (normalize skills)) = None -> n = 0)
      /\ (forall q_vec,
            query_vector embed_query
              (fallback_query (normalize education) (normalize skills)) = Some q_vec ->
            n = Z.min k (Z.of_nat (length
                  (List.filter (survives cosine_similarity s q_vec) internships))))).
Proof.
  intros k adm n. pose proof (clamp_top_k_range top_k) as Hk. fold k in Hk.
  assert (Hprim : adm <> [] ->
      (query_vector embed_query (query_of education skills location) = None -> n = 0)
      /\ (forall q_vec,
            query_vector embed_query (query_of education skills location) = Some q_vec ->
            n = Z.min k (Z.of_nat (length adm)))).
  { intros Ha. split.
    - intros Hq. subst n. by rewrite (recommend_primary_failed _ _ _ _ _ _ _ _ Ha Hq).
    - intros q_vec Hq. subst n. rewrite (recommend_primary _ _ _ _ _ _ _ _ _ Ha Hq).
      cbv zeta. simpl.
      rewrite build_results_length by apply primary_items_dicts.
      apply primary_items_length. }
  assert (Hfall : adm = [] ->
      (query_vector embed_query
         (fallback_query (normalize education) (normalize skills)) = None -> n = 0)
      /\ (forall q_vec,
            query_vector embed_query
              (fallback_query (normalize education) (normalize skills)) = Some q_vec ->
            n = Z.min k (Z.of_nat (length
                  (List.filter (survives cosine_similarity s q_vec) internships))))).
  { intros Ha. destruct (decide (internships = [])) as [->|Hne].
    { subst n. simpl. split; [done|]. intros. lia. }
    subst n. rewrite (recommend_fallback _ _ _ _ _ _ _ _ Hne Ha). split.
    - intros Hq. unfold semantic_fallback_recommendation. by rewrite Hq.
    - intros q_vec Hq. apply fallback_count; [lia|done]. }
  split; [done|].
  split; [subst k; unfold clamp_top_k; lia|].
  split; [subst k; unfold clamp_top_k; lia|].
  split; [subst k; unfold clamp_top_k; lia|].
  split; [|by split].
  destruct (decide (adm = [])) as [Ha|Ha].
  - destruct (Hfall Ha) as [H0 H1].
    destruct (query_vector embed_query
                (fallback_query (normalize education) (normalize skills))) as [q_vec|].
    + rewrite (H1 q_vec eq_refl). lia.
    + rewrite H0 by done. lia.
  - destruct (Hprim Ha) as [H0 H1].
    destruct (query_vector embed_query (query_of education skills location)) as [q_vec|].
    + rewrite (H1 q_vec eq_refl). lia.
    + rewrite H0 by done. lia.
Qed.

End Size.

(** ** The gate decides the path *)

Section Gate.

Variable embed_query : string -> option vec.
Variable cosine_similarity : vec -> vec -> option float.

Lemma admits_iff s skills l :
  admits s skills l = true
  <-> exists p, dict_at s l = Some p
        /\ ((0 < (calculate_skill_relevance skills (get_str (p_skills p))).1.1)%nat
            \/ (2 <= (calculate_skill_relevance skills (get_str (p_skills p))).1.2)%nat
            \/ FloatOrder.lt 0.2
                 (calculate_skill_relevance skills (get_str (p_skills p))).2 = true).
Proof.
  unfold admits. destruct (dict_at s l) as [p|].
  - destruct (calculate_skill_relevance skills (get_str (p_skills p)))
      as [[e pm] r] eqn:E.
    rewrite gate_admits_iff. split.
    + intros H. exists p. by rewrite E.
    + intros (p' & [= <-] & H). by rewrite E in H.
  - split; [done|]. by intros (p & [=] & _).
Qed.

(** C3. The gate runs the scorer on the skills of every dict of the list
    and admits it exactly when [exact > 0 or partial >= 2 or relevance >
    0.2]; the admitted postings are the input list filtered, in the order
    of the list.  When the gate admits something, the provider is asked the
    primary query only and every returned record is the copy of an admitted
    posting, so a rejected posting is never returned.  The fallback runs
    exactly when the gate admits nothing. *)
Theorem gate_decides_path s internships education skills location top_k :
  let adm := admitted s internships skills in
  let o := recommend embed_query cosine_similarity s internships
             education skills location top_k in
  (forall l, admits s (normalize skills) l = true
     <-> exists p, dict_at s l = Some p
           /\ ((0 < (calculate_skill_relevance (normalize skills)
                       (get_str (p_skills p))).1.1)%nat
               \/ (2 <= (calculate_skill_relevance (normalize skills)
                           (get_str (p_skills p))).1.2)%nat
               \/ FloatOrder.lt 0.2
                    (calculate_skill_relevance (normalize skills)
                       (get_str (p_skills p))).2 = true))
  /\ (rel_ref <$> adm) = List.filter (admits s (normalize skills)) internships
  /\ Forall (well_admitted s (normalize skills)) adm
  /\ (adm <> [] ->
      out_calls o = [EmbedQuery (query_of education skills location)]
      /\ (EmbedQuery (fallback_query (normalize education) (normalize skills))
            ∉ out_calls o)
      /\ forall r, r ∈ out_result o ->
           exists a score m,
             a ∈ adm /\ admits s (normalize skills) (rel_ref a) = true
             /\ dict_at (out_store o) r = Some (decorate score m (rel_dict a)))
  /\ (adm = [] -> internships <> [] ->
      o = semantic_fallback_recommendation embed_query cosine_similarity s internships
            (normalize education) (normalize skills) (normalize location)
            (clamp_top_k top_k)).
Proof.
  intros adm o. split; [intros l; apply admits_iff|].
  split; [apply skill_gate_refs|]. split; [apply skill_gate_well_admitted|].
  split; [|intros Ha Hne; by apply recommend_fallback].
  intros Ha.
  assert (Hcalls : out_calls o = [EmbedQuery (query_of education skills location)]).
  { subst o.
    destruct (query_vector embed_query (query_of education skills location))
      as [q_vec|] eqn:Eq.
    - by rewrite (recommend_primary _ _ _ _ _ _ _ _ _ Ha Eq).
    - by rewrite (recommend_primary_failed _ _ _ _ _ _ _ _ Ha Eq). }
  split; [done|]. split.
  { rewrite Hcalls. intros Hin.
    apply elem_of_cons in Hin as [H|Hin]; [|by apply elem_of_nil in Hin].
    assert (Hq : query_of education skills location
                 = fallback_query (normalize education) (normalize skills))
      by congruence.
    by apply queries_differ in Hq. }
  intros r Hr.
  destruct (query_vector embed_query (query_of education skills location))
    as [q_vec|] eqn:Eq.
  - pose proof (recommend_primary_copies embed_query cosine_similarity
                  s internships education skills location top_k q_vec Ha Eq) as Hc.
    cbv zeta in Hc. fold o in Hc.
    apply list_elem_of_lookup in Hr as [i Hi].
    destruct (Forall2_lookup_l _ _ _ _ _ Hc Hi) as (item & Hitem & p & Hp & Hrp).
    apply list_elem_of_lookup_2 in Hitem. unfold primary_items in Hitem.
    apply slice_to_elem_of in Hitem. rewrite sort_by_score_perm in Hitem.
    apply list_elem_of_fmap in Hitem as (a & -> & Hain).
    pose proof (skill_gate_well_admitted s (normalize skills) 0 internships) as HW.
    rewrite Forall_forall in HW. destruct (HW a Hain) as (Hd & Hadm & _).
    simpl in Hp. rewrite Hd in Hp. injection Hp as <-.
    exists a. eauto.
  - subst o. rewrite (recommend_primary_failed _ _ _ _ _ _ _ _ Ha Eq) in Hr.
    by apply elem_of_nil in Hr.
Qed.

End Gate.

(** ** Scores and order of the primary path *)

Lemma sort_by_score_higher l : sort_by_score l = sort_stable higher l.
Proof. reflexivity. Qed.

Lemma higher_asym a b : higher a b = true -> higher b a = false.
Proof. apply FloatOrderFacts.lt_asym. Qed.

Lemma higher_cotrans a b c :
  FloatOrder.is_nan (sc_score c) = false ->
  higher a b = true -> higher a c = true \/ higher c b = true.
Proof.
  unfold higher. intros Hc H.
  destruct (FloatOrderFacts.lt_cotrans _ _ _ Hc H); auto.
Qed.

Lemma edu_matches_iff req_edu user_edu :
  edu_matches req_edu user_edu = true
  <-> req_edu <> EmptyString /\ user_edu <> EmptyString
      /\ (req_edu = user_edu \/ Py.contains req_edu user_edu = true
          \/ Py.contains user_edu req_edu = true).
Proof.
  unfold edu_matches. rewrite !andb_true_iff, !orb_true_iff, String.eqb_eq.
  assert (Ht : forall x, Py.truthy x = true <-> x <> EmptyString)
    by (intros []; simpl; split; congruence).
  rewrite !Ht. tauto.
Qed.

Lemma existsb_elem_of {A} (f : A -> bool) (l : list A) :
  existsb f l = true <-> exists x, x ∈ l /\ f x = true.
Proof.
  rewrite existsb_exists. split; intros (x & Hx & Hf); exists x;
    (split; [by apply list_elem_of_In|done]).
Qed.

Lemma loc_matches_iff user_loc intern_loc :
  loc_matches user_loc intern_loc = true
  <-> user_loc <> EmptyString /\ intern_loc <> EmptyString
      /\ (user_loc = intern_loc
          \/ Py.contains "remote" intern_loc = true
          \/ user_loc = "remote"%string
          \/ (exists word, word ∈ Py.split_ws user_loc
                           /\ Py.contains word intern_loc = true)
          \/ (exists word, word ∈ Py.split_ws intern_loc
                           /\ Py.contains word user_loc = true)).
Proof.
  unfold loc_matches.
  rewrite !andb_true_iff, !orb_true_iff, !String.eqb_eq, !existsb_elem_of.
  assert (Ht : forall x, Py.truthy x = true <-> x <> EmptyString)
    by (intros []; simpl; split; congruence).
  rewrite !Ht. tauto.
Qed.

Section Scores.

Variable embed_query : string -> option vec.
Variable cosine_similarity : vec -> vec -> option float.

Lemma semantic_score_spec q_vec internship :
  semantic_score cosine_similarity q_vec internship = similarity_or_zero cosine_similarity q_vec internship.
Proof.
  unfold semantic_score, similarity_or_zero.
  destruct (p_embedding internship) as [[|x doc]|]; simpl; try done.
Qed.

(** C5. On the primary path every admitted posting gets the score
    [similarity + boost]: the similarity is the cosine similarity to the
    query vector, or 0.0 when the embedding is missing or empty or the
    computation fails; the boost adds 0.25 for an education match (both
    strings non-empty, and equal or one inside the other, lowercased),
    0.30 per exact skill match, 0.15 per partial match up to three, and
    0.08 for a location match, and nothing caps the sum.  The results are
    the first [top_k] entries of these scores sorted in descending order,
    entries of equal score keeping the order they were met in (descent and
    stability are those of scores that are numbers). *)
Theorem primary_scores_and_order s internships education skills location top_k q_vec :
  admitted s internships skills <> [] ->
  query_vector embed_query (query_of education skills location) = Some q_vec ->
  primary_spec embed_query cosine_similarity s internships education skills location top_k q_vec.
Proof.
  intros Ha Hq. unfold primary_spec. cbv zeta.
  split; [|split; [|split; [intros Hnan; split|]]].
  - unfold scored_admitted. apply Forall2_fmap_l, Forall_Forall2_diag.
    eapply Forall_impl; [apply skill_gate_well_admitted|].
    intros a (_ & _ & Hrel). simpl. rewrite semantic_score_spec.
    split; [done|]. split; [done|]. split; [by rewrite Hrel|].
    split; [apply edu_matches_iff|]. split; [apply loc_matches_iff|done].
  - apply sort_by_score_perm.
  - rewrite sort_by_score_higher.
    apply (sort_stable_in_order higher
             (fun item => FloatOrder.is_nan (sc_score item) = false));
      [apply higher_asym | intros a b c; apply higher_cotrans | done].
  - intros x Hx. rewrite sort_by_score_higher. unfold same_score.
    apply (sort_stable_filter_tied higher
             (fun item => FloatOrder.is_nan (sc_score item) = false)).
    + intros a b c. apply higher_cotrans.
    + rewrite Forall_forall in Hnan. by apply Hnan.
  - apply (recommend_primary_copies embed_query cosine_similarity
             s internships education skills location top_k q_vec Ha Hq).
Qed.

End Scores.

(** ** The fallback ranker *)

Lemma decorate_fields score m p :
  p_embedding (decorate score m p) = None
  /\ p_score (decorate score m p) = Some score
  /\ p_match_details (decorate score m p) = Some m.
Proof. by repeat split. Qed.


Section Fallback.

Variable embed_query : string -> option vec.
Variable cosine_similarity : vec -> vec -> option float.


End Fallback.

(** ** The vector cache *)

Lemma find_missing_lengths internships existing :
  length (find_missing internships existing).1
  = length (find_missing internships existing).2.
Proof.
  induction internships as [|[p|] rest IH]; simpl; try done.
  destruct (bool_decide _); [done|].
  destruct (Py.truthy _); [|done].
  destruct (find_missing rest existing) as [docs ids]. simpl in *. by rewrite IH.
Qed.

(** The ids to compute are ids of postings of the catalogue that the cache
    does not have, and the texts are theirs. *)
Lemma find_missing_spec internships existing :
  Forall2 (fun text id =>
             exists p, Dict p ∈ internships
                       /\ id = get_internship_id p
                       /\ text = get_internship_text p
                       /\ existing !! id = None)
    (find_missing internships existing).1 (find_missing internships existing).2.
Proof.
  induction internships as [|[p|] rest IH]; simpl.
  - constructor.
  - assert (IH' : Forall2 (fun text id =>
             exists p', Dict p' ∈ Dict p :: rest
                       /\ id = get_internship_id p'
                       /\ text = get_internship_text p'
                       /\ existing !! id = None)
             (find_missing rest existing).1 (find_missing rest existing).2).
    { eapply Forall2_impl; [exact IH|]. intros t i (p' & Hin & H). exists p'.
      split; [by apply list_elem_of_further|done]. }
    destruct (bool_decide (is_Some (existing !! get_internship_id p))) eqn:E; [done|].
    destruct (Py.truthy (get_internship_text p)); [|done].
    destruct (find_missing rest existing) as [docs ids]. simpl in *.
    constructor; [|done]. exists p. split; [apply list_elem_of_here|].
    apply bool_decide_eq_false in E. rewrite <- eq_None_not_Some in E. done.
  - eapply Forall2_impl; [exact IH|]. intros t i (p' & Hin & H). exists p'.
    split; [by apply list_elem_of_further|done].
Qed.

Lemma find_missing_complete internships cache :
  complete internships cache -> find_missing internships cache = ([], []).
Proof.
  induction internships as [|[p|] rest IH]; intros Hc; simpl; [done| |].
  - assert (Hrest : complete rest cache).
    { intros p' Hin. apply Hc. by apply list_elem_of_further. }
    destruct (bool_decide (is_Some (cache !! get_internship_id p))) eqn:E;
      [by apply IH|].
    destruct (Py.truthy (get_internship_text p)) eqn:Et; [|by apply IH].
    apply bool_decide_eq_false in E. destruct E.
    apply Hc; [apply list_elem_of_here|done].
  - apply IH. intros p' Hin. apply Hc. by apply list_elem_of_further.
Qed.

(** The merge loop, when the provider answers with one vector per text. *)
Lemma merge_new_lookup ids i new (cache : gmap string vec) :
  length new = (length ids - i)%nat ->
  (i <= length ids)%nat ->
  exists merged,
    merge_new ids i new cache = (merged, None)
    /\ (forall k, is_Some (cache !! k) -> is_Some (merged !! k))
    /\ (forall j k, (i <= j)%nat -> ids !! j = Some k -> is_Some (merged !! k)).
Proof.
  revert i cache. induction new as [|v new IH]; intros i cache Hlen Hi; simpl.
  - exists cache. split; [done|]. split; [done|].
    intros j k Hj Hk. apply lookup_lt_Some in Hk. simpl in Hlen. lia.
  - simpl in Hlen. destruct (ids !! i) as [k0|] eqn:Ek.
    2:{ apply lookup_ge_None in Ek. lia. }
    destruct (IH (S i) (<[k0:=v]> cache)) as (merged & Hm & Hold & Hnew); [lia|lia|].
    exists merged. split; [done|]. split.
    + intros k Hk. apply Hold. destruct (decide (k0 = k)) as [->|Hne].
      * rewrite lookup_insert_eq. by eexists.
      * by rewrite lookup_insert_ne.
    + intros j k Hj Hk. destruct (decide (j = i)) as [->|Hne].
      * rewrite Ek in Hk. injection Hk as <-. apply Hold.
        rewrite lookup_insert_eq. by eexists.
      * apply (Hnew j); [lia|done].
Qed.

Section CacheFacts.

Variable embed_documents : list string -> option (list vec).

(** With a complete cache the fill calls nobody and returns the cache. *)
Lemma fill_complete internships cache :
  complete internships cache ->
  precompute_doc_embeddings_new embed_documents internships (Some cache)
  = {| fill_calls := []; fill_dict := cache; fill_ret := Returned cache |}.
Proof.
  intros Hc. unfold precompute_doc_embeddings_new.
  destruct internships as [|o rest]; [done|]. simpl default.
  by rewrite (find_missing_complete _ _ Hc).
Qed.

(** A fill that returns, after the provider answered with one vector per
    text, returns a complete cache. *)
Lemma fill_returns_complete internships existing cache :
  (forall docs vs, embed_documents docs = Some vs -> length vs = length docs) ->
  fill_ret (precompute_doc_embeddings_new embed_documents internships existing)
  = Returned cache ->
  complete internships cache.
Proof.
  intros Hprov. unfold precompute_doc_embeddings_new.
  destruct internships as [|o rest] eqn:Ei.
  { intros _ p Hin. by apply elem_of_nil in Hin. }
  rewrite <- Ei. clear Ei.
  pose proof (find_missing_lengths internships (default ∅ existing)) as Hlen.
  assert (Hcover : forall p, Dict p ∈ internships ->
            Py.truthy (get_internship_text p) = true ->
            is_Some (default ∅ existing !! get_internship_id p)
            \/ exists j, (find_missing internships (default ∅ existing)).2 !! j
                         = Some (get_internship_id p)).
  { clear. induction internships as [|[q|] rest IH]; intros p Hin Ht.
    - by apply elem_of_nil in Hin.
    - simpl.
      destruct (bool_decide (is_Some (default ∅ existing !! get_internship_id q))) eqn:E.
      + apply elem_of_cons in Hin as [[= ->]|Hin]; [|by apply IH].
        left. by apply bool_decide_eq_true in E.
      + destruct (Py.truthy (get_internship_text q)) eqn:Eq.
        * destruct (find_missing rest (default ∅ existing)) as [docs ids] eqn:Ef.
          simpl in *. apply elem_of_cons in Hin as [[= ->]|Hin].
          -- right. by exists 0%nat.
          -- destruct (IH p Hin Ht) as [?|[j Hj]]; [by left|]. right. by exists (S j).
        * apply elem_of_cons in Hin as [[= ->]|Hin]; [congruence|by apply IH].
    - apply elem_of_cons in Hin as [[=]|Hin]. simpl. by apply IH. }
  destruct (find_missing internships (default ∅ existing)) as [docs ids]. simpl in *.
  destruct docs as [|d docs].
  { simpl. intros [= <-] p Hin Ht. destruct (Hcover p Hin Ht) as [?|[j Hj]]; [done|].
    destruct ids; [|done]. by rewrite lookup_nil in Hj. }
  destruct (embed_documents (d :: docs)) as [vs|] eqn:Ep; [|done].
  apply Hprov in Ep.
  destruct (merge_new_lookup ids 0 vs (default ∅ existing)) as (merged & Hm & Hold & Hnew);
    [lia|lia|].
  rewrite Hm. simpl. intros [= <-] p Hin Ht.
  destruct (Hcover p Hin Ht) as [?|[j Hj]]; [by apply Hold|].
  apply (Hnew j); [lia|done].
Qed.

(** C9. The fill never asks for the vector of a posting whose id the given
    cache already has: every id it computes is absent from the cache, and
    the texts it sends are the texts of those postings.  Hence on a
    complete cache it makes no provider call and returns the cache as it
    is; and the cache a fill returns is complete (when the provider
    answers with one vector per text), so a second fill on the same
    catalogue makes no call and returns it unchanged. *)
Theorem fill_is_incremental_and_idempotent internships existing :
  Forall2 (fun text id =>
             exists p, Dict p ∈ internships
                       /\ id = get_internship_id p
                       /\ text = get_internship_text p
                       /\ default ∅ existing !! id = None)
    (find_missing internships (default ∅ existing)).1
    (find_missing internships (default ∅ existing)).2
  /\ (let first := precompute_doc_embeddings_new embed_documents internships existing in
      fill_calls first = []
      \/ fill_calls first
         = [EmbedDocuments (find_missing internships (default ∅ existing)).1])
  /\ (forall cache, complete internships cache ->
        precompute_doc_embeddings_new embed_documents internships (Some cache)
        = {| fill_calls := []; fill_dict := cache; fill_ret := Returned cache |})
  /\ ((forall docs vs, embed_documents docs = Some vs -> length vs = length docs) ->
      forall cache,
        fill_ret (precompute_doc_embeddings_new embed_documents internships existing)
        = Returned cache ->
        precompute_doc_embeddings_new embed_documents internships (Some cache)
        = {| fill_calls := []; fill_dict := cache; fill_ret := Returned cache |}).
Proof.
  split; [apply find_missing_spec|]. split.
  { cbv zeta. unfold precompute_doc_embeddings_new.
    destruct internships as [|o rest] eqn:Ei; [by left|]. rewrite <- Ei.
    destruct (find_missing internships (default ∅ existing)) as [docs ids].
    destruct docs as [|d docs]; [by left|]. simpl.
    destruct (embed_documents (d :: docs)) as [vs|]; [|by right].
    destruct (merge_new ids 0 vs (default ∅ existing)) as [merged [e|]]; by right. }
  split; [apply fill_complete|].
  intros Hprov cache Hret. apply fill_complete.
  by eapply fill_returns_complete.
Qed.

End CacheFacts.

(** ** Refreshing the cache *)

Section Refresh.

Variable embed_documents : list string -> option (list vec).

Lemma load_internships_empty fs :
  internships_file fs = Absent
  \/ (exists f, internships_file fs = Stored f
                /\ (content_json f = NotJson \/ content_json f = Json [])) ->
  load_internships fs = Returned [].
Proof.
  unfold load_internships. intros [->|(f & -> & [->| ->])]; done.
Qed.


Lemma reload_empty fs h :
  load_internships fs = Returned [] ->
  reload_and_recompute embed_documents fs h
  = {| upd_calls := []; upd_saved := None; upd_ret := Returned ([], ∅, false) |}.
Proof. intros H. unfold reload_and_recompute. by rewrite H. Qed.

Lemma reload_raises fs h e :
  load_internships fs = Raised e ->
  reload_and_recompute embed_documents fs h
  = {| upd_calls := []; upd_saved := None; upd_ret := Raised e |}.
Proof. intros H. unfold reload_and_recompute. by rewrite H. Qed.

Lemma reload_cache_raises fs h internships e :
  load_internships fs = Returned internships -> internships <> [] ->
  load_embeddings fs = Raised e ->
  reload_and_recompute embed_documents fs h
  = {| upd_calls := []; upd_saved := None; upd_ret := Raised e |}.
Proof.
  intros H Hne He. unfold reload_and_recompute. rewrite H, He.
  by destruct internships.
Qed.

Lemma reload_nonempty fs h internships existing :
  load_internships fs = Returned internships -> internships <> [] ->
  load_embeddings fs = Returned existing ->
  let filled := precompute_doc_embeddings_new embed_documents internships
                  (Some existing) in
  reload_and_recompute embed_documents fs h
  = match fill_ret filled with
    | Raised e =>
        {| upd_calls := fill_calls filled; upd_saved := None; upd_ret := Raised e |}
    | Returned updated_embeddings =>
        {| upd_calls := fill_calls filled;
           upd_saved := Some {| source_file_hash := h;
                                file_embeddings := updated_embeddings |};
           upd_ret := Returned (internships, updated_embeddings, true) |}
    end.
Proof.
  intros H Hne He filled. unfold reload_and_recompute. rewrite H, He.
  destruct internships as [|o rest]; [done|]. by subst filled.
Qed.

(** What a reload returns, when it returns. *)
Lemma reload_returns fs h ci ce refreshed :
  upd_ret (reload_and_recompute embed_documents fs h) = Returned (ci, ce, refreshed) ->
  (refreshed = false /\ ci = [] /\ ce = ∅ /\ load_internships fs = Returned []
   /\ reload_and_recompute embed_documents fs h
      = {| upd_calls := []; upd_saved := None; upd_ret := Returned ([], ∅, false) |})
  \/ (refreshed = true /\ ci <> [] /\ load_internships fs = Returned ci
      /\ exists existing,
           load_embeddings fs = Returned existing
           /\ fill_ret (precompute_doc_embeddings_new embed_documents ci (Some existing))
              = Returned ce
           /\ reload_and_recompute embed_documents fs h
              = {| upd_calls := fill_calls (precompute_doc_embeddings_new
                                              embed_documents ci (Some existing));
                   upd_saved := Some {| source_file_hash := h; file_embeddings := ce |};
                   upd_ret := Returned (ci, ce, true) |}).
Proof.
  destruct (load_internships fs) as [internships|e] eqn:El.
  2:{ by rewrite (reload_raises _ _ _ El). }
  destruct (decide (internships = [])) as [->|Hne].
  { rewrite (reload_empty _ _ El). simpl. intros [= <- <- <-]. by left. }
  destruct (load_embeddings fs) as [existing|e] eqn:Ee.
  2:{ by rewrite (reload_cache_raises _ _ _ _ El Hne Ee). }
  rewrite (reload_nonempty _ _ _ _ El Hne Ee). cbv zeta.
  destruct (fill_ret _) as [c|e] eqn:Ef; simpl; [|done].
  intros [= <- <- <-]. right. split; [done|]. split; [done|]. split; [done|].
  exists existing. by rewrite Ef.
Qed.

Lemma check_and_update_reloads fs cached_internships cached_embeddings :
  get_file_hash fs <> last_processed_hash fs
  \/ cached_internships = None \/ cached_embeddings = None ->
  check_and_update_embeddings embed_documents fs cached_internships cached_embeddings
  = reload_and_recompute embed_documents fs (get_file_hash fs).
Proof.
  intros Hreload. unfold check_and_update_embeddings.
  destruct cached_internships as [ci|], cached_embeddings as [ce|]; try done.
  destruct Hreload as [Hne|[[=]|[=]]]. by rewrite bool_decide_eq_false_2.
Qed.


End Refresh.

(** ** Provider failures *)

Section Failures.

Variable embed_query : string -> option vec.
Variable cosine_similarity : vec -> vec -> option float.
Variable embed_documents : list string -> option (list vec).

Lemma query_vector_failed query :
  embed_query query = None -> query_vector embed_query query = None.
Proof. intros H. unfold query_vector. by rewrite H. Qed.

(** C7. A failed provider call aborts the operation.  On the primary path a
    failed query embedding makes [recommend] return the empty list, with the
    store as it was.  In the fill a provider error is raised to the caller:
    nothing is returned and the cache dict is as it was before the call;
    [check_and_update_embeddings] raises in turn and writes nothing. *)
Theorem provider_failure_aborts :
  (forall s internships education skills location top_k,
     admitted s internships skills <> [] ->
     embed_query (query_of education skills location) = None ->
     recommend embed_query cosine_similarity s internships education skills location top_k
     = {| out_store := s;
          out_calls := [EmbedQuery (query_of education skills location)];
          out_result := [] |})
  /\ (forall internships existing,
        let docs := (find_missing internships (default ∅ existing)).1 in
        docs <> [] ->
        embed_documents docs = None ->
        precompute_doc_embeddings_new embed_documents internships existing
        = {| fill_calls := [EmbedDocuments docs];
             fill_dict := default ∅ existing;
             fill_ret := Raised ProviderFailure |})
  /\ (forall fs cached_internships cached_embeddings internships existing,
        get_file_hash fs <> last_processed_hash fs
        \/ cached_internships = None \/ cached_embeddings = None ->
        load_internships fs = Returned internships ->
        load_embeddings fs = Returned existing ->
        let docs := (find_missing internships existing).1 in
        docs <> [] ->
        embed_documents docs = None ->
        check_and_update_embeddings embed_documents fs cached_internships cached_embeddings
        = {| upd_calls := [EmbedDocuments docs];
             upd_saved := None;
             upd_ret := Raised ProviderFailure |}).
Proof.
  assert (Hfill : forall internships existing,
        let docs := (find_missing internships (default ∅ existing)).1 in
        docs <> [] ->
        embed_documents docs = None ->
        precompute_doc_embeddings_new embed_documents internships existing
        = {| fill_calls := [EmbedDocuments docs];
             fill_dict := default ∅ existing;
             fill_ret := Raised ProviderFailure |}).
  { intros internships existing docs Hne Hfail. subst docs.
    unfold precompute_doc_embeddings_new.
    destruct internships as [|o rest] eqn:Ei; [done|]. rewrite <- Ei in *. clear Ei.
    destruct (find_missing internships (default ∅ existing)) as [docs ids].
    simpl in *. destruct docs as [|d docs]; [done|]. by rewrite Hfail. }
  split; [|split; [exact Hfill|]].
  - intros s internships education skills location top_k Ha Hq.
    apply recommend_primary_failed; [done|]. by apply query_vector_failed.
  - intros fs ci ce internships existing Hreload Hli Hle docs Hne Hfail.
    rewrite (check_and_update_reloads embed_documents _ _ _ Hreload).
    assert (Hload : internships <> []).
    { intros E. subst docs. by rewrite E in Hne. }
    rewrite (reload_nonempty _ _ _ _ _ Hli Hload Hle). cbv zeta.
    by rewrite (Hfill internships (Some existing) Hne Hfail).
Qed.

End Failures.

(** ** The skill scorer *)

Lemma partial_hit_spec exact_matches user_skill intern_skill_tokens :
  partial_hit exact_matches user_skill intern_skill_tokens
  = partially_matches exact_matches intern_skill_tokens user_skill.
Proof.
  unfold partially_matches.
  induction intern_skill_tokens as [|i rest IH]; simpl.
  - by rewrite andb_false_r.
  - rewrite IH.
    destruct (2 <? Py.len user_skill)%nat, (2 <? Py.len i)%nat,
      (bool_decide (user_skill ∈ exact_matches)),
      (Py.contains user_skill i), (Py.contains i user_skill); simpl;
      rewrite ?andb_true_r, ?andb_false_r, ?orb_true_r; try done.
Qed.

Lemma count_partial_spec exact_matches user_skill_tokens intern_skill_tokens n :
  count_partial exact_matches user_skill_tokens intern_skill_tokens n
  = (n + length (List.filter (partially_matches exact_matches intern_skill_tokens)
                   user_skill_tokens))%nat.
Proof.
  revert n. induction user_skill_tokens as [|u rest IH]; intros n; simpl; [lia|].
  rewrite IH, partial_hit_spec.
  destruct (partially_matches exact_matches intern_skill_tokens u); simpl; lia.
Qed.

Lemma partially_matches_iff exact_matches (intern_skill_tokens : list string) user_skill :
  partially_matches exact_matches intern_skill_tokens user_skill = true
  <-> (2 < Py.len user_skill)%nat
      /\ (user_skill ∉ exact_matches)
      /\ exists intern_skill,
           intern_skill ∈ intern_skill_tokens
           /\ (2 < Py.len intern_skill)%nat
           /\ (Py.contains user_skill intern_skill = true
               \/ Py.contains intern_skill user_skill = true).
Proof.
  unfold partially_matches.
  rewrite !andb_true_iff, negb_true_iff, bool_decide_eq_false, Nat.ltb_lt, existsb_exists.
  split.
  - intros [[H1 H2] (i & Hi & H3)]. split; [done|]. split; [done|]. exists i.
    apply andb_true_iff in H3 as [H3 H4]. apply Nat.ltb_lt in H3.
    apply orb_true_iff in H4. by rewrite list_elem_of_In.
  - intros (H1 & H2 & i & Hi & H3 & H4). split; [done|]. exists i.
    rewrite <- list_elem_of_In. split; [done|].
    apply andb_true_iff. split; [by apply Nat.ltb_lt | by apply orb_true_iff].
Qed.

Lemma truthy_iff x : Py.truthy x = true <-> x <> EmptyString.
Proof. destruct x; simpl; split; congruence. Qed.

Lemma skill_tokens_spec skills t :
  t ∈ skill_tokens skills
  <-> exists piece, piece ∈ Py.split "," skills
                    /\ Py.strip piece <> EmptyString
                    /\ t = Py.lower (Py.strip piece).
Proof.
  unfold skill_tokens. rewrite elem_of_list_to_set, list_elem_of_fmap. split.
  - intros (piece & -> & Hin). exists piece.
    apply list_elem_of_In, filter_In in Hin as [Hin Ht].
    split; [by apply list_elem_of_In|]. split; [by apply truthy_iff|done].
  - intros (piece & Hin & Hne & ->). exists piece. split; [done|].
    apply list_elem_of_In, filter_In. split; [by apply list_elem_of_In|].
    by apply truthy_iff.
Qed.

(** C4. The scorer splits both strings on commas, trims and lowercases the
    pieces and drops the empty ones; with an empty token set on either side
    it returns [(0, 0, 0.0)]; otherwise the exact count is the size of the
    intersection, the partial count is the number of user tokens (each
    token once) that are longer than two characters, are no exact match,
    and are a substring of, or contain, some posting token longer than two
    characters, and the relevance is
    [(exact * 1.0 + partial * 0.6) / |user tokens|], with no cap applied. *)
Theorem calculate_skill_relevance_spec user_skills internship_skills :
  let U := skill_tokens user_skills in
  let I := skill_tokens internship_skills in
  let E := U ∩ I in
  let partial_count :=
    length (List.filter (partially_matches E (elements I)) (elements U)) in
  (forall skills t,
     t ∈ skill_tokens skills
     <-> exists piece, piece ∈ Py.split "," skills
                       /\ Py.strip piece <> EmptyString
                       /\ t = Py.lower (Py.strip piece))
  /\ (U = ∅ \/ I = ∅ ->
      calculate_skill_relevance user_skills internship_skills
      = (0%nat, 0%nat, 0%float))
  /\ (U <> ∅ -> I <> ∅ ->
      calculate_skill_relevance user_skills internship_skills
      = (size E, partial_count,
         ((Py.float_of_nat (size E) * 1.0 + Py.float_of_nat partial_count * 0.6)
          / Py.float_of_nat (size U))%float))
  /\ NoDup (elements U)
  /\ (forall u,
        partially_matches E (elements I) u = true
        <-> (2 < Py.len u)%nat /\ (u ∉ E)
            /\ exists i, i ∈ I /\ (2 < Py.len i)%nat
                         /\ (Py.contains u i = true \/ Py.contains i u = true)).
Proof.
  intros U I E partial_count. split; [apply skill_tokens_spec|].
  split; [|split; [|split; [apply NoDup_elements|]]].
  - intros H. unfold calculate_skill_relevance. fold U I.
    destruct (decide (U = ∅)) as [HU|HU].
    + by rewrite (bool_decide_eq_true_2 _ HU).
    + destruct H as [H|H]; [done|].
      by rewrite (bool_decide_eq_false_2 _ HU), (bool_decide_eq_true_2 _ H).
  - intros HU HI. unfold calculate_skill_relevance. fold U I E.
    rewrite !bool_decide_eq_false_2 by done. simpl.
    rewrite count_partial_spec. simpl. fold partial_count.
    assert (Hpos : (0 <? size U)%nat = true).
    { apply Nat.ltb_lt. destruct (size U) eqn:Es; [|lia].
      by apply size_empty_iff, leibniz_equiv in Es. }
    by rewrite Hpos.
  - intros u. rewrite partially_matches_iff.
    split; intros (H1 & H2 & i & Hi & H3); (split; [done|]); (split; [done|]);
      exists i; (split; [|done]); by apply elem_of_elements.
Qed.

(** Each user token counts at most once, as an exact or as a partial match:
    the two counts together never exceed the number of user tokens. *)
Lemma exact_plus_partial_le_user_tokens (U I : gset string) (tokens : list string) :
  (size (U ∩ I)
   + length (List.filter (partially_matches (U ∩ I) tokens) (elements U))
   <= size U)%nat.
Proof.
  set (E := U ∩ I).
  set (picked := List.filter (partially_matches E tokens) (elements U)).
  assert (Hnd : NoDup (elements E ++ picked)).
  { apply NoDup_app. split; [apply NoDup_elements|]. split.
    - intros u Hu Hp. apply elem_of_elements in Hu.
      apply list_elem_of_In, filter_In in Hp as [_ Hp].
      apply partially_matches_iff in Hp as (_ & Hp & _). done.
    - apply NoDup_ListNoDup. unfold picked. apply List.NoDup_filter.
      apply NoDup_ListNoDup, NoDup_elements. }
  assert (Hsub : elements E ++ picked ⊆ elements U).
  { intros u [Hu|Hu]%elem_of_app.
    - apply elem_of_elements in Hu. apply elem_of_elements.
      subst E. by apply elem_of_intersection in Hu as [Hu _].
    - apply list_elem_of_In, filter_In in Hu as [Hu _]. by apply list_elem_of_In. }
  pose proof (submseteq_length _ _ (NoDup_submseteq _ _ Hnd (fun x => Hsub x))) as Hlen.
  rewrite length_app in Hlen. unfold size, set_size. simpl. exact Hlen.
Qed.

(** ** Posting identity *)

Lemma get_internship_id_spec internship :
  (id_truthy (p_id internship) = true ->
   exists i, p_id internship = Some i /\ get_internship_id internship = str_of_id i)
  /\ (id_truthy (p_id internship) = false ->
      get_internship_id internship
      = Py.lower (Py.replace_char " " "_"
          (get_str (p_title internship) +:+ "_" +:+ get_str (p_org internship)))).
Proof.
  unfold get_internship_id. destruct (p_id internship) as [i|].
  - split; intros H; rewrite H; [by exists i|done].
  - split; [done|]. done.
Qed.

(** Without a usable id the key of the merge is one character shorter than
    the key of the cache: they are never equal. *)
Lemma api_merge_key_without_id internship :
  id_truthy (p_id internship) = false ->
  api_merge_key internship <> IdStr (get_internship_id internship).
Proof.
  intros H. destruct (get_internship_id_spec internship) as [_ Hg].
  rewrite (Hg H). unfold api_merge_key.
  assert (Hlen : forall a b : string,
            a +:+ b <> Py.lower (Py.replace_char " " "_" (a +:+ "_" +:+ b))).
  { intros a b E. apply (f_equal String.length) in E.
    rewrite PyFacts.lower_length, PyFacts.replace_char_length, !PyFacts.append_length in E.
    simpl in E. lia. }
  destruct (p_id internship) as [i|]; [rewrite H|]; intros [= E]; by apply Hlen in E.
Qed.

(** An integer id is never found in a cache keyed by strings. *)
Lemma api_merge_key_int internship n embeddings :
  p_id internship = Some (IdInt n) -> n <> 0 ->
  lookup_key (api_merge_key internship) embeddings = None.
Proof.
  intros H Hn. unfold api_merge_key. rewrite H. simpl.
  by destruct (Z.eqb_spec n 0).
Qed.

(** ** A concrete catalogue *)

(** C1 (defect of the code).  [get_internship_id] returns the explicit id
    when there is one and the lowercased, underscored [title_org] otherwise,
    but the merge of [api_recommend] derives its key another way: for the
    posting without id titled "Data Analyst" at "Acme" the fill stores the
    vector under ["data_analyst_acme"], the merge looks for
    ["Data AnalystAcme"], and the posting is dropped from the merged list. *)
Theorem merge_key_differs_from_cache_key :
  get_internship_id Demo.analyst = "data_analyst_acme"%string
  /\ api_merge_key Demo.analyst = IdStr "Data AnalystAcme"
  /\ exists cache,
       fill_ret (precompute_doc_embeddings_new Demo.embed_documents
                   [Dict Demo.analyst] None) = Returned cache
       /\ cache !! "data_analyst_acme"%string = Some [0.6; 0.8]%float
       /\ lookup_key (api_merge_key Demo.analyst) cache = None
       /\ merge_embeddings [Demo.analyst] cache = [].
Proof.
  split; [reflexivity|]. split; [reflexivity|].
  exists {[ "data_analyst_acme"%string := [0.6; 0.8]%float ]}.
  split; [by vm_compute|]. split; [by vm_compute|]. split; by vm_compute.
Qed.

(** C2, refuted as stated: a catalogue with one eligible posting gives one
    recommendation, not three. *)
Lemma recommend_returns_fewer_than_three :
  ~ (3 <= length (out_result
       (recommend Demo.embed_query Demo.cosine [Dict Demo.analyst] [0%nat]
          "B.Tech" "python" "Delhi" 5)))%nat.
Proof. vm_compute. lia. Qed.

(** C5 on a catalogue of five admitted postings: the query embedding
    succeeds and all scores are numbers.  The sort moves the first posting
    behind three others, and the two analysts, whose scores are equal,
    keep the order of the list. *)
Lemma primary_scores_and_order_demo :
  let fs := scored_admitted Demo.cosine DemoRanking.catalogue DemoRanking.everything
              "b.tech" "Python, SQL" "delhi" [1; 0]%float in
  primary_spec Demo.embed_query Demo.cosine DemoRanking.catalogue DemoRanking.everything
    "b.tech" "Python, SQL" "delhi" 5 [1; 0]%float
  /\ Forall (fun item => FloatOrder.is_nan (sc_score item) = false) fs
  /\ (sc_internship <$> fs) = [0; 1; 2; 3; 4]%nat
  /\ (sc_internship <$> sort_by_score fs) = [1; 2; 3; 0; 4]%nat
  /\ (sc_score <$> fs !! 1%nat) = (sc_score <$> fs !! 2%nat).
Proof.
  split.
  - apply (primary_scores_and_order Demo.embed_query Demo.cosine DemoRanking.catalogue
             DemoRanking.everything "b.tech" "Python, SQL" "delhi" 5 [1; 0]%float).
    + by vm_compute.
    + reflexivity.
  - split; [vm_compute; repeat constructor|]. by vm_compute.
Defined.

(** The bound on [top_k] in C6 is needed: the slice [[-top_k:]] is the whole
    list for [top_k = 0], so a call with 0, which the program never makes,
    returns both survivors. *)
Example fallback_slice_at_zero :
  ~ (Z.of_nat (length (out_result
        (semantic_fallback_recommendation Demo.embed_query Demo.cosine
           Demo.catalogue Demo.everything "b.tech" "cobol" "delhi" 0)))
     = Z.min 0 (Z.of_nat (length
         (List.filter (survives Demo.cosine Demo.catalogue [1; 0]%float)
            Demo.everything)))).
Proof. vm_compute. discriminate. Qed.



(** *** The scenarios of the specification *)

Example gate_admits_java :
  admits [Dict (Demo.posting_of None "Dev" "Beta" "" "java" "" None)]
    "java, react" 0%nat = true.
Proof. vm_compute. reflexivity. Qed.

Example gate_rejects_cobol :
  admits [Dict (Demo.posting_of None "Dev" "Beta" "" "cobol" "" None)]
    "react" 0%nat = false.
Proof. vm_compute. reflexivity. Qed.

Example empty_skills_are_no_match :
  calculate_skill_relevance "" "" = (0%nat, 0%nat, 0%float)
  /\ admits [Dict (Demo.posting_of None "Dev" "Beta" "" "" "" None)] "" 0%nat = false.
Proof. split; vm_compute; reflexivity. Qed.

Example failed_query_gives_nothing :
  recommend Demo.no_query Demo.cosine Demo.catalogue Demo.everything
    "b.tech" "python" "delhi" 5
  = {| out_store := Demo.catalogue;
       out_calls := [EmbedQuery
         "Skills: python python python, Education: b.tech b.tech, Position: delhi"];
       out_result := [] |}.
Proof. vm_compute. reflexivity. Qed.

Example failed_fill_raises :
  fill_ret (precompute_doc_embeddings_new Demo.no_documents [Dict Demo.analyst] None)
  = Raised ProviderFailure.
Proof. vm_compute. reflexivity. Qed.

Example second_fill_is_silent :
  exists cache,
    fill_ret (precompute_doc_embeddings_new Demo.embed_documents
                [Dict Demo.analyst; Dict Demo.developer] None) = Returned cache
    /\ fill_calls (precompute_doc_embeddings_new Demo.embed_documents
                     [Dict Demo.analyst; Dict Demo.developer] (Some cache)) = [].
Proof.
  exists {[ "data_analyst_acme"%string := [0.6; 0.8]%float;
            "dev-1"%string := [0.6; 0.8]%float ]}.
  split; by vm_compute.
Qed.

Example fallback_marks_its_results :
  let o := recommend Demo.embed_query Demo.cosine Demo.catalogue Demo.everything
             "b.tech" "cobol" "delhi" 5 in
  out_result o = [4; 5]%nat
  /\ (p_match_details <$> dict_at (out_store o) 4%nat)
     = Some (Some (fallback_details 0.8))
  /\ (p_match_details <$> dict_at (out_store o) 5%nat)
     = Some (Some (fallback_details 0.6)).
Proof. vm_compute. repeat split. Qed.


Example refresh_on_changed_catalogue :
  let fs := {| internships_file :=
                 Stored {| content_hash := "h2";
                           content_json := Json [Dict Demo.analyst] |};
               embeddings_file :=
                 Stored (Json {| source_file_hash := Some "h1"%string;
                                 file_embeddings := ∅ |}) |} in
  let cache : gmap string vec := {[ "data_analyst_acme"%string := [0.6; 0.8]%float ]} in
  check_and_update_embeddings Demo.embed_documents fs (Some []) (Some ∅)
  = {| upd_calls := [EmbedDocuments [get_internship_text Demo.analyst]];
       upd_saved := Some {| source_file_hash := Some "h2"%string;
                            file_embeddings := cache |};
       upd_ret := Returned ([Dict Demo.analyst], cache, true) |}.
Proof. by vm_compute. Qed.

Example missing_catalogue_gives_nothing :
  check_and_update_embeddings Demo.embed_documents DemoFiles.nothing None None
  = {| upd_calls := []; upd_saved := None; upd_ret := Returned ([], ∅, false) |}.
Proof. by vm_compute. Qed.

Example garbled_catalogue_raises :
  check_and_update_embeddings Demo.embed_documents DemoFiles.garbled None None
  = {| upd_calls := []; upd_saved := None; upd_ret := Raised UnicodeDecodeError |}.
Proof. by vm_compute. Qed.

Example primary_path_on_the_demo_catalogue :
  let o := recommend Demo.embed_query Demo.cosine Demo.catalogue Demo.everything
             "b.tech" "Python, Java" "delhi" 5 in
  out_result o = [4; 5; 6]%nat
  /\ (p_title <$> dict_at (out_store o) 4%nat) = Some (Some "Data Analyst"%string)
  /\ (p_title <$> dict_at (out_store o) 5%nat) = Some (Some "Developer"%string)
  /\ (p_title <$> dict_at (out_store o) 6%nat) = Some (Some "Designer"%string)
  /\ (p_embedding <$> dict_at (out_store o) 4%nat) = Some None
  /\ (p_embedding <$> dict_at (out_store o) 1%nat) = Some (Some [0.8; 0.6]%float).
Proof. vm_compute. repeat split. Qed.

(** ** Strings: trimming and case *)

Lemma append_cons c (a b : string) : String c a +:+ b = String c (a +:+ b).
Proof. reflexivity. Qed.

Lemma append_assoc (a b c : string) : (a +:+ b) +:+ c = a +:+ b +:+ c.
Proof. induction a as [|x a IH]; [done|]. by rewrite !append_cons, IH. Qed.

Lemma rev_app_append a b : String.rev_app a b = String.rev a +:+ b.
Proof.
  unfold String.rev. revert b. induction a as [|c a IH]; intros b; simpl; [done|].
  rewrite (IH (String c b)), (IH (String c "")). by rewrite append_assoc.
Qed.

Lemma append_nil_r s : s +:+ "" = s.
Proof. induction s as [|c s IH]; [done|]. by rewrite append_cons, IH. Qed.

Lemma rev_cons c s : String.rev (String c s) = String.rev s +:+ String c "".
Proof. unfold String.rev at 1. simpl. apply rev_app_append. Qed.

Lemma rev_append a b : String.rev (a +:+ b) = String.rev b +:+ String.rev a.
Proof.
  induction a as [|c a IH].
  - by rewrite append_nil_r.
  - by rewrite append_cons, !rev_cons, IH, append_assoc.
Qed.

Lemma rev_involutive s : String.rev (String.rev s) = s.
Proof.
  induction s as [|c s IH]; [done|]. by rewrite rev_cons, rev_append, IH.
Qed.

Lemma all_space_append a b : all_space (a +:+ b) = all_space a && all_space b.
Proof.
  induction a as [|c a IH]; [done|]. rewrite append_cons. simpl.
  by rewrite IH, andb_assoc.
Qed.

Lemma all_space_rev s : all_space (String.rev s) = all_space s.
Proof.
  induction s as [|c s IH]; [done|].
  rewrite rev_cons, all_space_append, IH. simpl. rewrite andb_true_r. apply andb_comm.
Qed.

(** [lstrip] removes a run of whitespace from the front. *)
Lemma lstrip_split s :
  exists w, s = w +:+ Py.lstrip s /\ all_space w = true.
Proof.
  induction s as [|c s (w & Hw & Hs)]; simpl.
  - by exists "".
  - destruct (Py.is_space c) eqn:E.
    + exists (String c w). rewrite append_cons, <- Hw. simpl. by rewrite E, Hs.
    + by exists "".
Qed.

Lemma lstrip_starts_clean s : starts_clean (Py.lstrip s) = true.
Proof.
  induction s as [|c s IH]; simpl; [done|].
  destruct (Py.is_space c) eqn:E; [done|]. simpl. by rewrite E.
Qed.

Lemma lstrip_clean s : starts_clean s = true -> Py.lstrip s = s.
Proof. destruct s as [|c s]; simpl; [done|]. by destruct (Py.is_space c). Qed.

Lemma lstrip_empty_iff s : Py.lstrip s = EmptyString <-> all_space s = true.
Proof.
  induction s as [|c s IH]; simpl; [done|].
  destruct (Py.is_space c); simpl; [done|]. split; done.
Qed.

Lemma rev_empty_iff s : String.rev s = EmptyString <-> s = EmptyString.
Proof.
  split; [|by intros ->]. intros H. apply (f_equal String.rev) in H.
  by rewrite rev_involutive in H.
Qed.

(** [rstrip] removes a run of whitespace from the back. *)
Lemma rstrip_split s :
  exists w, s = Py.rstrip s +:+ w /\ all_space w = true.
Proof.
  destruct (lstrip_split (String.rev s)) as (w & Hw & Hs).
  exists (String.rev w). split; [|by rewrite all_space_rev].
  unfold Py.rstrip. rewrite <- rev_append, <- Hw. by rewrite rev_involutive.
Qed.

Lemma strip_empty_iff s : Py.strip s = EmptyString <-> all_space s = true.
Proof.
  unfold Py.strip, Py.rstrip.
  rewrite rev_empty_iff, lstrip_empty_iff, all_space_rev.
  destruct (lstrip_split s) as (w & Hw & Hs). split.
  - intros H. rewrite Hw, all_space_append, Hs, H. done.
  - intros H. apply lstrip_empty_iff in H. by rewrite H.
Qed.

Lemma lstrip_idempotent s : Py.lstrip (Py.lstrip s) = Py.lstrip s.
Proof. apply lstrip_clean, lstrip_starts_clean. Qed.

Lemma rstrip_idempotent s : Py.rstrip (Py.rstrip s) = Py.rstrip s.
Proof. unfold Py.rstrip. by rewrite rev_involutive, lstrip_idempotent. Qed.

Lemma rstrip_starts_clean s : starts_clean s = true -> starts_clean (Py.rstrip s) = true.
Proof.
  intros H. destruct (rstrip_split s) as (w & Hw & _).
  destruct (Py.rstrip s) as [|c r]; [done|]. by rewrite Hw in H.
Qed.

(** Trimming twice is trimming once. *)
Lemma strip_idempotent s : Py.strip (Py.strip s) = Py.strip s.
Proof.
  unfold Py.strip.
  rewrite (lstrip_clean (Py.rstrip (Py.lstrip s)))
    by apply rstrip_starts_clean, lstrip_starts_clean.
  apply rstrip_idempotent.
Qed.

Lemma lower_char_idempotent c : Py.lower_char (Py.lower_char c) = Py.lower_char c.
Proof. by destruct c as [[] [] [] [] [] [] [] []]. Qed.

Lemma is_space_lower_char c : Py.is_space (Py.lower_char c) = Py.is_space c.
Proof. by destruct c as [[] [] [] [] [] [] [] []]. Qed.

Lemma lower_char_comma c : Ascii.eqb (Py.lower_char c) "," = Ascii.eqb c ",".
Proof. by destruct c as [[] [] [] [] [] [] [] []]. Qed.

Lemma lower_idempotent s : Py.lower (Py.lower s) = Py.lower s.
Proof. induction s as [|c s IH]; simpl; [done|]. by rewrite lower_char_idempotent, IH. Qed.

Lemma lower_append a b : Py.lower (a +:+ b) = Py.lower a +:+ Py.lower b.
Proof.
  induction a as [|c a IH]; [done|]. rewrite append_cons. simpl.
  by rewrite append_cons, IH.
Qed.

Lemma lower_rev s : Py.lower (String.rev s) = String.rev (Py.lower s).
Proof.
  induction s as [|c s IH]; [done|]. simpl. by rewrite !rev_cons, lower_append, IH.
Qed.

Lemma lower_lstrip s : Py.lower (Py.lstrip s) = Py.lstrip (Py.lower s).
Proof.
  induction s as [|c s IH]; simpl; [done|]. rewrite is_space_lower_char.
  by destruct (Py.is_space c).
Qed.

Lemma lower_strip s : Py.lower (Py.strip s) = Py.strip (Py.lower s).
Proof. unfold Py.strip, Py.rstrip. by rewrite lower_rev, lower_lstrip, lower_rev, lower_lstrip. Qed.

Lemma truthy_lower s : Py.truthy (Py.lower s) = Py.truthy s.
Proof. by destruct s. Qed.

Lemma split_go_lower cur s :
  Py.split_go "," (Py.lower cur) (Py.lower s) = Py.lower <$> Py.split_go "," cur s.
Proof.
  revert cur. induction s as [|c s IH]; intros cur; simpl.
  - by rewrite lower_rev.
  - rewrite lower_char_comma. destruct (Ascii.eqb c ","); simpl.
    + rewrite lower_rev. f_equal. apply (IH EmptyString).
    + apply (IH (String c cur)).
Qed.

Lemma split_lower s : Py.split "," (Py.lower s) = Py.lower <$> Py.split "," s.
Proof. apply (split_go_lower EmptyString). Qed.

(** ** The text of a posting *)

Lemma all_space_head s c t : s = String c t -> all_space s = true -> Py.is_space c = true.
Proof. intros -> H. simpl in H. by apply andb_true_iff in H as [? _]. Qed.

(** The guard [if text:] of the fill never skips a posting. *)
Lemma text_truthy internship : Py.truthy (get_internship_text internship) = true.
Proof.
  destruct (Py.truthy (get_internship_text internship)) eqn:E; [done|].
  assert (H : get_internship_text internship = EmptyString).
  { by destruct (get_internship_text internship). }
  unfold get_internship_text in H. apply strip_empty_iff in H.
  by apply (all_space_head _ "P" _ eq_refl) in H.
Qed.

(** X1. The text made for a posting is never empty, whatever keys the
    posting has: the guard of the fill on an empty text never skips a
    posting, and a cache is complete for a catalogue exactly when it has a
    key for the id of every dict of the catalogue. *)
Theorem get_internship_text_nonempty internship :
  get_internship_text internship <> EmptyString
  /\ Py.truthy (get_internship_text internship) = true
  /\ forall internships cache,
       complete internships cache
       <-> forall p, Dict p ∈ internships -> is_Some (cache !! get_internship_id p).
Proof.
  split; [|split].
  - pose proof (text_truthy internship) as H.
    by destruct (get_internship_text internship).
  - apply text_truthy.
  - intros internships cache. unfold complete. split.
    + intros H p Hp. apply H; [done|apply text_truthy].
    + intros H p Hp _. by apply H.
Qed.

(** ** The fill in closed form *)

Lemma dicts_elem_of internships p : p ∈ dicts internships <-> Dict p ∈ internships.
Proof.
  unfold dicts. rewrite list_elem_of_omap. split.
  - intros ([q|] & Hin & [= <-]). done.
  - intros H. by exists (Dict p).
Qed.

Lemma uncached_elem_of internships cache p :
  p ∈ uncached internships cache
  <-> Dict p ∈ internships /\ cache !! get_internship_id p = None.
Proof.
  unfold uncached. rewrite list_elem_of_In, filter_In, <- list_elem_of_In.
  by rewrite dicts_elem_of, bool_decide_eq_true.
Qed.

(** The first loop of the fill collects every uncached dict posting. *)
Lemma find_missing_uncached internships cache :
  find_missing internships cache
  = (get_internship_text <$> uncached internships cache,
     get_internship_id <$> uncached internships cache).
Proof.
  unfold uncached.
  induction internships as [|[p|] rest IH]; simpl; [done| |done].
  rewrite text_truthy, IH.
  destruct (cache !! get_internship_id p) as [v|] eqn:E.
  - rewrite bool_decide_eq_true_2 by by eexists. by rewrite bool_decide_eq_false_2.
  - rewrite bool_decide_eq_false_2 by by intros [? [=]]. by rewrite bool_decide_eq_true_2.
Qed.

Lemma write_pairs_app a b cache :
  write_pairs (a ++ b) cache = write_pairs b (write_pairs a cache).
Proof. apply foldl_app. Qed.

Lemma write_pairs_lookup_other pairs cache k :
  k ∉ pairs.*1 -> write_pairs pairs cache !! k = cache !! k.
Proof.
  revert cache. induction pairs as [|[k0 v0] pairs IH]; intros cache Hk; [done|].
  simpl in *. apply not_elem_of_cons in Hk as [Hne Hk].
  unfold write_pairs in *. simpl. rewrite IH by done. by rewrite lookup_insert_ne.
Qed.

Lemma write_pairs_lookup_last pre k v post cache :
  k ∉ post.*1 -> write_pairs (pre ++ (k, v) :: post) cache !! k = Some v.
Proof.
  intros Hk. rewrite write_pairs_app. unfold write_pairs at 1. simpl.
  fold (write_pairs post (<[k:=v]> (write_pairs pre cache))).
  rewrite write_pairs_lookup_other by done. by rewrite lookup_insert_eq.
Qed.

(** The merge loop in closed form: it writes the pairs of ids and vectors
    in order, and runs out of ids when there are more vectors than ids. *)
Lemma merge_new_write_pairs ids i new cache :
  merge_new ids i new cache
  = (write_pairs (zip (drop i ids) new) cache,
     if (length new <=? length ids - i)%nat then None else Some IndexError).
Proof.
  revert i cache. induction new as [|v new IH]; intros i cache; simpl.
  - by rewrite zip_with_nil_r.
  - destruct (ids !! i) as [k|] eqn:E.
    + rewrite IH. rewrite (drop_S _ _ _ E). simpl.
      apply lookup_lt_Some in E.
      by replace (length ids - i)%nat with (S (length ids - S i)) by lia.
    + apply lookup_ge_None in E. rewrite drop_ge by done.
      by replace (length ids - i)%nat with 0%nat by lia.
Qed.

Section FillFacts.

Variable embed_documents : list string -> option (list vec).

Lemma fill_closed internships existing :
  let cache := default ∅ existing in
  let todo := uncached internships cache in
  let docs := get_internship_text <$> todo in
  precompute_doc_embeddings_new embed_documents internships existing
  = match todo with
    | [] => {| fill_calls := []; fill_dict := cache; fill_ret := Returned cache |}
    | _ =>
        match embed_documents docs with
        | None =>
            {| fill_calls := [EmbedDocuments docs]; fill_dict := cache;
               fill_ret := Raised ProviderFailure |}
        | Some new_embeddings =>
            let merged :=
              write_pairs (zip (get_internship_id <$> todo) new_embeddings) cache in
            {| fill_calls := [EmbedDocuments docs]; fill_dict := merged;
               fill_ret := if (length new_embeddings <=? length todo)%nat
                           then Returned merged else Raised IndexError |}
        end
    end.
Proof.
  cbv zeta. unfold precompute_doc_embeddings_new.
  destruct internships as [|o rest] eqn:Ei; [done|]. rewrite <- Ei. clear Ei.
  rewrite find_missing_uncached.
  set (cache := default ∅ existing). set (todo := uncached internships cache).
  assert (Hlen : length (get_internship_text <$> todo) = length todo)
    by apply length_fmap.
  destruct todo as [|p todo'] eqn:Et; [done|]. rewrite <- Et in *.
  destruct (get_internship_text <$> todo) as [|d docs] eqn:Ed.
  { by rewrite Et in Hlen. }
  rewrite <- Ed. destruct (embed_documents _) as [vs|]; [|done].
  rewrite merge_new_write_pairs, drop_0, length_fmap, Nat.sub_0_r.
  by destruct (length vs <=? length todo)%nat.
Qed.

Lemma uncached_empty_cache internships : uncached internships ∅ = dicts internships.
Proof.
  unfold uncached. induction (dicts internships) as [|p ps IH]; simpl; [done|].
  by rewrite lookup_empty, bool_decide_eq_true_2, IH.
Qed.

Lemma fill_calls_closed internships existing :
  fill_calls (precompute_doc_embeddings_new embed_documents internships existing)
  = match uncached internships (default ∅ existing) with
    | [] => []
    | _ => [EmbedDocuments
              (get_internship_text <$> uncached internships (default ∅ existing))]
    end.
Proof.
  rewrite fill_closed. cbv zeta.
  destruct (uncached internships (default ∅ existing)); [done|].
  by destruct (embed_documents _).
Qed.

(** X2. The fill asks the provider at most once.  It asks exactly when some
    dict posting of the catalogue has an id that is no key of the cache, and
    then for the texts of all such postings, in the order of the catalogue,
    a posting that shares its id with an earlier one included.  With an
    empty cache, as in a forced recomputation, these are all dict postings. *)
Theorem fill_sends_every_uncached_posting internships existing :
  let todo := uncached internships (default ∅ existing) in
  (forall p, p ∈ todo
             <-> Dict p ∈ internships
                 /\ default ∅ existing !! get_internship_id p = None)
  /\ fill_calls (precompute_doc_embeddings_new embed_documents internships existing)
     = match todo with
       | [] => []
       | _ => [EmbedDocuments (get_internship_text <$> todo)]
       end
  /\ fill_calls (precompute_doc_embeddings_new embed_documents internships (Some ∅))
     = match dicts internships with
       | [] => []
       | _ => [EmbedDocuments (get_internship_text <$> dicts internships)]
       end.
Proof.
  intros todo. split; [intros p; apply uncached_elem_of|]. split.
  - apply fill_calls_closed.
  - rewrite fill_calls_closed. simpl default. by rewrite uncached_empty_cache.
Qed.

Lemma uncached_ids_fresh internships cache (vs : list vec) k :
  k ∈ (zip (get_internship_id <$> uncached internships cache) vs).*1 ->
  cache !! k = None.
Proof.
  intros Hk. apply list_elem_of_fmap in Hk as ([k' v] & -> & Hin).
  apply elem_of_zip_l, list_elem_of_fmap in Hin as (p & -> & Hp).
  by apply uncached_elem_of in Hp as [_ ?].
Qed.

(** X3. The fill never drops and never overwrites a vector of the cache it
    is given, whatever the provider does: the dict it leaves behind extends
    the given one. *)
Theorem fill_keeps_cached_vectors internships existing :
  default ∅ existing
  ⊆ fill_dict (precompute_doc_embeddings_new embed_documents internships existing).
Proof.
  rewrite fill_closed. cbv zeta.
  destruct (uncached internships (default ∅ existing)) as [|p todo] eqn:Et; [done|].
  rewrite <- Et. destruct (embed_documents _) as [vs|]; [|done]. simpl.
  apply map_subseteq_spec. intros k v Hk.
  rewrite write_pairs_lookup_other; [done|].
  intros Hin. apply uncached_ids_fresh in Hin. congruence.
Qed.

(** X4. The fill does not compare the number of vectors of the answer with
    the number of texts it sent.  It writes the vectors to the ids in
    order; an answer with too few vectors is accepted and the fill returns,
    leaving the postings beyond the answer without vector; only an answer
    with too many vectors fails, with an [IndexError], after the dict has
    been updated. *)
Theorem fill_accepts_short_answers internships existing new_embeddings :
  let cache := default ∅ existing in
  let todo := uncached internships cache in
  let o := precompute_doc_embeddings_new embed_documents internships existing in
  todo <> [] ->
  embed_documents (get_internship_text <$> todo) = Some new_embeddings ->
  fill_dict o = write_pairs (zip (get_internship_id <$> todo) new_embeddings) cache
  /\ ((length new_embeddings <= length todo)%nat -> fill_ret o = Returned (fill_dict o))
  /\ ((length todo < length new_embeddings)%nat -> fill_ret o = Raised IndexError)
  /\ (forall p, p ∈ todo ->
        (forall i q, (i < length new_embeddings)%nat -> todo !! i = Some q ->
                     get_internship_id q <> get_internship_id p) ->
        fill_dict o !! get_internship_id p = None).
Proof.
  intros cache todo o Hne Hp. subst o. rewrite fill_closed. cbv zeta.
  fold cache. fold todo. destruct todo as [|p0 todo0] eqn:Et; [done|].
  rewrite <- Et in *. rewrite Hp. simpl. split; [done|]. split; [|split].
  - intros H. by rewrite (proj2 (Nat.leb_le _ _) H).
  - intros H. by rewrite (proj2 (Nat.leb_gt _ _) H).
  - intros p Hin Hfresh. rewrite write_pairs_lookup_other.
    + by apply uncached_elem_of in Hin as [_ ?].
    + intros Hk. apply list_elem_of_fmap in Hk as ([k v] & Hkv & Hz). simpl in Hkv.
      apply list_elem_of_lookup in Hz as [i Hi].
      apply lookup_zip_with_Some in Hi as (k' & v' & [= <- <-] & Hid & Hv).
      rewrite list_lookup_fmap in Hid.
      destruct (todo !! i) as [q|] eqn:Eq; [|done]. injection Hid as Hid.
      apply lookup_lt_Some in Hv. apply (Hfresh i q Hv Eq). congruence.
Qed.

(** X5. When two postings of one fill share an id, the vector of the later
    one is the one the cache keeps: the vector at position [j] of the
    answer ends up under the id of the [j]-th text unless a later text of
    the answer has the same id. *)
Theorem fill_last_vector_wins internships existing new_embeddings j p v :
  let todo := uncached internships (default ∅ existing) in
  let o := precompute_doc_embeddings_new embed_documents internships existing in
  embed_documents (get_internship_text <$> todo) = Some new_embeddings ->
  todo !! j = Some p ->
  new_embeddings !! j = Some v ->
  (forall i q, (j < i < length new_embeddings)%nat -> todo !! i = Some q ->
               get_internship_id q <> get_internship_id p) ->
  fill_dict o !! get_internship_id p = Some v.
Proof.
  intros todo o Hp Hj Hv Hlast. subst o. rewrite fill_closed. cbv zeta. fold todo.
  destruct todo as [|p0 todo0] eqn:Et; [done|]. rewrite <- Et in *. rewrite Hp. simpl.
  set (ids := get_internship_id <$> todo).
  assert (Hid : ids !! j = Some (get_internship_id p)).
  { subst ids. by rewrite list_lookup_fmap, Hj. }
  assert (Hz : zip ids new_embeddings !! j = Some (get_internship_id p, v)).
  { apply lookup_zip_with_Some. by exists (get_internship_id p), v. }
  rewrite <- (take_drop_middle _ _ _ Hz).
  apply write_pairs_lookup_last.
  intros Hk. apply list_elem_of_fmap in Hk as ([k w] & Hkw & Hin). simpl in Hkw.
  apply list_elem_of_lookup in Hin as [i Hi]. rewrite lookup_drop in Hi.
  apply lookup_zip_with_Some in Hi as (k' & w' & [= <- <-] & Hk' & Hw).
  subst ids. rewrite list_lookup_fmap in Hk'.
  destruct (todo !! (S j + i)%nat) as [q|] eqn:Eq; [|done]. injection Hk' as Hk'.
  apply lookup_lt_Some in Hw.
  apply (Hlast (S j + i)%nat q); [lia|done|congruence].
Qed.

End FillFacts.

(** ** Refreshing the cache, again *)

Section RefreshFacts.

Variable embed_documents : list string -> option (list vec).

(** A check that reports a refresh went through the reload, on a catalogue
    that is not empty. *)
Lemma refreshed_run fs cached_internships cached_embeddings ci ce :
  let o := check_and_update_embeddings embed_documents fs
             cached_internships cached_embeddings in
  upd_ret o = Returned (ci, ce, true) ->
  load_internships fs = Returned ci /\ ci <> []
  /\ upd_saved o = Some {| source_file_hash := get_file_hash fs; file_embeddings := ce |}
  /\ exists existing,
       load_embeddings fs = Returned existing
       /\ fill_ret (precompute_doc_embeddings_new embed_documents ci (Some existing))
          = Returned ce
       /\ upd_calls o = fill_calls (precompute_doc_embeddings_new embed_documents ci
                                      (Some existing)).
Proof.
  intros o. subst o. unfold check_and_update_embeddings.
  assert (Hreload : forall h,
            upd_ret (reload_and_recompute embed_documents fs h) = Returned (ci, ce, true) ->
            load_internships fs = Returned ci /\ ci <> []
            /\ upd_saved (reload_and_recompute embed_documents fs h)
               = Some {| source_file_hash := h; file_embeddings := ce |}
            /\ exists existing,
                 load_embeddings fs = Returned existing
                 /\ fill_ret (precompute_doc_embeddings_new embed_documents ci
                                (Some existing)) = Returned ce
                 /\ upd_calls (reload_and_recompute embed_documents fs h)
                    = fill_calls (precompute_doc_embeddings_new embed_documents ci
                                    (Some existing))).
  { intros h Hret.
    destruct (reload_returns _ _ _ _ _ _ Hret)
      as [([=] & _)|(_ & Hne & Hl & existing & He & Hfill & ->)].
    split; [done|]. split; [done|]. split; [done|]. by exists existing. }
  destruct cached_internships as [ci'|], cached_embeddings as [ce'|];
    try apply Hreload.
  destruct (bool_decide _); [done|apply Hreload].
Qed.

(** The check that follows a refresh whose write went through. *)
Lemma check_after_refresh fs cached_internships cached_embeddings ci ce :
  let o := check_and_update_embeddings embed_documents fs
             cached_internships cached_embeddings in
  upd_ret o = Returned (ci, ce, true) ->
  check_and_update_embeddings embed_documents (after_update fs o) (Some ci) (Some ce)
  = {| upd_calls := []; upd_saved := None; upd_ret := Returned (ci, ce, false) |}.
Proof.
  intros o Hret. destruct (refreshed_run _ _ _ _ _ Hret) as (_ & _ & Hsaved & _).
  fold o in Hsaved.
  unfold after_update. rewrite Hsaved. unfold check_and_update_embeddings.
  by rewrite bool_decide_eq_true_2.
Qed.

(** X6. A refresh is stable.  When a check reports a refresh and its write
    of the cache file went through, the next check, given the values the
    first one returned, returns them as they are, reports no refresh, asks
    the provider nothing and writes nothing. *)
Theorem refresh_is_stable fs cached_internships cached_embeddings ci ce :
  let o := check_and_update_embeddings embed_documents fs
             cached_internships cached_embeddings in
  upd_ret o = Returned (ci, ce, true) ->
  check_and_update_embeddings embed_documents (after_update fs o) (Some ci) (Some ce)
  = {| upd_calls := []; upd_saved := None; upd_ret := Returned (ci, ce, false) |}.
Proof. apply check_after_refresh. Qed.

(** X7. A cache file written by [save_embeddings] records no hash of the
    catalogue.  So the check that follows a forced recomputation, or a
    cleaning, always takes the slow path when the catalogue can be read,
    whatever is cached in memory: with a complete cache it asks the
    provider nothing, but it reports a refresh, returns the catalogue and
    the vectors of the file, and writes the file again, now with the hash. *)
Theorem plain_save_forces_refresh fs f internships embeddings_dict
    cached_internships cached_embeddings :
  internships_file fs = Stored f ->
  content_json f = Json internships ->
  internships <> [] ->
  complete internships embeddings_dict ->
  check_and_update_embeddings embed_documents
    (write_embeddings fs (save_embeddings embeddings_dict))
    cached_internships cached_embeddings
  = {| upd_calls := [];
       upd_saved := Some {| source_file_hash := Some (content_hash f);
                            file_embeddings := embeddings_dict |};
       upd_ret := Returned (internships, embeddings_dict, true) |}.
Proof.
  intros Hf Hj Hne Hc.
  set (fs' := write_embeddings fs (save_embeddings embeddings_dict)).
  assert (Hload : load_internships fs' = Returned internships).
  { unfold load_internships. simpl. by rewrite Hf, Hj. }
  assert (Hhash : get_file_hash fs' = Some (content_hash f)).
  { unfold get_file_hash. simpl. by rewrite Hf. }
  rewrite check_and_update_reloads.
  2:{ left. rewrite Hhash. done. }
  rewrite (reload_nonempty _ _ _ _ embeddings_dict Hload Hne eq_refl).
  cbv zeta. rewrite Hhash.
  by rewrite (fill_complete _ _ _ Hc).
Qed.

End RefreshFacts.

(** ** The scorer and the case of the letters *)

Lemma skill_tokens_lower skills : skill_tokens (Py.lower skills) = skill_tokens skills.
Proof.
  unfold skill_tokens. rewrite split_lower. f_equal.
  induction (Py.split "," skills) as [|x l IH]; [done|].
  rewrite fmap_cons. simpl List.filter. rewrite <- lower_strip, truthy_lower.
  destruct (Py.truthy (Py.strip x)); [|exact IH].
  rewrite !fmap_cons, IH. by rewrite <- lower_strip, lower_idempotent.
Qed.

Lemma normalize_lower x : normalize (Py.lower x) = Py.lower (normalize x).
Proof.
  unfold normalize. rewrite truthy_lower. destruct (Py.truthy x); [|done].
  by rewrite lower_strip.
Qed.

Lemma skill_gate_tokens s skills skills' i internships :
  skill_tokens skills = skill_tokens skills' ->
  skill_gate s skills i internships = skill_gate s skills' i internships.
Proof.
  intros H. revert i. induction internships as [|l rest IH]; intros i; simpl; [done|].
  destruct (dict_at s l) as [p|]; [|done].
  unfold calculate_skill_relevance. rewrite H. by rewrite !IH.
Qed.

(** X8. The scorer and the gate ignore the case of the letters: lowercasing
    either skill string changes none of the three numbers of the scorer,
    and lowercasing the user's skills changes nothing in what the gate
    admits. *)
Theorem scorer_ignores_case user_skills internship_skills :
  calculate_skill_relevance (Py.lower user_skills) internship_skills
  = calculate_skill_relevance user_skills internship_skills
  /\ calculate_skill_relevance user_skills (Py.lower internship_skills)
     = calculate_skill_relevance user_skills internship_skills
  /\ forall s internships,
       admitted s internships (Py.lower user_skills) = admitted s internships user_skills.
Proof.
  unfold calculate_skill_relevance. rewrite !skill_tokens_lower.
  split; [done|]. split; [done|]. intros s internships. unfold admitted.
  apply skill_gate_tokens. by rewrite normalize_lower, skill_tokens_lower.
Qed.

(** X9. The two counts of the scorer never add up to more than the number
    of user tokens, and the exact count is at most the number of posting
    tokens: a user token counts once, as an exact or as a partial match. *)
Theorem skill_counts_bounded user_skills internship_skills :
  let '(exact_matches, partial_matches, _) :=
    calculate_skill_relevance user_skills internship_skills in
  (exact_matches + partial_matches <= size (skill_tokens user_skills))%nat
  /\ (exact_matches <= size (skill_tokens internship_skills))%nat.
Proof.
  unfold calculate_skill_relevance.
  destruct (bool_decide _ || bool_decide _); [simpl; lia|].
  rewrite count_partial_spec. simpl. split.
  - apply exact_plus_partial_le_user_tokens.
  - apply subseteq_size. intros x Hx. by apply elem_of_intersection in Hx as [_ ?].
Qed.

(** ** What [recommend] makes of its arguments *)

Lemma normalize_strip x : normalize (Py.strip x) = normalize x.
Proof.
  unfold normalize. destruct x as [|c x]; [done|]. simpl Py.truthy at 2. cbv iota.
  destruct (Py.truthy (Py.strip (String c x))) eqn:E.
  - apply strip_idempotent.
  - by destruct (Py.strip (String c x)).
Qed.

Lemma clamp_top_k_idempotent top_k : clamp_top_k (clamp_top_k top_k) = clamp_top_k top_k.
Proof. unfold clamp_top_k. lia. Qed.

Section Arguments.

Variable embed_query : string -> option vec.
Variable cosine_similarity : vec -> vec -> option float.

(** X10. [recommend] sees its three strings trimmed and its [top_k]
    clamped, and nothing else of them: whitespace around the education, the
    skills or the location, and a [top_k] below 3 or above 7 instead of 3
    or 7, change neither the provider call, nor the store, nor the
    answer. *)
Theorem recommend_normalizes_its_arguments s internships education skills location top_k :
  recommend embed_query cosine_similarity s internships
    (Py.strip education) (Py.strip skills) (Py.strip location) (clamp_top_k top_k)
  = recommend embed_query cosine_similarity s internships
      education skills location top_k.
Proof.
  unfold recommend. by rewrite !normalize_strip, clamp_top_k_idempotent.
Qed.

End Arguments.

(** ** The length of the answer *)

Section AnswerLength.

Variable embed_query : string -> option vec.
Variable cosine_similarity : vec -> vec -> option float.

Lemma admitted_length s internships skills :
  (length (admitted s internships skills) <= length internships)%nat.
Proof.
  unfold admitted.
  rewrite <- (length_fmap rel_ref), skill_gate_refs. apply List.filter_length_le.
Qed.

(** Never more than seven results, and never more than postings given. *)
Lemma recommend_result_length s internships education skills location top_k :
  (length (out_result (recommend embed_query cosine_similarity s internships
                         education skills location top_k))
   <= Nat.min 7 (length internships))%nat.
Proof.
  pose proof (clamp_top_k_range top_k) as Hk.
  destruct (decide (internships = [])) as [->|Hne]; [cbn; lia|].
  destruct (decide (admitted s internships skills = [])) as [Ha|Ha].
  - rewrite (recommend_fallback _ _ _ _ _ _ _ _ Hne Ha).
    destruct (query_vector embed_query
                (fallback_query (normalize education) (normalize skills)))
      as [q_vec|] eqn:Eq.
    + pose proof (fallback_count embed_query cosine_similarity s internships
                    (normalize education) (normalize skills) (normalize location)
                    (clamp_top_k top_k) q_vec ltac:(lia) Eq) as Hc.
      pose proof (List.filter_length_le (survives cosine_similarity s q_vec) internships).
      lia.
    + unfold semantic_fallback_recommendation. rewrite Eq. cbn [out_result length]. lia.
  - destruct (query_vector embed_query (query_of education skills location))
      as [q_vec|] eqn:Eq.
    + rewrite (recommend_primary _ _ _ _ _ _ _ _ _ Ha Eq). cbv zeta. cbn [out_result].
      rewrite build_results_length by apply primary_items_dicts.
      pose proof (primary_items_length cosine_similarity s internships education
                    skills location top_k q_vec).
      pose proof (admitted_length s internships skills). lia.
    + rewrite (recommend_primary_failed _ _ _ _ _ _ _ _ Ha Eq). cbn [out_result length]. lia.
Qed.

End AnswerLength.

(** ** The API *)

Lemma all_dicts_Some internships postings :
  all_dicts internships = Some postings -> internships = Dict <$> postings.
Proof.
  unfold all_dicts. intros H. apply mapM_Some in H.
  induction H as [|[p|] q l k Hq _ IH]; simpl; [done| |done].
  injection Hq as <-. by rewrite IH.
Qed.

Lemma merge_embeddings_elem_of internships embeddings x :
  x ∈ merge_embeddings internships embeddings
  <-> exists q v, q ∈ internships
                  /\ lookup_key (api_merge_key q) embeddings = Some v
                  /\ x = with_embedding v q.
Proof.
  induction internships as [|p rest IH]; simpl.
  - split; [by intros ?%elem_of_nil|]. by intros (q & v & ?%elem_of_nil & _).
  - destruct (lookup_key (api_merge_key p) embeddings) as [v|] eqn:E.
    + rewrite elem_of_cons, IH. split.
      * intros [->|(q & w & Hq & Hw & ->)].
        -- exists p, v. split; [apply list_elem_of_here|done].
        -- exists q, w. split; [by apply list_elem_of_further|done].
      * intros (q & w & Hq & Hw & ->). apply elem_of_cons in Hq as [->|Hq].
        -- left. congruence.
        -- right. by exists q, w.
    + rewrite IH. split.
      * intros (q & w & Hq & Hw & ->). exists q, w.
        split; [by apply list_elem_of_further|done].
      * intros (q & w & Hq & Hw & ->). apply elem_of_cons in Hq as [->|Hq]; [congruence|].
        by exists q, w.
Qed.

Lemma merge_embeddings_length internships embeddings :
  (length (merge_embeddings internships embeddings) <= length internships)%nat.
Proof.
  induction internships as [|p rest IH]; simpl; [done|].
  destruct (lookup_key _ _); simpl; lia.
Qed.

Lemma write_pairs_size pairs cache :
  (size (write_pairs pairs cache) <= size cache + length pairs)%nat.
Proof.
  revert cache. induction pairs as [|[k v] pairs IH]; intros cache; simpl; [lia|].
  unfold write_pairs in *. simpl. specialize (IH (<[k:=v]> cache)).
  rewrite map_size_insert in IH. destruct (cache !! k); simpl in IH; lia.
Qed.

Lemma write_pairs_lookup_Some pairs cache k v :
  write_pairs pairs cache !! k = Some v -> k ∈ pairs.*1 \/ cache !! k = Some v.
Proof.
  intros H. destruct (decide (k ∈ pairs.*1)) as [|Hn]; [by left|].
  right. by rewrite write_pairs_lookup_other in H.
Qed.

Lemma dicts_length internships : (length (dicts internships) <= length internships)%nat.
Proof. induction internships as [|[p|] rest IH]; simpl; lia. Qed.

Section ApiFacts.

Variable embed_documents : list string -> option (list vec).
Variable embed_query : string -> option vec.
Variable cosine_similarity : vec -> vec -> option float.


Lemma decorate_id score m v q : p_id (decorate score m (with_embedding v q)) = p_id q.
Proof. reflexivity. Qed.

(** X12. A successful answer of [api_recommend].  Its three counts are
    ordered: no more recommendations than merged postings, no more merged
    postings than postings, and never more than seven recommendations.
    Every recommendation is the decorated copy of a cached posting whose
    merge key, the id itself or title and organisation glued together, is
    a key of the cached vectors; so a posting with an integer id other
    than 0 is never recommended. *)
Theorem api_recommend_answer fs st education skills location top_k body :
  app_ret (api_recommend embed_documents embed_query cosine_similarity fs st
             education skills location top_k) = Ok body ->
  exists internships embeddings,
    app_ret (get_current_data embed_documents fs st)
    = Returned (Some internships, Some embeddings)
    /\ total_internships body = length internships
    /\ (returned_recommendations body <= internships_with_embeddings body)%nat
    /\ (internships_with_embeddings body <= total_internships body)%nat
    /\ (returned_recommendations body <= 7)%nat
    /\ length (recommendations body) = returned_recommendations body
    /\ Forall (fun r =>
                 (exists q v score m,
                    Dict q ∈ internships
                    /\ lookup_key (api_merge_key q) embeddings = Some v
                    /\ r = decorate score m (with_embedding v q))
                 /\ forall n, p_id r = Some (IdInt n) -> n = 0)
         (recommendations body).
Proof.
  unfold api_recommend, api_recommend_body. simpl.
  destruct (app_ret (get_current_data embed_documents fs st))
    as [[internships embeddings]|e] eqn:Eg; [|done].
  destruct internships as [[|o rest]|]; try done.
  destruct embeddings as [embeddings|]; [|done].
  simpl. destruct (bool_decide (embeddings = ∅)); [done|]. simpl.
  unfold merge_cached.
  destruct (all_dicts (o :: rest)) as [postings|] eqn:Ed; [|done].
  apply all_dicts_Some in Ed. simpl fmap. cbv beta iota.
  set (merged := merge_embeddings postings embeddings).
  set (s := Dict <$> merged).
  set (out := recommend embed_query cosine_similarity s (seq 0 (length s))
                education skills location top_k).
  intros [= <-]. exists (o :: rest), embeddings. simpl recommendations.
  simpl total_internships. simpl internships_with_embeddings.
  simpl returned_recommendations.
  pose proof (recommend_result_length embed_query cosine_similarity s
                (seq 0 (length s)) education skills location top_k) as Hlen.
  fold out in Hlen.
  assert (Hs : length s = length merged) by apply length_fmap.
  rewrite length_seq, Hs in Hlen.
  pose proof (merge_embeddings_length postings embeddings) as Hm. fold merged in Hm.
  assert (Hp : length postings = length (o :: rest)).
  { by rewrite Ed, length_fmap. }
  destruct (recommend_frame_ok embed_query cosine_similarity s (seq 0 (length s))
              education skills location top_k) as [_ Hres].
  fold out in Hres.
  assert (Hcopy : forall r, r ∈ out_result out ->
            exists q v score m,
              Dict q ∈ o :: rest
              /\ lookup_key (api_merge_key q) embeddings = Some v
              /\ dict_at (out_store out) r
                 = Some (decorate score m (with_embedding v q))).
  { intros r Hr. destruct (Hres r Hr) as (_ & l & p & score & m & _ & Hl & Hd).
    assert (Hin : p ∈ merged).
    { unfold dict_at, s in Hl. rewrite list_lookup_fmap in Hl.
      destruct (merged !! l) as [p'|] eqn:El; [|done]. injection Hl as <-.
      by eapply list_elem_of_lookup_2. }
    apply merge_embeddings_elem_of in Hin as (q & v & Hq & Hv & ->).
    exists q, v, score, m. split; [|done]. rewrite Ed.
    by apply list_elem_of_fmap_2. }
  simpl in Hp |- *.
  split; [done|]. split; [done|]. split; [lia|]. split; [lia|]. split; [lia|]. split.
  - clear -Hcopy. induction (out_result out) as [|r rs IH]; [done|]. simpl.
    destruct (Hcopy r) as (q & v & score & m & _ & _ & ->); [apply list_elem_of_here|].
    simpl. f_equal. apply IH. intros r' Hr'. apply Hcopy. by apply list_elem_of_further.
  - apply Forall_forall. intros x Hx.
    apply list_elem_of_omap in Hx as (r & Hr & Hx).
    destruct (Hcopy r Hr) as (q & v & score & m & Hq & Hv & Hd).
    rewrite Hd in Hx. injection Hx as <-. split; [by exists q, v, score, m|].
    intros n Hn. rewrite decorate_id in Hn.
    destruct (Z.eq_dec n 0) as [|Hne]; [done|].
    by rewrite (api_merge_key_int q n embeddings Hn Hne) in Hv.
Qed.

(** A check on a catalogue that loads as the empty list reports no
    refresh. *)
Lemma check_without_catalogue fs ci ce :
  load_internships fs = Returned [] ->
  exists internships embeddings,
    check_and_update_embeddings embed_documents fs ci ce
    = {| upd_calls := []; upd_saved := None;
         upd_ret := Returned (internships, embeddings, false) |}
    /\ (ci = None -> internships = [] /\ embeddings = ∅).
Proof.
  intros Hload. unfold check_and_update_embeddings.
  rewrite (reload_empty _ _ _ Hload).
  destruct ci as [ci|], ce as [ce|]; try (by exists [], ∅).
  destruct (bool_decide _); [by exists ci, ce|by exists [], ∅].
Qed.

Lemma get_current_data_keeps_loaded_data_aux fs st :
  load_internships fs = Returned [] ->
  get_current_data embed_documents fs st
  = let st' := match cached_internships st with
               | Some _ => st
               | None => {| cached_internships := Some []; cached_embeddings := Some ∅ |}
               end in
    {| app_calls := []; app_writes := []; app_globals := st';
       app_ret := Returned (cached_internships st', cached_embeddings st') |}.
Proof.
  intros Hload. unfold get_current_data.
  destruct (check_without_catalogue fs (cached_internships st) (cached_embeddings st) Hload)
    as (internships & embeddings & -> & Hnone).
  simpl. destruct (cached_internships st) as [ci|] eqn:E.
  - by rewrite bool_decide_eq_false_2.
  - destruct (Hnone eq_refl) as [-> ->]. by rewrite bool_decide_eq_true_2.
Qed.


(** X13. Once postings are loaded, [get_current_data] never lets go of
    them for want of a catalogue: when the catalogue file is missing, or
    is there and holds no valid JSON, or holds the empty list, it returns
    the globals as they are and leaves them so, with no provider call and
    no write.  Only a server that has loaded nothing yet takes the empty
    list and the empty dict.  (A catalogue that is there and cannot be
    opened or decoded is another matter: [load_internships] raises on
    it.) *)
Theorem get_current_data_keeps_loaded_data fs st :
  internships_file fs = Absent
  \/ (exists f, internships_file fs = Stored f
                /\ (content_json f = NotJson \/ content_json f = Json [])) ->
  let st' := match cached_internships st with
             | Some _ => st
             | None => {| cached_internships := Some []; cached_embeddings := Some ∅ |}
             end in
  get_current_data embed_documents fs st
  = {| app_calls := []; app_writes := []; app_globals := st';
       app_ret := Returned (cached_internships st', cached_embeddings st') |}.
Proof.
  intros Hfile st'. apply get_current_data_keeps_loaded_data_aux.
  by apply load_internships_empty.
Qed.

(** A check that reports no refresh answers with the cached values or
    with nothing. *)
Lemma unrefreshed_run fs cached_internships cached_embeddings ci ce :
  upd_ret (check_and_update_embeddings embed_documents fs
             cached_internships cached_embeddings) = Returned (ci, ce, false) ->
  (cached_internships = Some ci /\ cached_embeddings = Some ce)
  \/ (ci = [] /\ ce = ∅).
Proof.
  unfold check_and_update_embeddings.
  assert (Hreload : forall h,
            upd_ret (reload_and_recompute embed_documents fs h) = Returned (ci, ce, false) ->
            ci = [] /\ ce = ∅).
  { intros h H. by destruct (reload_returns _ _ _ _ _ _ H) as [(_ & ? & ? & _)|([=] & _)]. }
  destruct cached_internships as [ci'|], cached_embeddings as [ce'|];
    try (intros H; right; by eapply Hreload).
  destruct (bool_decide _).
  - simpl. intros [= <- <-]. by left.
  - intros H; right; by eapply Hreload.
Qed.

Lemma complete_nil cache : complete [] cache.
Proof. by intros p ?%elem_of_nil. Qed.

Section HonestProvider.

(** The provider answers with one vector per text. *)
Hypothesis one_vector_per_text :
  forall docs vs, embed_documents docs = Some vs -> length vs = length docs.

Lemma get_current_data_loaded fs st :
  st = initial_state \/ loaded st ->
  match app_ret (get_current_data embed_documents fs st) with
  | Raised _ => app_globals (get_current_data embed_documents fs st) = st
  | Returned (a, b) =>
      loaded (app_globals (get_current_data embed_documents fs st))
      /\ a = cached_internships (app_globals (get_current_data embed_documents fs st))
      /\ b = cached_embeddings (app_globals (get_current_data embed_documents fs st))
  end.
Proof.
  intros Hst. unfold get_current_data.
  destruct (upd_ret _) as [[[ci ce] updated]|e] eqn:Er; [|done]. simpl.
  split; [|done]. destruct updated.
  - simpl. exists ci, ce. split; [done|]. split; [done|].
    destruct (refreshed_run _ _ _ _ _ _ Er) as (_ & _ & _ & existing & _ & Hfill & _).
    by eapply fill_returns_complete.
  - apply unrefreshed_run in Er. simpl.
    destruct Hst as [->|(ci' & ce' & Hci & Hce & Hc)].
    + simpl in *. exists ci, ce. split; [done|]. split; [done|].
      destruct Er as [[[=] _]|[-> ->]]. apply complete_nil.
    + rewrite Hci. rewrite bool_decide_eq_false_2 by done. by exists ci', ce'.
Qed.

Lemma api_recompute_embeddings_loaded fs st :
  st = initial_state \/ loaded st ->
  app_globals (api_recompute_embeddings embed_documents fs st) = st
  \/ loaded (app_globals (api_recompute_embeddings embed_documents fs st)).
Proof.
  intros Hst. pose proof (get_current_data_loaded fs st Hst) as Hg.
  unfold api_recompute_embeddings, api_recompute_embeddings_body. simpl.
  destruct (app_ret (get_current_data embed_documents fs st))
    as [[internships embeddings]|e] eqn:Eg; [|left; exact Hg].
  destruct Hg as (Hl & Hi & He). right.
  destruct internships as [[|o rest]|]; cbn [list_truthy negb default]; try exact Hl.
  destruct (fill_ret _) as [d|e] eqn:Ef; cbn [app_globals]; [|exact Hl].
  exists (o :: rest), d. split; [by rewrite <- Hi|]. split; [done|].
  by eapply fill_returns_complete.
Qed.

(** X14. Between two requests the two globals are either both unset, as
    at the start, or both set, and then the cached vectors cover every
    cached posting, provided the provider answers with one vector per
    text.  So [get_current_data] never returns [None] for the postings or
    for the vectors. *)
Theorem reachable_globals_are_loaded st :
  reachable embed_documents st ->
  (st = initial_state \/ loaded st)
  /\ forall fs a b,
       app_ret (get_current_data embed_documents fs st) = Returned (a, b) ->
       is_Some a /\ is_Some b.
Proof.
  intros Hr.
  assert (Hinv : st = initial_state \/ loaded st).
  { induction Hr as [|fs st Hr IH|fs st Hr IH]; [by left| |].
    - pose proof (get_current_data_loaded fs st IH) as Hg.
      destruct (app_ret (get_current_data embed_documents fs st)) as [[a b]|e].
      + right. by destruct Hg.
      + by rewrite Hg.
    - destruct (api_recompute_embeddings_loaded fs st IH) as [->|H]; [done|by right]. }
  split; [done|]. intros fs a b Hret.
  pose proof (get_current_data_loaded fs st Hinv) as Hg. rewrite Hret in Hg.
  destruct Hg as ((ci & ce & Hci & Hce & _) & -> & ->). rewrite Hci, Hce. by split.
Qed.

End HonestProvider.

(** A check that reports no refresh did nothing: it took the cached
    values, or it found no catalogue. *)
Lemma unrefreshed_check fs cached_internships cached_embeddings ci ce :
  upd_ret (check_and_update_embeddings embed_documents fs
             cached_internships cached_embeddings) = Returned (ci, ce, false) ->
  check_and_update_embeddings embed_documents fs cached_internships cached_embeddings
  = {| upd_calls := []; upd_saved := None; upd_ret := Returned (ci, ce, false) |}
  /\ ((cached_internships = Some ci /\ cached_embeddings = Some ce)
      \/ (ci = [] /\ ce = ∅ /\ load_internships fs = Returned [])).
Proof.
  unfold check_and_update_embeddings.
  assert (Hreload : forall h,
            upd_ret (reload_and_recompute embed_documents fs h) = Returned (ci, ce, false) ->
            reload_and_recompute embed_documents fs h
            = {| upd_calls := []; upd_saved := None; upd_ret := Returned (ci, ce, false) |}
            /\ ((cached_internships = Some ci /\ cached_embeddings = Some ce)
                \/ (ci = [] /\ ce = ∅ /\ load_internships fs = Returned []))).
  { intros h H.
    destruct (reload_returns _ _ _ _ _ _ H) as [(_ & -> & -> & Hl & ->)|([=] & _)].
    split; [done|by right]. }
  destruct cached_internships as [ci'|], cached_embeddings as [ce'|]; try apply Hreload.
  destruct (bool_decide _); [|apply Hreload].
  simpl. intros [= <- <-]. split; [done|by left].
Qed.

Lemma check_nothing_twice fs :
  load_internships fs = Returned [] ->
  check_and_update_embeddings embed_documents fs (Some []) (Some ∅)
  = {| upd_calls := []; upd_saved := None; upd_ret := Returned ([], ∅, false) |}.
Proof.
  intros Hload. unfold check_and_update_embeddings.
  rewrite (reload_empty _ _ _ Hload). by destruct (bool_decide _).
Qed.

(** X26. [get_current_data] is idempotent.  When a call returns and its
    write, if it made one, went through, a second call right after it
    returns the same pair and leaves the same globals, asks the provider
    nothing and writes nothing. *)
Theorem get_current_data_idempotent fs st r :
  let g := get_current_data embed_documents fs st in
  app_ret g = Returned r ->
  get_current_data embed_documents (files_after fs (app_writes g)) (app_globals g)
  = {| app_calls := []; app_writes := []; app_globals := app_globals g;
       app_ret := Returned r |}.
Proof.
  intros g. assert (Eg : g = get_current_data embed_documents fs st) by done.
  clearbody g. unfold get_current_data in Eg.
  destruct (upd_ret (check_and_update_embeddings embed_documents fs
                       (cached_internships st) (cached_embeddings st)))
    as [[[ci ce] updated]|e] eqn:Er; [|by subst g].
  destruct updated.
  - pose proof (check_after_refresh _ _ _ _ _ _ Er) as Hnext.
    destruct (refreshed_run _ _ _ _ _ _ Er) as (_ & _ & Hsaved & _).
    unfold after_update in Hnext. rewrite Hsaved in Hnext, Eg.
    subst g. cbn [app_ret app_writes app_globals orb cached_internships
                  cached_embeddings files_after foldl].
    intros [= <-]. unfold get_current_data.
    cbn [cached_internships cached_embeddings]. rewrite Hnext.
    cbn [upd_ret upd_calls upd_saved orb].
    by rewrite bool_decide_eq_false_2.
  - destruct (unrefreshed_check _ _ _ _ _ Er) as [Ho Hcase]. rewrite Ho in Eg.
    cbn [orb upd_saved upd_calls] in Eg.
    destruct (cached_internships st) as [ci'|] eqn:Eci.
    + rewrite bool_decide_eq_false_2 in Eg by done. subst g.
      cbn [app_ret app_writes app_globals files_after foldl]. intros Hr.
      unfold get_current_data. rewrite Eci, Ho. cbn [upd_ret upd_calls upd_saved orb].
      rewrite bool_decide_eq_false_2 by done. by rewrite Hr.
    + rewrite bool_decide_eq_true_2 in Eg by done. subst g.
      cbn [app_ret app_writes app_globals files_after foldl
           cached_internships cached_embeddings]. intros [= <-].
      destruct Hcase as [[[=] _]|(-> & -> & Hload)].
      unfold get_current_data. cbn [cached_internships cached_embeddings].
      rewrite (check_nothing_twice fs Hload). cbn [upd_ret upd_calls upd_saved orb].
      by rewrite bool_decide_eq_false_2.
Qed.

(** X15. A forced recomputation starts from an empty dict.  When it
    succeeds, the vectors it caches and writes are stored under ids of
    cached postings only, so the answer never counts more vectors than
    postings; the postings stay cached as they were; and the document it
    writes records no hash of the catalogue. *)
Theorem forced_recomputation_is_clean fs st body :
  app_ret (api_recompute_embeddings embed_documents fs st) = Ok body ->
  exists internships embeddings new_embeddings,
    app_ret (get_current_data embed_documents fs st) = Returned (Some internships, embeddings)
    /\ fill_ret (precompute_doc_embeddings_new embed_documents internships (Some ∅))
       = Returned new_embeddings
    /\ (forall k, is_Some (new_embeddings !! k) ->
          exists p, Dict p ∈ internships /\ k = get_internship_id p)
    /\ recomputed_internships body = length internships
    /\ total_embeddings body = size new_embeddings
    /\ (total_embeddings body <= recomputed_internships body)%nat
    /\ app_globals (api_recompute_embeddings embed_documents fs st)
       = {| cached_internships :=
              cached_internships (app_globals (get_current_data embed_documents fs st));
            cached_embeddings := Some new_embeddings |}
    /\ last (app_writes (api_recompute_embeddings embed_documents fs st))
       = Some {| source_file_hash := None; file_embeddings := new_embeddings |}.
Proof.
  unfold api_recompute_embeddings, api_recompute_embeddings_body. simpl.
  destruct (app_ret (get_current_data embed_documents fs st))
    as [[internships embeddings]|e] eqn:Eg; [|done].
  destruct internships as [[|o rest]|];
    cbn [list_truthy negb default from_option id app_ret except_exception]; try done.
  set (internships := o :: rest).
  destruct (fill_ret (precompute_doc_embeddings_new embed_documents internships (Some ∅)))
    as [d|e] eqn:Ef; cbn [app_ret except_exception]; [|done].
  intros [= <-]. exists internships, embeddings, d.
  cbn [recomputed_internships total_embeddings app_globals app_writes].
  split; [done|]. split; [done|].
  rewrite fill_closed in Ef. cbv zeta in Ef. simpl default in Ef.
  rewrite uncached_empty_cache in Ef.
  assert (Hd : exists vs, d = write_pairs (zip (get_internship_id <$> dicts internships) vs) ∅).
  { destruct (dicts internships) as [|p ps] eqn:Ed.
    - exists []. simpl in Ef. by injection Ef as <-.
    - destruct (embed_documents _) as [vs|]; [|done]. simpl in Ef.
      exists vs. destruct (length vs <=? S (length ps))%nat; [|done].
      by injection Ef as <-. }
  destruct Hd as [vs ->]. split; [|split; [done|split; [done|split]]].
  - intros k [v Hk]. apply write_pairs_lookup_Some in Hk as [Hk|Hk].
    2:{ by rewrite lookup_empty in Hk. }
    apply list_elem_of_fmap in Hk as ([k' v'] & -> & Hin).
    apply elem_of_zip_l, list_elem_of_fmap in Hin as (p & -> & Hp).
    exists p. by apply dicts_elem_of in Hp.
  - pose proof (write_pairs_size (zip (get_internship_id <$> dicts internships) vs) ∅) as Hs.
    rewrite map_size_empty in Hs.
    rewrite length_zip_with, length_fmap in Hs.
    pose proof (dicts_length internships) as Hd.
    change (length internships) with (S (length rest)) in Hd. lia.
  - split; [done|]. by rewrite last_snoc.
Qed.

End ApiFacts.

(** ** The maintenance script *)

Lemma validate_loop_counts internships embeddings a b c a' b' c' :
  validate_loop internships embeddings a b c = Some (a', b', c') ->
  (a' + b' + c' = a + b + c + length internships)%nat
  /\ (a <= a')%nat /\ (b <= b')%nat /\ (c <= c')%nat.
Proof.
  revert a b c. induction internships as [|[p|] rest IH]; intros a b c; simpl.
  - intros [= <- <- <-]. lia.
  - destruct (embeddings !! get_internship_id p) as [emb|].
    + destruct (valid_embedding emb); intros H; apply IH in H; lia.
    + intros H; apply IH in H; lia.
  - done.
Qed.

Lemma validate_loop_clean internships embeddings a b c a' :
  validate_loop internships embeddings a b c = Some (a', b, c)
  <-> (a' = a + length internships)%nat
      /\ Forall (fun o => exists p emb, o = Dict p
                                        /\ embeddings !! get_internship_id p = Some emb
                                        /\ emb <> []) internships.
Proof.
  revert a. induction internships as [|[p|] rest IH]; intros a; simpl.
  - split.
    + intros [= <-]. split; [lia|constructor].
    + intros [-> _]. f_equal. f_equal. f_equal. lia.
  - destruct (embeddings !! get_internship_id p) as [emb|] eqn:E.
    + destruct emb as [|x emb]; simpl.
      * split.
        -- intros H. apply validate_loop_counts in H. lia.
        -- intros [_ H]. apply Forall_cons in H as [(q & emb & [= <-] & He & Hne) _].
           congruence.
      * rewrite IH. split.
        -- intros [-> H]. split; [lia|]. constructor; [|done]. by exists p, (x :: emb).
        -- intros [-> H]. apply Forall_cons in H as [_ H]. split; [lia|done].
    + split.
      * intros H. apply validate_loop_counts in H. lia.
      * intros [_ H]. apply Forall_cons in H as [(q & emb & [= <-] & He & _) _].
        congruence.
  - split; [done|]. intros [_ H]. by apply Forall_cons in H as [(q & emb & [=] & _) _].
Qed.

Section Validation.

Variable embed_documents : list string -> option (list vec).

(** X16. [validate_embeddings] answers [True] exactly when the catalogue
    is not empty, every entry of it is a dict, and the cache file has a
    vector that is not empty under the id of every posting.  A cache that
    passes costs nothing: whatever is cached in memory, the check that
    follows asks the provider for nothing. *)
Theorem validate_embeddings_true_iff fs :
  (validate_embeddings fs = Some true
   <-> exists internships embeddings,
         load_internships fs = Returned internships
         /\ load_embeddings fs = Returned embeddings
         /\ internships <> []
         /\ Forall (fun o => exists p emb,
                      o = Dict p
                      /\ embeddings !! get_internship_id p = Some emb
                      /\ emb <> []) internships)
  /\ (validate_embeddings fs = Some true ->
      forall cached_internships cached_embeddings,
        upd_calls (check_and_update_embeddings embed_documents fs
                     cached_internships cached_embeddings) = []).
Proof.
  assert (Hiff : validate_embeddings fs = Some true
   <-> exists internships embeddings,
         load_internships fs = Returned internships
         /\ load_embeddings fs = Returned embeddings
         /\ internships <> []
         /\ Forall (fun o => exists p emb,
                      o = Dict p
                      /\ embeddings !! get_internship_id p = Some emb
                      /\ emb <> []) internships).
  { unfold validate_embeddings.
    destruct (load_internships fs) as [internships|e] eqn:El.
    2:{ split; [done|]. by intros (? & ? & [=] & _). }
    destruct (load_embeddings fs) as [embeddings|e] eqn:Ee'.
    2:{ split; [done|]. by intros (? & ? & _ & [=] & _). }
    assert (Hgoal : forall b : option bool,
              (b = Some true
               <-> internships <> []
                   /\ Forall (fun o => exists p emb,
                                o = Dict p
                                /\ embeddings !! get_internship_id p = Some emb
                                /\ emb <> []) internships) ->
              b = Some true
              <-> exists internships0 embeddings0,
                    Returned internships = Returned internships0
                    /\ Returned embeddings = Returned embeddings0
                    /\ internships0 <> []
                    /\ Forall (fun o => exists p emb,
                                 o = Dict p
                                 /\ embeddings0 !! get_internship_id p = Some emb
                                 /\ emb <> []) internships0).
    { intros b Hb. rewrite Hb. split.
      - intros [? ?]. by exists internships, embeddings.
      - intros (? & ? & [= <-] & [= <-] & ? & ?). by split. }
    apply Hgoal. clear Hgoal.
    destruct internships as [|o rest] eqn:Ei.
    { split; [done|]. by intros [? _]. }
    rewrite <- Ei. assert (Hne : internships <> []) by (by rewrite Ei).
    clear Ei.
    destruct (bool_decide (embeddings = ∅)) eqn:Ee.
    { apply bool_decide_eq_true in Ee. split; [done|]. intros [_ H].
      destruct internships as [|o' rest']; [done|].
      apply Forall_cons in H as [(p & emb & _ & He & _) _].
      by rewrite Ee, lookup_empty in He. }
    destruct (validate_loop internships embeddings 0 0 0) as [[[a b] c]|] eqn:Ev.
    - destruct b as [|b]; simpl.
      + destruct c as [|c]; simpl.
        * split; [intros _|done]. split; [done|].
          by apply validate_loop_clean in Ev as [_ ?].
        * split; [done|]. intros [_ H].
          assert (Hc : validate_loop internships embeddings 0 0 0
                       = Some ((0 + length internships)%nat, 0%nat, 0%nat)).
          { by apply validate_loop_clean. }
          congruence.
      + split; [done|]. intros [_ H].
        assert (Hc : validate_loop internships embeddings 0 0 0
                     = Some ((0 + length internships)%nat, 0%nat, 0%nat)).
        { by apply validate_loop_clean. }
        congruence.
    - split; [done|]. intros [_ H].
      assert (Hc : validate_loop internships embeddings 0 0 0
                   = Some ((0 + length internships)%nat, 0%nat, 0%nat)).
      { by apply validate_loop_clean. }
      congruence. }
  split; [exact Hiff|]. intros Hv ci ce.
  apply Hiff in Hv as (internships & embeddings & Hl & He & Hne & Hall).
  assert (Hc : complete internships embeddings).
  { intros p Hp _. rewrite Forall_forall in Hall.
    destruct (Hall _ Hp) as (q & emb & [= <-] & Hq & _). by eexists. }
  assert (Hreload : forall h,
            upd_calls (reload_and_recompute embed_documents fs h) = []).
  { intros h. rewrite (reload_nonempty _ _ _ _ _ Hl Hne He). cbv zeta.
    by rewrite (fill_complete _ _ _ Hc). }
  unfold check_and_update_embeddings.
  destruct ci as [ci|], ce as [ce|]; try apply Hreload.
  destruct (bool_decide _); [done|apply Hreload].
Qed.

End Validation.

Lemma collect_ids_spec internships acc valid_ids :
  collect_ids internships acc = Some valid_ids ->
  forall k, k ∈ valid_ids
            <-> k ∈ acc \/ exists p, Dict p ∈ internships /\ k = get_internship_id p.
Proof.
  revert acc. induction internships as [|[p|] rest IH]; intros acc; simpl; [| |done].
  - intros [= <-] k. split; [by left|]. intros [?|(p & ?%elem_of_nil & _)]; done.
  - intros H k. rewrite (IH _ H k), elem_of_union, elem_of_singleton. split.
    + intros [[?| ->]|(q & Hq & ->)].
      * by left.
      * right. exists p. split; [apply list_elem_of_here|done].
      * right. exists q. split; [by apply list_elem_of_further|done].
    + intros [?|(q & Hq & ->)]; [by left; left|].
      apply elem_of_cons in Hq as [[= ->]|Hq]; [by left; right|].
      right. by exists q.
Qed.

Lemma delete_all_lookup orphaned_ids embeddings k :
  delete_all orphaned_ids embeddings !! k
  = if decide (k ∈ orphaned_ids) then None else embeddings !! k.
Proof.
  unfold delete_all. revert embeddings.
  induction orphaned_ids as [|k0 ks IH]; intros embeddings; cbn [foldl].
  - destruct (decide (k ∈ [])) as [H|]; [by apply elem_of_nil in H|done].
  - rewrite IH.
    destruct (decide (k ∈ ks)) as [Hin|Hnin], (decide (k ∈ k0 :: ks)) as [Hin'|Hnin'];
      try done.
    + destruct Hnin'. by apply list_elem_of_further.
    + apply elem_of_cons in Hin' as [->|?]; [|done]. apply lookup_delete_eq.
    + apply lookup_delete_ne. intros ->. apply Hnin', list_elem_of_here.
Qed.

Lemma clean_orphaned_embeddings_nonempty fs internships embeddings :
  load_internships fs = Returned internships -> internships <> [] ->
  load_embeddings fs = Returned embeddings ->
  clean_orphaned_embeddings fs
  = if bool_decide (embeddings = ∅) then Some None
    else
      match collect_ids internships ∅ with
      | None => None
      | Some valid_ids =>
          let orphaned_ids := dom embeddings ∖ valid_ids in
          if bool_decide (orphaned_ids = ∅) then Some None
          else Some (Some (save_embeddings
                             (delete_all (elements orphaned_ids) embeddings)))
      end.
Proof.
  intros Hl Hne He. unfold clean_orphaned_embeddings. rewrite Hl, He.
  by destruct internships.
Qed.

(** X17. What [clean_orphaned_embeddings] writes.  The cleaned cache keeps
    the vector under every id of a posting of the catalogue and has
    nothing under any other key; it writes only when it removed a vector;
    the document records no hash of the catalogue; and a second cleaning
    of the written file writes nothing. *)
Theorem clean_removes_exactly_the_orphans fs doc :
  clean_orphaned_embeddings fs = Some (Some doc) ->
  exists internships embeddings,
    load_internships fs = Returned internships
    /\ load_embeddings fs = Returned embeddings
    /\ source_file_hash doc = None
    /\ (forall p, Dict p ∈ internships ->
          file_embeddings doc !! get_internship_id p
          = embeddings !! get_internship_id p)
    /\ (forall k, (forall p, Dict p ∈ internships -> k <> get_internship_id p) ->
          file_embeddings doc !! k = None)
    /\ (exists k, is_Some (embeddings !! k) /\ file_embeddings doc !! k = None)
    /\ clean_orphaned_embeddings (write_embeddings fs doc) = Some None.
Proof.
  destruct (load_internships fs) as [internships|e] eqn:El.
  2:{ unfold clean_orphaned_embeddings. by rewrite El. }
  destruct (load_embeddings fs) as [embeddings|e] eqn:Ee.
  2:{ unfold clean_orphaned_embeddings. by rewrite El, Ee. }
  destruct (decide (internships = [])) as [He|Hne].
  { unfold clean_orphaned_embeddings. by rewrite El, Ee, He. }
  rewrite (clean_orphaned_embeddings_nonempty fs _ _ El Hne Ee). cbv zeta.
  destruct (bool_decide (embeddings = ∅)); [done|].
  destruct (collect_ids internships ∅) as [valid_ids|] eqn:Ec; [|done].
  pose proof (collect_ids_spec _ _ _ Ec) as Hids.
  destruct (bool_decide (dom embeddings ∖ valid_ids = ∅)) eqn:Eo; [done|].
  apply bool_decide_eq_false in Eo. intros [= <-]. simpl.
  set (cleaned := delete_all (elements (dom embeddings ∖ valid_ids)) embeddings).
  assert (Hkeep : forall k, k ∈ valid_ids -> cleaned !! k = embeddings !! k).
  { intros k Hk. unfold cleaned. rewrite delete_all_lookup.
    rewrite decide_False; [done|]. rewrite elem_of_elements, elem_of_difference.
    by intros [_ ?]. }
  assert (Hdrop : forall k, k ∉ valid_ids -> cleaned !! k = None).
  { intros k Hk. unfold cleaned. rewrite delete_all_lookup.
    destruct (decide _) as [|Hn]; [done|].
    rewrite elem_of_elements, elem_of_difference in Hn.
    apply not_elem_of_dom. intros Hd. by apply Hn. }
  exists internships, embeddings.
  split; [done|]. split; [done|]. split; [done|]. split; [|split; [|split]].
  - intros p Hp. apply Hkeep, Hids. right. by exists p.
  - intros k Hk. apply Hdrop. intros [?%elem_of_empty|(p & Hp & ->)]%Hids; [done|].
    by apply (Hk p).
  - apply set_choose_L in Eo as [k Hk]. apply elem_of_difference in Hk as [Hd Hv].
    exists k. split; [by apply elem_of_dom|by apply Hdrop].
  - assert (El' : load_internships
                    (write_embeddings fs (save_embeddings cleaned)) = Returned internships).
    { exact El. }
    rewrite (clean_orphaned_embeddings_nonempty _ internships cleaned El' Hne eq_refl).
    destruct (bool_decide (cleaned = ∅)); [done|]. rewrite Ec. cbv zeta.
    rewrite bool_decide_eq_true_2; [done|].
    apply set_eq. intros k. rewrite elem_of_difference, elem_of_dom. split.
    + intros [[v Hv] Hn]. by rewrite (Hdrop k Hn) in Hv.
    + by intros ?%elem_of_empty.
Qed.

(** ** Asking for more recommendations *)

Lemma build_results_prefix s items items' :
  items `prefix_of` items' ->
  Forall (fun item => is_Some (dict_at s (sc_internship item))) items' ->
  (build_results s items).1 `prefix_of` (build_results s items').1
  /\ (build_results s items).2 `prefix_of` (build_results s items').2.
Proof.
  intros [rest ->] H. pose proof H as H'. apply Forall_app in H' as [H1 _].
  rewrite (build_results_closed _ _ H), (build_results_closed _ _ H1). simpl. split.
  - exists (omap (result_of s) rest). by rewrite omap_app, app_assoc.
  - exists (seq (length s + length items) (length rest)).
    by rewrite length_app, seq_app.
Qed.

Lemma take_prefix {A} (n m : nat) (l : list A) :
  (n <= m)%nat -> take n l `prefix_of` take m l.
Proof.
  intros H. exists (drop n (take m l)).
  rewrite <- (take_drop n (take m l)) at 1. f_equal.
  rewrite take_take. f_equal. lia.
Qed.

Lemma drop_suffix {A} (a b : nat) (l : list A) :
  (a <= b)%nat -> exists front, drop a l = front ++ drop b l.
Proof.
  intros H. exists (take (b - a) (drop a l)).
  rewrite <- (take_drop (b - a) (drop a l)) at 1. f_equal.
  rewrite drop_drop. f_equal. lia.
Qed.

Lemma slice_to_prefix {A} (k k' : Z) (l : list A) :
  0 <= k <= k' -> Py.slice_to k l `prefix_of` Py.slice_to k' l.
Proof.
  intros H. unfold Py.slice_to.
  rewrite (proj2 (Z.leb_le 0 k)), (proj2 (Z.leb_le 0 k')) by lia.
  apply take_prefix. lia.
Qed.

Lemma fallback_picked_prefix valid_internships semantic_scores k k' :
  0 <= k <= k' ->
  fallback_picked valid_internships semantic_scores k
  `prefix_of` fallback_picked valid_internships semantic_scores k'.
Proof.
  intros H. unfold fallback_picked.
  destruct (drop_suffix (length semantic_scores - Z.to_nat k')
              (length semantic_scores - Z.to_nat k) (ranked_pairs semantic_scores))
    as [front ->]; [lia|].
  rewrite reverse_app, fmap_app. by eexists.
Qed.

Section MoreResults.

Variable embed_query : string -> option vec.
Variable cosine_similarity : vec -> vec -> option float.

(** X18. Asking for more recommendations only appends.  For
    [top_k <= top_k'] the two calls of [recommend] ask the provider the
    same, and the answer for [top_k] is a prefix of the answer for
    [top_k']: the same references, to the same records, in the same
    order. *)
Theorem larger_top_k_extends_the_answer s internships education skills location
    top_k top_k' :
  top_k <= top_k' ->
  let o := recommend embed_query cosine_similarity s internships
             education skills location top_k in
  let o' := recommend embed_query cosine_similarity s internships
              education skills location top_k' in
  out_calls o = out_calls o'
  /\ out_result o `prefix_of` out_result o'
  /\ out_store o `prefix_of` out_store o'.
Proof.
  intros Hk o o'. subst o o'.
  pose proof (clamp_top_k_range top_k) as Hc.
  pose proof (clamp_top_k_range top_k') as Hc'.
  assert (Hcc : clamp_top_k top_k <= clamp_top_k top_k') by (unfold clamp_top_k; lia).
  destruct (decide (internships = [])) as [->|Hne]; [done|].
  destruct (decide (admitted s internships skills = [])) as [Ha|Ha].
  - rewrite !(recommend_fallback _ _ _ _ _ _ _ _ Hne Ha).
    destruct (query_vector embed_query
                (fallback_query (normalize education) (normalize skills)))
      as [q_vec|] eqn:Eq.
    2:{ unfold semantic_fallback_recommendation. by rewrite Eq. }
    destruct (fallback_scan cosine_similarity s q_vec internships)
      as [scores valid] eqn:Es.
    destruct (decide (valid = [])) as [->|Hv].
    { unfold semantic_fallback_recommendation. by rewrite Eq, Es. }
    rewrite (fallback_run _ _ _ _ _ _ _ (clamp_top_k top_k) _ _ _
               ltac:(lia) Eq Es Hv).
    rewrite (fallback_run _ _ _ _ _ _ _ (clamp_top_k top_k') _ _ _
               ltac:(lia) Eq Es Hv).
    cbv zeta. cbn [out_calls out_result out_store]. split; [done|].
    apply and_comm, build_results_prefix.
    + apply fallback_picked_prefix. lia.
    + pose proof (fallback_picked_dicts cosine_similarity s q_vec internships) as HD.
      rewrite Es in HD. apply HD.
  - destruct (query_vector embed_query (query_of education skills location))
      as [q_vec|] eqn:Eq.
    2:{ by rewrite !(recommend_primary_failed _ _ _ _ _ _ _ _ Ha Eq). }
    rewrite !(recommend_primary _ _ _ _ _ _ _ _ _ Ha Eq).
    cbv zeta. cbn [out_calls out_result out_store]. split; [done|].
    apply and_comm, build_results_prefix.
    + unfold primary_items. apply slice_to_prefix. lia.
    + apply primary_items_dicts.
Qed.

End MoreResults.

(** ** Skills without a token *)

Lemma skill_gate_no_tokens s skills i internships :
  skill_tokens skills = ∅ -> skill_gate s skills i internships = [].
Proof.
  intros H. revert i. induction internships as [|l rest IH]; intros i; simpl; [done|].
  destruct (dict_at s l) as [p|]; [|done].
  unfold calculate_skill_relevance. rewrite H.
  rewrite bool_decide_eq_true_2 by done. simpl. apply IH.
Qed.

Section NoTokens.

Variable embed_query : string -> option vec.
Variable cosine_similarity : vec -> vec -> option float.

(** X19. Skills that hold no token, an empty string or nothing but commas
    and whitespace, pass no posting through the gate: the answer then is
    the answer of the fallback on the trimmed strings and the clamped
    [top_k], whatever the skills of the postings are. *)
Theorem no_skill_tokens_means_fallback s internships education skills location top_k :
  skill_tokens (normalize skills) = ∅ ->
  internships <> [] ->
  admitted s internships skills = []
  /\ recommend embed_query cosine_similarity s internships education skills location top_k
     = semantic_fallback_recommendation embed_query cosine_similarity s internships
         (normalize education) (normalize skills) (normalize location)
         (clamp_top_k top_k).
Proof.
  intros Ht Hne.
  assert (Ha : admitted s internships skills = []) by by apply skill_gate_no_tokens.
  split; [done|]. by apply recommend_fallback.
Qed.

End NoTokens.

Section Location.

Variable embed_query : string -> option vec.
Variable cosine_similarity : vec -> vec -> option float.

(** X25. The fallback never looks at the location.  When the gate admits
    nothing, the location given to [recommend] changes neither the
    provider call, nor the store, nor the answer. *)
Theorem fallback_ignores_location s internships education skills location location'
    top_k :
  admitted s internships skills = [] ->
  recommend embed_query cosine_similarity s internships education skills location top_k
  = recommend embed_query cosine_similarity s internships education skills location'
      top_k.
Proof.
  intros Ha. destruct (decide (internships = [])) as [->|Hne]; [done|].
  by rewrite !(recommend_fallback _ _ _ _ _ _ _ _ Hne Ha).
Qed.

End Location.

(** ** The id of a posting *)

Lemma pretty_N_go_length x s :
  (String.length s <= String.length (pretty_N_go x s))%nat.
Proof.
  revert s. induction (N.lt_wf_0 x) as [x _ IH]; intros s.
  destruct (decide (x = 0)%N) as [->|Hx]; [by rewrite pretty_N_go_0|].
  rewrite pretty_N_go_step by lia.
  etrans; [|apply IH; apply N.div_lt; lia]. simpl. lia.
Qed.

Lemma pretty_Z_nonempty n : n <> 0 -> pretty n <> EmptyString.
Proof.
  assert (Hp : forall p : positive, pretty p <> EmptyString).
  { intros p. unfold pretty, pretty_positive, pretty, pretty_N.
    rewrite decide_False by done. rewrite pretty_N_go_step by lia.
    intros H. apply (f_equal String.length) in H.
    pose proof (pretty_N_go_length (N.pos p `div` 10)
                  (String (pretty_N_char (N.pos p `mod` 10)) "")) as Hl.
    rewrite H in Hl. simpl in Hl. lia. }
  destruct n as [|p|p]; intros Hn; [done|apply Hp|done].
Qed.

Lemma lower_char_no_space c :
  Ascii.eqb (Py.lower_char (if Ascii.eqb c " " then "_"%char else c)) " " = false.
Proof. by destruct c as [[] [] [] [] [] [] [] []]. Qed.

Lemma generated_id_no_space s :
  Py.replace_char " " "_" (Py.lower (Py.replace_char " " "_" s))
  = Py.lower (Py.replace_char " " "_" s).
Proof.
  induction s as [|c s IH]; simpl; [done|]. by rewrite lower_char_no_space, IH.
Qed.

(** X20. The id of a posting is never the empty string.  An id made from
    the title and the organisation is in normal form: it holds no space
    and lowercasing it changes nothing. *)
Theorem get_internship_id_nonempty internship :
  get_internship_id internship <> EmptyString
  /\ (id_truthy (p_id internship) = false ->
      Py.replace_char " " "_" (get_internship_id internship)
      = get_internship_id internship
      /\ Py.lower (get_internship_id internship) = get_internship_id internship).
Proof.
  assert (Hgen : generated_id internship <> EmptyString).
  { unfold generated_id. intros H. apply (f_equal String.length) in H.
    rewrite PyFacts.lower_length, PyFacts.replace_char_length,
      !PyFacts.append_length in H.
    simpl in H. lia. }
  split.
  - unfold get_internship_id. destruct (p_id internship) as [[x|n]|]; simpl; [| |done].
    + by destruct x.
    + destruct (Z.eqb_spec n 0) as [->|Hn]; simpl; [done|]. by apply pretty_Z_nonempty.
  - intros Hf. destruct (get_internship_id_spec internship) as [_ Hg].
    rewrite (Hg Hf). split; [apply generated_id_no_space|apply lower_idempotent].
Qed.

(** ** The legacy fill *)

Lemma attached_idempotent embeddings_dict o :
  attached embeddings_dict (attached embeddings_dict o) = attached embeddings_dict o.
Proof.
  destruct o as [p|]; [|done]. unfold attached at 2.
  destruct (embeddings_dict !! get_internship_id p) as [v|] eqn:E; unfold attached.
  - change (get_internship_id (with_embedding v p)) with (get_internship_id p).
    by rewrite E.
  - by rewrite E.
Qed.

Lemma attach_embeddings_lookup s internships embeddings_dict l :
  attach_embeddings s internships embeddings_dict !! l
  = (if decide (l ∈ internships) then attached embeddings_dict else id) <$> s !! l.
Proof.
  revert s. induction internships as [|l0 rest IH]; intros s.
  - cbn [attach_embeddings].
    destruct (decide (l ∈ [])) as [H|]; [by apply elem_of_nil in H|].
    by destruct (s !! l).
  - assert (Hstep : exists s1,
              attach_embeddings s (l0 :: rest) embeddings_dict
              = attach_embeddings s1 rest embeddings_dict
              /\ forall l, s1 !! l = if decide (l = l0)
                                     then attached embeddings_dict <$> s !! l
                                     else s !! l).
    { simpl. unfold dict_at.
      destruct (s !! l0) as [[p|]|] eqn:E0.
      - destruct (embeddings_dict !! get_internship_id p) as [v|] eqn:Ev.
        + eexists. split; [done|]. intros l'. unfold update_dict.
          rewrite list_lookup_alter.
          destruct (decide (l' = l0)) as [->|Hne].
          * rewrite decide_True by done. rewrite E0.
            cbn [fmap option_fmap option_map]. unfold attached. by rewrite Ev.
          * by rewrite decide_False by done.
        + exists s. split; [done|]. intros l'.
          destruct (decide (l' = l0)) as [->|Hne]; [|done].
          rewrite E0. cbn [fmap option_fmap option_map]. unfold attached. by rewrite Ev.
      - exists s. split; [done|]. intros l'.
        destruct (decide (l' = l0)) as [->|Hne]; [|done]. by rewrite E0.
      - exists s. split; [done|]. intros l'.
        destruct (decide (l' = l0)) as [->|Hne]; [|done]. by rewrite E0. }
    destruct Hstep as (s1 & -> & Hs1). rewrite IH, Hs1.
    destruct (decide (l = l0)) as [->|Hne].
    + destruct (decide (l0 ∈ l0 :: rest)) as [_|Hn].
      2:{ destruct Hn. apply list_elem_of_here. }
      destruct (s !! l0) as [o|]; [|by destruct (decide _)]. simpl.
      destruct (decide (l0 ∈ rest)); simpl; [|done]. by rewrite attached_idempotent.
    + destruct (decide (l ∈ rest)) as [Hin|Hnin],
        (decide (l ∈ l0 :: rest)) as [Hin'|Hnin']; try done.
      * destruct Hnin'. by apply list_elem_of_further.
      * by apply elem_of_cons in Hin' as [?|?].
Qed.

Lemma objects_at_dict s internships p :
  Dict p ∈ objects_at s internships <-> exists l, l ∈ internships /\ dict_at s l = Some p.
Proof.
  unfold objects_at, dict_at. rewrite list_elem_of_fmap. split.
  - intros (l & Hp & Hl). exists l. split; [done|].
    destruct (s !! l) as [[q|]|]; simpl in Hp; by try injection Hp as <-.
  - intros (l & Hl & Hp). exists l. split; [|done].
    destruct (s !! l) as [[q|]|]; simpl; by try injection Hp as <-.
Qed.

Section LegacyFacts.

Variable embed_documents : list string -> option (list vec).

(** X21. The legacy fill works in place.  When it returns, it returns the
    list it was given; it has computed the vectors from an empty dict, so
    it has asked the provider for every dict posting of the list; and in
    the store exactly the objects of the list have changed, each dict
    among them now carrying under ['embedding'] the vector stored under
    its id, its other keys as they were.  With a provider that answers
    with one vector per text, every dict of the list has got one. *)
Theorem legacy_fill_updates_in_place s internships r :
  let o := precompute_doc_embeddings embed_documents s internships in
  leg_ret o = Returned r ->
  r = internships
  /\ exists embeddings_dict,
       fill_ret (precompute_doc_embeddings_new embed_documents
                   (objects_at s internships) (Some ∅)) = Returned embeddings_dict
       /\ leg_calls o
          = match dicts (objects_at s internships) with
            | [] => []
            | _ => [EmbedDocuments
                      (get_internship_text <$> dicts (objects_at s internships))]
            end
       /\ (forall l, leg_store o !! l
                     = (if decide (l ∈ internships)
                        then attached embeddings_dict else id) <$> s !! l)
       /\ ((forall docs vs, embed_documents docs = Some vs -> length vs = length docs) ->
           forall l p, l ∈ internships -> dict_at s l = Some p ->
             exists v, embeddings_dict !! get_internship_id p = Some v
                       /\ dict_at (leg_store o) l = Some (with_embedding v p)).
Proof.
  intros o. subst o. unfold precompute_doc_embeddings.
  destruct internships as [|l0 rest] eqn:Ei.
  { simpl. intros [= <-]. split; [done|]. exists ∅. split; [done|]. split; [done|].
    split.
    - intros l. destruct (decide (l ∈ [])) as [H|]; [by apply elem_of_nil in H|].
      by destruct (s !! l).
    - intros _ l p Hl. by apply elem_of_nil in Hl. }
  rewrite <- Ei. clear Ei. cbv zeta.
  pose proof (fill_calls_closed embed_documents (objects_at s internships) (Some ∅))
    as Hcalls.
  simpl default in Hcalls. rewrite uncached_empty_cache in Hcalls.
  destruct (fill_ret _) as [embeddings_dict|e] eqn:Ef; simpl; [|done].
  intros [= <-]. split; [done|]. exists embeddings_dict.
  split; [done|]. split; [exact Hcalls|].
  pose proof (attach_embeddings_lookup s internships embeddings_dict) as Hlook.
  split; [exact Hlook|].
  intros Hprov l p Hl Hp.
  pose proof (fill_returns_complete _ _ _ _ Hprov Ef) as Hc.
  destruct (Hc p) as [v Hv].
  { apply objects_at_dict. by exists l. }
  { apply text_truthy. }
  exists v. split; [done|]. unfold dict_at in *. rewrite Hlook.
  destruct (decide (l ∈ internships)) as [_|Hn]; [|done].
  destruct (s !! l) as [[q|]|]; try done. injection Hp as ->. simpl. by rewrite Hv.
Qed.

End LegacyFacts.

(** ** More endpoints *)

Section MoreEndpoints.

Variable embed_documents : list string -> option (list vec).
Variable embed_query : string -> option vec.
Variable cosine_similarity : vec -> vec -> option float.

Lemma rank_with_flag s internships education skills location top_k (flag : bool) :
  (if flag
   then rank_with (recommend_with_validation embed_query cosine_similarity)
          s internships education skills location top_k
   else rank_with (recommend embed_query cosine_similarity)
          s internships education skills location top_k)
  = rank_with (recommend embed_query cosine_similarity)
      s internships education skills location top_k.
Proof. by destruct flag. Qed.

(** The validated endpoint in one piece, the flag resolved. *)
Lemma api_recommend_with_validation_unfold fs st education skills location top_k flag :
  api_recommend_with_validation embed_documents embed_query cosine_similarity fs st
    education skills location top_k flag
  = let g := get_current_data embed_documents fs st in
    let leave calls r :=
      {| app_calls := calls; app_writes := app_writes g;
         app_globals := app_globals g; app_ret := r |} in
    match app_ret g with
    | Raised e => leave (app_calls g) (HttpError 500)
    | Returned (internships, embeddings) =>
        match merge_unchecked internships embeddings with
        | ApiRaised e => leave (app_calls g) (HttpError 500)
        | ApiReturned merged =>
            match rank_with (recommend embed_query cosine_similarity) (Dict <$> merged)
                    (seq 0 (length (Dict <$> merged))) education skills location top_k with
            | None => leave (app_calls g) (HttpError 500)
            | Some o =>
                leave (app_calls g ++ out_calls o)
                  (Ok {| validated_recommendations :=
                           omap (dict_at (out_store o)) (out_result o);
                         validation_used := flag |})
            end
        end
    end.
Proof.
  unfold api_recommend_with_validation, api_recommend_with_validation_body. cbv zeta.
  destruct (app_ret (get_current_data embed_documents fs st))
    as [[internships embeddings]|e]; [|done].
  destruct (merge_unchecked internships embeddings) as [merged|e]; [|done].
  rewrite rank_with_flag. by destruct (rank_with _ _ _ _ _ _ _).
Qed.

(** X22. The validated endpoint.  Its flag [use_validation] changes
    nothing but its own echo in the answer: provider calls, writes,
    globals, status and recommendations are the same for every value of
    the flag.  Where [api_recommend] answers, the validated endpoint
    answers with the same recommendations.  Without a [top_k] it answers
    only when no posting was merged, with no recommendation.  And on a
    server that has loaded nothing, with a catalogue that loads as the
    empty list (no file, no valid JSON in it, or the empty list), it
    answers with an empty list where [api_recommend] fails. *)
Theorem validated_endpoint fs st education skills location top_k use_validation :
  let v := api_recommend_with_validation embed_documents embed_query cosine_similarity
             fs st education skills location top_k use_validation in
  (forall flag,
     let v' := api_recommend_with_validation embed_documents embed_query
                 cosine_similarity fs st education skills location top_k flag in
     app_calls v' = app_calls v /\ app_writes v' = app_writes v
     /\ app_globals v' = app_globals v
     /\ match app_ret v, app_ret v' with
        | Ok b, Ok b' =>
            validated_recommendations b' = validated_recommendations b
            /\ validation_used b' = flag
        | HttpError c, HttpError c' => c = c'
        | _, _ => False
        end)
  /\ (forall k body,
        top_k = Some k ->
        app_ret (api_recommend embed_documents embed_query cosine_similarity fs st
                   education skills location k) = Ok body ->
        exists b, app_ret v = Ok b
                  /\ validated_recommendations b = recommendations body)
  /\ (top_k = None ->
      forall b, app_ret v = Ok b -> validated_recommendations b = [])
  /\ (load_internships fs = Returned [] -> cached_internships st = None ->
      app_ret v = Ok {| validated_recommendations := [];
                        validation_used := use_validation |}
      /\ forall k, app_ret (api_recommend embed_documents embed_query cosine_similarity
                              fs st education skills location k) = HttpError 500).
Proof.
  intros v. subst v. split; [|split; [|split]].
  - intros flag v'. subst v'. rewrite !api_recommend_with_validation_unfold. cbv zeta.
    destruct (app_ret (get_current_data embed_documents fs st))
      as [[internships embeddings]|e]; [|done].
    destruct (merge_unchecked internships embeddings) as [merged|e]; [|done].
    by destruct (rank_with _ _ _ _ _ _ _).
  - intros k body -> Hok. rewrite api_recommend_with_validation_unfold. cbv zeta.
    unfold api_recommend, api_recommend_body in Hok. simpl in Hok.
    destruct (app_ret (get_current_data embed_documents fs st))
      as [[internships embeddings]|e]; [|done].
    destruct internships as [[|o rest]|]; try done.
    destruct embeddings as [embeddings|]; [|done]. simpl in Hok.
    destruct (bool_decide (embeddings = ∅)); [done|]. simpl in Hok.
    unfold merge_unchecked.
    destruct (merge_cached (o :: rest) embeddings) as [merged|]; [|done].
    simpl in Hok. injection Hok as <-. simpl. by eexists.
  - intros -> b. rewrite api_recommend_with_validation_unfold. cbv zeta.
    destruct (app_ret (get_current_data embed_documents fs st))
      as [[internships embeddings]|e]; [|done].
    destruct (merge_unchecked internships embeddings) as [merged|e]; [|done].
    unfold rank_with. destruct (seq 0 (length (Dict <$> merged))); [|done].
    simpl. by intros [= <-].
  - intros Hload Hnone. split.
    + rewrite api_recommend_with_validation_unfold. cbv zeta.
      rewrite (get_current_data_keeps_loaded_data_aux embed_documents fs st Hload). rewrite Hnone.
      simpl. by destruct top_k.
    + intros k. unfold api_recommend, api_recommend_body. simpl.
      rewrite (get_current_data_keeps_loaded_data_aux embed_documents fs st Hload). by rewrite Hnone.
Qed.

Lemma count_with_embeddings_merged postings embeddings n :
  count_with_embeddings (Dict <$> postings) embeddings n
  = Some (n + length (merge_embeddings postings embeddings))%nat.
Proof.
  revert n. induction postings as [|p rest IH]; intros n; simpl.
  - f_equal. lia.
  - rewrite IH. destruct (lookup_key _ _); simpl; f_equal; lia.
Qed.

(** X23. The coverage that [api_embeddings_status] reports is the coverage
    of the merge of [api_recommend]: whenever both endpoints answer, they
    report the same number of postings, and the same number of postings
    with a vector, found by the same key.  The status never counts more
    postings with a vector than postings. *)
Theorem status_counts_the_merge fs st :
  (forall body,
     app_ret (api_embeddings_status embed_documents fs st) = Ok body ->
     (status_internships_with_embeddings body <= status_total_internships body)%nat)
  /\ (forall education skills location top_k body body',
        app_ret (api_embeddings_status embed_documents fs st) = Ok body ->
        app_ret (api_recommend embed_documents embed_query cosine_similarity fs st
                   education skills location top_k) = Ok body' ->
        status_total_internships body = total_internships body'
        /\ status_internships_with_embeddings body = internships_with_embeddings body').
Proof.
  unfold api_embeddings_status, api_embeddings_status_body,
    api_recommend, api_recommend_body. cbn [app_ret].
  destruct (app_ret (get_current_data embed_documents fs st))
    as [[internships embeddings]|e]; cbn [app_ret except_exception]; [|by split].
  destruct internships as [[|o rest]|];
    cbn [list_truthy negb andb default from_option id app_ret except_exception].
  1,3: split; [by intros body [= <-]|done].
  destruct embeddings as [embeddings|];
    cbn [dict_truthy negb andb default from_option id app_ret except_exception].
  2:{ split; [intros body [= <-]; simpl; lia|done]. }
  destruct (bool_decide (embeddings = ∅));
    cbn [dict_truthy negb andb default from_option id app_ret except_exception].
  { split; [intros body [= <-]; simpl; lia|done]. }
  unfold merge_cached.
  destruct (all_dicts (o :: rest)) as [postings|] eqn:Ed.
  - pose proof (all_dicts_Some _ _ Ed) as E.
    cbn [fmap option_fmap option_map].
    assert (Hc : count_with_embeddings (o :: rest) embeddings 0
                 = Some (length (merge_embeddings postings embeddings))).
    { rewrite E. by rewrite count_with_embeddings_merged. }
    rewrite Hc. cbn [app_ret except_exception].
    pose proof (merge_embeddings_length postings embeddings) as Hm.
    assert (Hp : length postings = length (o :: rest)).
    { by rewrite E, length_fmap. }
    split.
    + intros body [= <-]. simpl in Hp |- *. lia.
    + by intros education skills location top_k body body' [= <-] [= <-].
  - cbn [fmap option_fmap option_map app_ret except_exception].
    split; [|by intros education skills location top_k body body' _ Hb].
    destruct (count_with_embeddings (o :: rest) embeddings 0) as [n|] eqn:Ec; [|done].
    exfalso. clear -Ed Ec. revert n Ec Ed. generalize 0%nat. unfold all_dicts.
    generalize (o :: rest). intros l.
    induction l as [|[p|] l IH]; intros n0 n; simpl.
    + done.
    + intros Hc. destruct (mapM _ l) eqn:Em; simpl; [done|]. intros _.
      by eapply IH.
    + done.
Qed.

End MoreEndpoints.

(** ** The index the gate records *)

Lemma skill_gate_original_index s skills i internships a :
  a ∈ skill_gate s skills i internships ->
  (i <= original_index (rel_data a))%nat
  /\ internships !! (original_index (rel_data a) - i)%nat = Some (rel_ref a).
Proof.
  revert i. induction internships as [|l rest IH]; intros i; simpl.
  { by intros ?%elem_of_nil. }
  assert (Hrest : a ∈ skill_gate s skills (S i) rest ->
            (i <= original_index (rel_data a))%nat
            /\ (l :: rest) !! (original_index (rel_data a) - i)%nat = Some (rel_ref a)).
  { intros H. apply IH in H as [Hle Hl]. split; [lia|].
    replace (original_index (rel_data a) - i)%nat
      with (S (original_index (rel_data a) - S i)) by lia. done. }
  destruct (dict_at s l) as [p|]; [|done].
  destruct (calculate_skill_relevance skills (get_str (p_skills p))) as [[e pm] r].
  destruct (gate_admits e pm r); [|done].
  intros [->|H]%elem_of_cons; [|by apply Hrest]. simpl.
  split; [lia|]. by rewrite Nat.sub_diag.
Qed.

Lemma skill_gate_increasing s skills i internships :
  StronglySorted (fun a b => (original_index (rel_data a) < original_index (rel_data b))%nat)
    (skill_gate s skills i internships).
Proof.
  revert i. induction internships as [|l rest IH]; intros i; simpl; [constructor|].
  destruct (dict_at s l) as [p|]; [|apply IH].
  destruct (calculate_skill_relevance skills (get_str (p_skills p))) as [[e pm] r].
  destruct (gate_admits e pm r); [|apply IH].
  constructor; [apply IH|]. apply Forall_forall. intros b Hb.
  apply skill_gate_original_index in Hb as [Hb _]. simpl. lia.
Qed.

(** X24. The [original_index] the gate records for an admitted posting is
    the position of that posting in the list given to [recommend] (entries
    that are no dicts counted), and the admitted postings stand in the
    order of these positions. *)
Theorem original_index_is_the_position s internships skills :
  Forall (fun a => internships !! original_index (rel_data a) = Some (rel_ref a))
    (admitted s internships skills)
  /\ StronglySorted
       (fun a b => (original_index (rel_data a) < original_index (rel_data b))%nat)
       (admitted s internships skills).
Proof.
  split; [|apply skill_gate_increasing].
  apply Forall_forall. intros a Ha. apply skill_gate_original_index in Ha as [_ Ha].
  by rewrite Nat.sub_0_r in Ha.
Qed.

(** ** The properties on the concrete catalogue *)

Lemma fill_accepts_short_answers_demo :
  (let o := precompute_doc_embeddings_new (DemoRanking.answer [[0.6; 0.8]]%float)
              [Dict Demo.analyst; Dict Demo.developer] None in
   fill_calls o = [EmbedDocuments [get_internship_text Demo.analyst;
                                   get_internship_text Demo.developer]]
   /\ fill_ret o = Returned (fill_dict o)
   /\ fill_dict o !! get_internship_id Demo.analyst = Some [0.6; 0.8]%float
   /\ fill_dict o !! get_internship_id Demo.developer = None)
  /\ (let o := precompute_doc_embeddings_new
                 (DemoRanking.answer [[0.6; 0.8]; [0.8; 0.6]]%float)
                 [Dict Demo.developer] None in
      fill_calls o = [EmbedDocuments [get_internship_text Demo.developer]]
      /\ fill_ret o = Raised IndexError
      /\ fill_dict o !! get_internship_id Demo.developer = Some [0.6; 0.8]%float).
Proof.
  split.
  - destruct (fill_accepts_short_answers (DemoRanking.answer [[0.6; 0.8]]%float)
                [Dict Demo.analyst; Dict Demo.developer] None [[0.6; 0.8]]%float)
      as (Hdict & Hshort & _ & Hnone); [by vm_compute|reflexivity|].
    split; [reflexivity|]. split; [apply Hshort; vm_compute; lia|].
    split; [by vm_compute|]. apply Hnone.
    + apply list_elem_of_further, list_elem_of_here.
    + intros [|i] q Hi; [|simpl in Hi; lia]. intros [= <-]. by vm_compute.
  - destruct (fill_accepts_short_answers
                (DemoRanking.answer [[0.6; 0.8]; [0.8; 0.6]]%float)
                [Dict Demo.developer] None [[0.6; 0.8]; [0.8; 0.6]]%float)
      as (Hdict & _ & Hlong & _); [by vm_compute|reflexivity|].
    split; [reflexivity|]. split; [apply Hlong; vm_compute; lia|by vm_compute].
Defined.

Lemma fill_last_vector_wins_demo :
  let internships := [Dict Demo.developer; Dict DemoRanking.developer_again;
                      Dict Demo.analyst] in
  let o := precompute_doc_embeddings_new
             (DemoRanking.answer [[1; 0]; [0; 1]; [0.6; 0.8]]%float) internships None in
  get_internship_id Demo.developer = get_internship_id DemoRanking.developer_again
  /\ fill_dict o !! get_internship_id Demo.developer = Some [0; 1]%float.
Proof.
  split; [reflexivity|].
  apply (fill_last_vector_wins (DemoRanking.answer [[1; 0]; [0; 1]; [0.6; 0.8]]%float)
           [Dict Demo.developer; Dict DemoRanking.developer_again; Dict Demo.analyst]
           None [[1; 0]; [0; 1]; [0.6; 0.8]]%float 1 DemoRanking.developer_again).
  - reflexivity.
  - reflexivity.
  - reflexivity.
  - intros [|[|[|i]]] q Hi; simpl in Hi; try lia. intros [= <-]. by vm_compute.
Defined.

Lemma refresh_is_stable_demo :
  check_and_update_embeddings Demo.embed_documents
    (after_update DemoFiles.stale
       (check_and_update_embeddings Demo.embed_documents DemoFiles.stale None None))
    (Some [Dict Demo.developer]) (Some DemoFiles.vectors)
  = {| upd_calls := []; upd_saved := None;
       upd_ret := Returned ([Dict Demo.developer], DemoFiles.vectors, false) |}.
Proof.
  apply (refresh_is_stable Demo.embed_documents DemoFiles.stale None None).
  by vm_compute.
Defined.

Lemma plain_save_forces_refresh_demo :
  check_and_update_embeddings Demo.embed_documents
    (write_embeddings DemoFiles.stale (save_embeddings DemoFiles.vectors))
    (Some [Dict Demo.developer]) (Some DemoFiles.vectors)
  = {| upd_calls := [];
       upd_saved := Some {| source_file_hash := Some "h2"%string;
                            file_embeddings := DemoFiles.vectors |};
       upd_ret := Returned ([Dict Demo.developer], DemoFiles.vectors, true) |}.
Proof.
  apply (plain_save_forces_refresh Demo.embed_documents DemoFiles.stale
           DemoFiles.catalogue_file [Dict Demo.developer] DemoFiles.vectors).
  - reflexivity.
  - reflexivity.
  - discriminate.
  - intros p Hp _. apply list_elem_of_singleton in Hp. injection Hp as ->.
    exists [0.6; 0.8]%float. by vm_compute.
Defined.

Lemma api_recommend_answer_demo :
  exists body,
    app_ret (api_recommend Demo.embed_documents Demo.embed_query Demo.cosine
               DemoFiles.stale initial_state "B.Sc" "java" "remote" 5) = Ok body
    /\ exists internships embeddings,
         app_ret (get_current_data Demo.embed_documents DemoFiles.stale initial_state)
         = Returned (Some internships, Some embeddings)
         /\ total_internships body = length internships
         /\ (returned_recommendations body <= internships_with_embeddings body)%nat
         /\ (internships_with_embeddings body <= total_internships body)%nat
         /\ (returned_recommendations body <= 7)%nat
         /\ length (recommendations body) = returned_recommendations body
         /\ Forall (fun r =>
                      (exists q v score m,
                         Dict q ∈ internships
                         /\ lookup_key (api_merge_key q) embeddings = Some v
                         /\ r = decorate score m (with_embedding v q))
                      /\ forall n, p_id r = Some (IdInt n) -> n = 0)
              (recommendations body).
Proof.
  eexists. split.
  - vm_compute. reflexivity.
  - apply (api_recommend_answer Demo.embed_documents Demo.embed_query Demo.cosine
             DemoFiles.stale initial_state "B.Sc" "java" "remote" 5).
    vm_compute. reflexivity.
Defined.

Lemma get_current_data_keeps_loaded_data_demo :
  get_current_data Demo.embed_documents DemoFiles.nothing
    {| cached_internships := Some [Dict Demo.developer];
       cached_embeddings := Some DemoFiles.vectors |}
  = {| app_calls := []; app_writes := [];
       app_globals := {| cached_internships := Some [Dict Demo.developer];
                         cached_embeddings := Some DemoFiles.vectors |};
       app_ret := Returned (Some [Dict Demo.developer], Some DemoFiles.vectors) |}.
Proof.
  apply (get_current_data_keeps_loaded_data Demo.embed_documents DemoFiles.nothing
           {| cached_internships := Some [Dict Demo.developer];
              cached_embeddings := Some DemoFiles.vectors |}).
  left. reflexivity.
Defined.

Lemma reachable_globals_are_loaded_demo :
  let st := app_globals (get_current_data Demo.embed_documents DemoFiles.stale
                           initial_state) in
  (st = initial_state \/ loaded st)
  /\ forall fs a b,
       app_ret (get_current_data Demo.embed_documents fs st) = Returned (a, b) ->
       is_Some a /\ is_Some b.
Proof.
  apply (reachable_globals_are_loaded Demo.embed_documents).
  - intros docs vs [= <-]. apply length_fmap.
  - apply reachable_get, reachable_start.
Defined.

Lemma forced_recomputation_is_clean_demo :
  exists body,
    app_ret (api_recompute_embeddings Demo.embed_documents DemoFiles.with_orphan
               initial_state) = Ok body
    /\ total_embeddings body = 1%nat
    /\ (total_embeddings body <= recomputed_internships body)%nat.
Proof.
  eexists. split; [vm_compute; reflexivity|].
  destruct (forced_recomputation_is_clean Demo.embed_documents DemoFiles.with_orphan
              initial_state _ eq_refl)
    as (internships & embeddings & new_embeddings & _ & _ & _ & _ & _ & Hle & _).
  split; [reflexivity|exact Hle].
Defined.

Lemma clean_removes_exactly_the_orphans_demo :
  let doc := save_embeddings DemoFiles.vectors in
  exists internships embeddings,
    load_internships DemoFiles.with_orphan = Returned internships
    /\ load_embeddings DemoFiles.with_orphan = Returned embeddings
    /\ source_file_hash doc = None
    /\ (forall p, Dict p ∈ internships ->
          file_embeddings doc !! get_internship_id p
          = embeddings !! get_internship_id p)
    /\ (forall k, (forall p, Dict p ∈ internships -> k <> get_internship_id p) ->
          file_embeddings doc !! k = None)
    /\ (exists k, is_Some (embeddings !! k) /\ file_embeddings doc !! k = None)
    /\ clean_orphaned_embeddings (write_embeddings DemoFiles.with_orphan doc) = Some None.
Proof.
  apply (clean_removes_exactly_the_orphans DemoFiles.with_orphan
           (save_embeddings DemoFiles.vectors)).
  by vm_compute.
Defined.

Lemma larger_top_k_extends_the_answer_demo :
  let o := recommend Demo.embed_query Demo.cosine DemoRanking.catalogue
             DemoRanking.everything "b.tech" "Python, SQL" "delhi" 3 in
  let o' := recommend Demo.embed_query Demo.cosine DemoRanking.catalogue
              DemoRanking.everything "b.tech" "Python, SQL" "delhi" 9 in
  (length (out_result o) = 3 /\ length (out_result o') = 5)%nat
  /\ out_calls o = out_calls o'
  /\ out_result o `prefix_of` out_result o'
  /\ out_store o `prefix_of` out_store o'.
Proof.
  split; [by vm_compute|].
  apply (larger_top_k_extends_the_answer Demo.embed_query Demo.cosine
           DemoRanking.catalogue DemoRanking.everything
           "b.tech" "Python, SQL" "delhi" 3 9).
  lia.
Defined.

Lemma no_skill_tokens_means_fallback_demo :
  admitted Demo.catalogue Demo.everything " , " = []
  /\ recommend Demo.embed_query Demo.cosine Demo.catalogue Demo.everything
       "b.tech" " , " "delhi" 5
     = semantic_fallback_recommendation Demo.embed_query Demo.cosine Demo.catalogue
         Demo.everything (normalize "b.tech") (normalize " , ") (normalize "delhi")
         (clamp_top_k 5).
Proof.
  apply (no_skill_tokens_means_fallback Demo.embed_query Demo.cosine Demo.catalogue
           Demo.everything "b.tech" " , " "delhi" 5).
  - by vm_compute.
  - discriminate.
Defined.

Lemma legacy_fill_updates_in_place_demo :
  let o := precompute_doc_embeddings Demo.embed_documents Demo.catalogue [0; 1]%nat in
  [0; 1]%nat = [0; 1]%nat
  /\ exists embeddings_dict,
       fill_ret (precompute_doc_embeddings_new Demo.embed_documents
                   (objects_at Demo.catalogue [0; 1]%nat) (Some ∅))
       = Returned embeddings_dict
       /\ leg_calls o
          = match dicts (objects_at Demo.catalogue [0; 1]%nat) with
            | [] => []
            | _ => [EmbedDocuments
                      (get_internship_text
                         <$> dicts (objects_at Demo.catalogue [0; 1]%nat))]
            end
       /\ (forall l, leg_store o !! l
                     = (if decide (l ∈ [0; 1]%nat)
                        then attached embeddings_dict else id) <$> Demo.catalogue !! l)
       /\ ((forall docs vs, Demo.embed_documents docs = Some vs ->
                            length vs = length docs) ->
           forall l p, l ∈ [0; 1]%nat -> dict_at Demo.catalogue l = Some p ->
             exists v, embeddings_dict !! get_internship_id p = Some v
                       /\ dict_at (leg_store o) l = Some (with_embedding v p)).
Proof.
  apply (legacy_fill_updates_in_place Demo.embed_documents Demo.catalogue
           [0; 1]%nat [0; 1]%nat).
  by vm_compute.
Defined.

Lemma fallback_ignores_location_demo :
  recommend Demo.embed_query Demo.cosine Demo.catalogue Demo.everything
    "b.tech" "cobol" "delhi" 5
  = recommend Demo.embed_query Demo.cosine Demo.catalogue Demo.everything
      "b.tech" "cobol" "Remote" 5.
Proof.
  apply (fallback_ignores_location Demo.embed_query Demo.cosine Demo.catalogue
           Demo.everything "b.tech" "cobol" "delhi" "Remote" 5).
  by vm_compute.
Defined.

Lemma get_current_data_idempotent_demo :
  let g := get_current_data Demo.embed_documents DemoFiles.stale initial_state in
  get_current_data Demo.embed_documents
    (files_after DemoFiles.stale (app_writes g)) (app_globals g)
  = {| app_calls := []; app_writes := []; app_globals := app_globals g;
       app_ret := Returned (Some [Dict Demo.developer], Some DemoFiles.vectors) |}.
Proof.
  apply (get_current_data_idempotent Demo.embed_documents DemoFiles.stale initial_state
           (Some [Dict Demo.developer], Some DemoFiles.vectors)).
  by vm_compute.
Defined.
